(** * The development server of the jamsocket CLI

    A shallow embedding of [DevServer] (the dev-server part of
    src/commands/service/create.ts): the registry of development
    backends, the spawn proxy, spawning, rebuilding, terminating, the
    status and log streams, and the shutdown sequence.

    The program is single-threaded JavaScript: between two [await]s a
    piece of code runs without interruption.  Every definition below is
    one such uninterrupted segment, written in a small state-and-exception
    monad over the session state; what the collaborators answer (the
    remote spawn result, a status update, a clock reading) is an argument
    of the segment that consumes it. *)

From Stdlib Require Import String Ascii List ZArith Lia Bool DecimalString.
From stdpp Require Import base list strings.
Import ListNotations.
Local Open Scope string_scope.
Local Open Scope list_scope.

(** ** Data model *)

Inductive Color := cyan | magenta | yellow | blue.

Definition BACKEND_LOG_COLORS : list Color := [cyan; magenta; yellow; blue].

(** Modelled from the spec: the type [SpawnResult] is declared in the api
    module, which is not part of the sources at hand.  The spec gives the
    spawn response as [{name, spawned, ...}]; the remaining fields are
    kept as one opaque value. *)
Record SpawnResult := {
  name : string;
  spawned : bool;
  otherFields : string;
}.

(** Modelled from the spec: [SpawnRequestBody] is declared in the api
    module too; its fields are the ones [spawnBackend] reads, all
    optional. *)
Record SpawnRequestBody := {
  env : option (list (string * string));
  grace_period_seconds : option Z;
  port : option Z;
  tag : option string;
  require_bearer_token : option bool;
  body_lock : option string;
}.

Definition emptyBody : SpawnRequestBody :=
  {| env := None; grace_period_seconds := None; port := None; tag := None;
     require_bearer_token := None; body_lock := None |}.

(** A reference to a [Backend] object of the store, and the identifier of
    one activation of [streamStatusAndLogs]. *)
Abbreviation ref := nat.
Abbreviation frameId := nat.

(** [closeStreams] is a closure over the two stream handles of one
    activation of [streamStatusAndLogs]; it is represented by that
    activation's identifier. *)
Record Backend := {
  spawnResult : SpawnResult;
  imageId : string;
  spawnTime : Z;
  lastStatus : option string;
  lock : option string;
  isStreaming : bool;
  color : Color;
  closeStreams : option frameId;
}.

Definition set_lastStatus (v : option string) (b : Backend) : Backend :=
  {| spawnResult := spawnResult b; imageId := imageId b; spawnTime := spawnTime b;
     lastStatus := v; lock := lock b; isStreaming := isStreaming b;
     color := color b; closeStreams := closeStreams b |}.

Definition set_isStreaming (v : bool) (b : Backend) : Backend :=
  {| spawnResult := spawnResult b; imageId := imageId b; spawnTime := spawnTime b;
     lastStatus := lastStatus b; lock := lock b; isStreaming := v;
     color := color b; closeStreams := closeStreams b |}.

Definition set_closeStreams (v : option frameId) (b : Backend) : Backend :=
  {| spawnResult := spawnResult b; imageId := imageId b; spawnTime := spawnTime b;
     lastStatus := lastStatus b; lock := lock b; isStreaming := isStreaming b;
     color := color b; closeStreams := v |}.

Record Options := {
  dockerfile : string;
  service : string;
  account : string;
  watch : option (list string);
}.

(** ** The JavaScript [Map], with its insertion order *)

Module JsMap.
Section JsMap.
Context {V : Type}.

Fixpoint get (k : string) (m : list (string * V)) : option V :=
  match m with
  | [] => None
  | (k', v) :: m' => if String.eqb k k' then Some v else get k m'
  end.

Definition has (k : string) (m : list (string * V)) : bool :=
  match get k m with Some _ => true | None => false end.

(** [set] on a key already present keeps its position. *)
Fixpoint set (k : string) (v : V) (m : list (string * V)) : list (string * V) :=
  match m with
  | [] => [(k, v)]
  | (k', v') :: m' =>
      if String.eqb k k' then (k, v) :: m' else (k', v') :: set k v m'
  end.

Fixpoint delete (k : string) (m : list (string * V)) : list (string * V) :=
  match m with
  | [] => []
  | (k', v') :: m' =>
      if String.eqb k k' then delete k m' else (k', v') :: delete k m'
  end.

Definition values (m : list (string * V)) : list V := map snd m.
Definition keys (m : list (string * V)) : list string := map fst m.
Definition size (m : list (string * V)) : nat := length m.
End JsMap.
End JsMap.

(** ** Streams, effects and the session state *)

Inductive StreamKind := StatusStream | LogsStream.

(** What the program can see of a stream handle [{close(), closed}]: how
    often [close()] was called on it and whether its [closed] promise has
    resolved.  The promise is resolved by the client library, not by this
    program. *)
Record StreamHandle := {
  closeCalls : nat;
  closedFired : bool;
}.

Definition newStream : StreamHandle := {| closeCalls := 0; closedFired := false |}.

Definition callClose (h : StreamHandle) : StreamHandle :=
  {| closeCalls := S (closeCalls h); closedFired := closedFired h |}.

Definition fireClosed (h : StreamHandle) : StreamHandle :=
  {| closeCalls := closeCalls h; closedFired := true |}.

(** One activation of [streamStatusAndLogs]: the variables its callbacks
    and its continuation have captured. *)
Record Frame := {
  backendName : string;
  backend : ref;
  statusStream : StreamHandle;
  logsStream : StreamHandle;
  finished : bool;
}.

Definition set_statusStream (h : StreamHandle) (f : Frame) : Frame :=
  {| backendName := backendName f; backend := backend f; statusStream := h;
     logsStream := logsStream f; finished := finished f |}.

Definition set_logsStream (h : StreamHandle) (f : Frame) : Frame :=
  {| backendName := backendName f; backend := backend f; statusStream := statusStream f;
     logsStream := h; finished := finished f |}.

Definition set_finished (v : bool) (f : Frame) : Frame :=
  {| backendName := backendName f; backend := backend f; statusStream := statusStream f;
     logsStream := logsStream f; finished := v |}.

Inductive Line :=
| Plain (text : string)
| Chalk (c : Color) (text : string)
| Red (text : string).

(** What an HTTP answer of the spawn proxy carries. *)
Inductive Payload :=
| NoBody
| Text (text : string)
| Json (result : SpawnResult).

(** Calls to the collaborators and console output, in the order made. *)
Inductive Effect :=
| ELog (l : Line)
| EFooter
| EPush (svc img : string)
| ESpawn (svc : string) (body : SpawnRequestBody)
| ETerminate (backendName : string)
| EStreamStatus (backendName : string) (f : frameId)
| EStreamLogs (backendName : string) (f : frameId)
| EClose (k : StreamKind) (f : frameId)
| ERespond (code : nat) (payload : Payload)
| EServerListen (port : Z)
| EServerClose
| EWatcherClose
| EStdinRelease.

Inductive Error := MkError (message : string).

Record State := {
  opts : Options;
  currentImageId : option string;
  devBackends : list (string * ref);
  totalBackendsSpawned : nat;
  heap : list Backend;
  frames : list Frame;
  trace : list Effect;
}.

Definition set_currentImageId (v : option string) (s : State) : State :=
  {| opts := opts s; currentImageId := v; devBackends := devBackends s;
     totalBackendsSpawned := totalBackendsSpawned s; heap := heap s;
     frames := frames s; trace := trace s |}.

Definition set_devBackends (v : list (string * ref)) (s : State) : State :=
  {| opts := opts s; currentImageId := currentImageId s; devBackends := v;
     totalBackendsSpawned := totalBackendsSpawned s; heap := heap s;
     frames := frames s; trace := trace s |}.

Definition set_totalBackendsSpawned (v : nat) (s : State) : State :=
  {| opts := opts s; currentImageId := currentImageId s; devBackends := devBackends s;
     totalBackendsSpawned := v; heap := heap s;
     frames := frames s; trace := trace s |}.

Definition set_heap (v : list Backend) (s : State) : State :=
  {| opts := opts s; currentImageId := currentImageId s; devBackends := devBackends s;
     totalBackendsSpawned := totalBackendsSpawned s; heap := v;
     frames := frames s; trace := trace s |}.

Definition set_frames (v : list Frame) (s : State) : State :=
  {| opts := opts s; currentImageId := currentImageId s; devBackends := devBackends s;
     totalBackendsSpawned := totalBackendsSpawned s; heap := heap s;
     frames := v; trace := trace s |}.

Definition set_trace (v : list Effect) (s : State) : State :=
  {| opts := opts s; currentImageId := currentImageId s; devBackends := devBackends s;
     totalBackendsSpawned := totalBackendsSpawned s; heap := heap s;
     frames := frames s; trace := v |}.

Definition initialState (o : Options) : State :=
  {| opts := o; currentImageId := None; devBackends := [];
     totalBackendsSpawned := 0; heap := []; frames := []; trace := [] |}.

(** ** The monad: state, and exceptions that keep the state *)

Inductive Res (A : Type) :=
| Val (a : A) (s : State)
| Exn (e : Error) (s : State).
Arguments Val {A} a s.
Arguments Exn {A} e s.

Definition M (A : Type) := State -> Res A.

Definition ret {A} (a : A) : M A := fun s => Val a s.

Definition bind {A B} (m : M A) (k : A -> M B) : M B :=
  fun s => match m s with
           | Val a s' => k a s'
           | Exn e s' => Exn e s'
           end.

Definition throw {A} (e : Error) : M A := fun s => Exn e s.

Definition gets {A} (f : State -> A) : M A := fun s => Val (f s) s.

Definition modify (f : State -> State) : M unit := fun s => Val tt (f s).

Notation "x <- m ;; k" := (bind m (fun x => k))
  (at level 100, m at next level, right associativity).
Notation "m ;;; k" := (bind m (fun _ => k))
  (at level 100, right associativity).

Definition stateOf {A} (r : Res A) : State :=
  match r with Val _ s => s | Exn _ s => s end.

(** Calling an async function without awaiting it: what it throws rejects
    a promise nobody looks at. *)
Definition detached {A} (m : M A) : M unit :=
  fun s => match m s with
           | Val _ s' => Val tt s'
           | Exn _ s' => Val tt s'
           end.

Fixpoint forEach {A} (l : list A) (body : A -> M unit) : M unit :=
  match l with
  | [] => ret tt
  | x :: l' => body x ;;; forEach l' body
  end.

Definition emit (e : Effect) : M unit :=
  modify (fun s => set_trace (trace s ++ [e]) s).

(** ** The object store *)

Definition alloc (b : Backend) : M ref :=
  fun s => Val (length (heap s)) (set_heap (heap s ++ [b]) s).

(** Reading a field of an object.  A reference that points nowhere does
    not exist in JavaScript; the model stops such a run with an exception
    of its own. *)
Definition danglingReference : Error := MkError "model: dangling reference".

Definition deref (r : ref) : M Backend :=
  fun s => match heap s !! r with
           | Some b => Val b s
           | None => Exn danglingReference s
           end.

Definition assign (r : ref) (f : Backend -> Backend) : M unit :=
  b <- deref r ;;
  modify (fun s => set_heap (<[r := f b]> (heap s)) s).

(** ** Console *)

(** The footer box is a display of the registry and keeps a line counter
    only; it is recorded as one redraw.  [clearFooter] erases it. *)
Definition clearFooter : M unit := ret tt.

Definition updateFooterAndLog (logLines : list Line) : M unit :=
  clearFooter ;;;
  forEach logLines (fun logLine => emit (ELog logLine)) ;;;
  emit EFooter.

(** ** Streaming status and logs *)

(** Modelled from the spec: the client's [streamStatus] and [streamLogs]
    are not part of the sources at hand.  By their interface,
    [streamStatus(name, onUpdate) -> {close(), closed}], each call hands
    back a handle; what the stream delivers reaches the callback later,
    not during the call.  The pair of handles lives in a new activation
    record. *)
Definition openStreams (backendName : string) (backend : ref) : M frameId :=
  f <- gets (fun s => length (frames s)) ;;
  modify (fun s => set_frames (frames s ++
            [{| backendName := backendName; backend := backend;
                statusStream := newStream; logsStream := newStream;
                finished := false |}]) s) ;;;
  emit (EStreamStatus backendName f) ;;;
  emit (EStreamLogs backendName f) ;;;
  ret f.

(** The closure [() => { statusStream.close(); logsStream.close() }]. *)
Definition invokeCloser (f : frameId) : M unit :=
  modify (fun s => set_frames
            (alter (fun fr => set_statusStream (callClose (statusStream fr)) fr) f (frames s)) s) ;;;
  emit (EClose StatusStream f) ;;;
  modify (fun s => set_frames
            (alter (fun fr => set_logsStream (callClose (logsStream fr)) fr) f (frames s)) s) ;;;
  emit (EClose LogsStream f).

Definition isLive (curStatus : string) : bool :=
  existsb (String.eqb curStatus) ["Loading"; "Starting"; "Ready"].

(** The callback given to [streamStatus] (lines 243-253); [backendName]
    and [backend] are its captured variables. *)
Definition onStatus (backendName : string) (backend : ref) (curStatus : string) : M unit :=
  assign backend (set_lastStatus (Some curStatus)) ;;;
  b <- deref backend ;;
  updateFooterAndLog [Chalk (color b) ("[" ++ backendName ++ "] status: " ++ curStatus)] ;;;
  if negb (isLive curStatus) then
    b <- deref backend ;;
    match closeStreams b with
    | Some closer => invokeCloser closer
    | None => ret tt
    end ;;;
    modify (fun s => set_devBackends (JsMap.delete backendName (devBackends s)) s)
  else ret tt.

(** The callback given to [streamLogs] (lines 254-256). *)
Definition onLog (backendName : string) (backend : ref) (log : string) : M unit :=
  b <- deref backend ;;
  updateFooterAndLog [Chalk (color b) ("[" ++ backendName ++ "] " ++ log)].

(** [streamStatusAndLogs] up to its [await] (lines 237-263). *)
Definition streamStatusAndLogs (backendName : string) : M frameId :=
  found <- gets (fun s => JsMap.get backendName (devBackends s)) ;;
  match found with
  | None =>
      throw (MkError ("Backend " ++ backendName ++
                      " not found in devBackends when attempting to stream status and logs"))
  | Some backend =>
      assign backend (set_isStreaming true) ;;;
      f <- openStreams backendName backend ;;
      assign backend (set_closeStreams (Some f)) ;;;
      ret f
  end.

(** [streamStatusAndLogs] after both [closed] promises have resolved
    (lines 265-266). *)
Definition streamStatusAndLogs_ended (f : frameId) (backendName : string) (backend : ref) : M unit :=
  b <- deref backend ;;
  updateFooterAndLog [Chalk (color b) ("[" ++ backendName ++ "] streams ended")] ;;;
  assign backend (set_isStreaming false) ;;;
  modify (fun s => set_frames (alter (set_finished true) f (frames s)) s).

(** ** Spawning *)

Definition isEmpty (x : string) : bool :=
  match x with EmptyString => true | _ => false end.

Definition errNoImage : Error :=
  MkError "spawnBackend called before currentImageId was set. This is a bug.".

Definition dquote : string := String (ascii_of_nat 34) EmptyString.

Definition errAlreadyExists (n : string) : Error :=
  MkError ("Spawned backend " ++ n ++ " already exists in devBackends but " ++
           dquote ++ "spawned=true" ++ dquote ++
           " in spawn response. Some bug has occurred.").

Definition outdatedText : string :=
  "Spawn with lock returned a running backend with an outdated version of the session backend code. Blocking spawn.".

Definition foreignText : string :=
  "Spawn with lock returned a running backend that was not originally spawned by this dev server. This may be dangerous. Blocking spawn.".

Definition errOutdated : Error := MkError ("dev-server spawn proxy: " ++ outdatedText).
Definition errForeign : Error := MkError ("dev-server spawn proxy: " ++ foreignText).

(** Reading a property of [undefined]. *)
Definition typeError : Error := MkError "TypeError".

(** [spawnBackend] up to the remote call (lines 324-340): the image
    identifier is read here, before the call is awaited. *)
Definition spawnBackend_call (body : SpawnRequestBody) : M string :=
  svc <- gets (fun s => service (opts s)) ;;
  current <- gets currentImageId ;;
  match current with
  | None => throw errNoImage
  | Some img =>
      if isEmpty img then throw errNoImage
      else emit (ESpawn svc body) ;;; ret img
  end.

(** Lines 370-380, reached from the two accepting branches. *)
Definition spawnBackend_tail (result : SpawnResult) : M (SpawnResult + Error) :=
  found <- gets (fun s => JsMap.get (name result) (devBackends s)) ;;
  match found with
  | None => throw typeError
  | Some backend =>
      b <- deref backend ;;
      (if negb (isStreaming b) then
         updateFooterAndLog
           [Plain ("Streaming status and logs for " ++ name result ++ "..."); Plain EmptyString] ;;;
         detached (streamStatusAndLogs (name result))
       else ret tt) ;;;
      (if spawned result then updateFooterAndLog [] else ret tt) ;;;
      ret (inl result)
  end.

(** [spawnBackend] from the remote answer on (lines 342-380).  [img] is
    the image identifier read before the call, [now] the reading of
    [Date.now()]. *)
Definition spawnBackend_resume (img : string) (body : SpawnRequestBody)
    (result : SpawnResult) (now : Z) : M (SpawnResult + Error) :=
  known <- gets (fun s => JsMap.has (name result) (devBackends s)) ;;
  if known then
    if spawned result then throw (errAlreadyExists (name result))
    else
      found <- gets (fun s => JsMap.get (name result) (devBackends s)) ;;
      match found with
      | None => throw typeError
      | Some backend =>
          b <- deref backend ;;
          if negb (String.eqb (imageId b) img) then
            updateFooterAndLog [Red ("Warning: " ++ outdatedText)] ;;;
            ret (inr errOutdated)
          else spawnBackend_tail result
      end
  else if spawned result then
    n <- gets totalBackendsSpawned ;;
    let c := nth (n mod length BACKEND_LOG_COLORS) BACKEND_LOG_COLORS cyan in
    modify (set_totalBackendsSpawned (n + 1)) ;;;
    backend <- alloc {| spawnResult := result; imageId := img; spawnTime := now;
                        lastStatus := None; lock := body_lock body;
                        isStreaming := false; color := c; closeStreams := None |} ;;
    modify (fun s => set_devBackends (JsMap.set (name result) backend (devBackends s)) s) ;;;
    updateFooterAndLog [Plain EmptyString; Plain ("Spawned backend: " ++ name result)] ;;;
    spawnBackend_tail result
  else
    updateFooterAndLog [Red ("Warning: " ++ foreignText)] ;;;
    ret (inr errForeign).

(** The whole of [spawnBackend] when nothing else runs while the remote
    call is awaited. *)
Definition spawnBackend (body : SpawnRequestBody) (result : SpawnResult) (now : Z)
    : M (SpawnResult + Error) :=
  img <- spawnBackend_call body ;;
  spawnBackend_resume img body result now.

(** ** Terminating and rebuilding *)

Definition showNat (n : nat) : string := NilEmpty.string_of_uint (Nat.to_uint n).

Definition join (sep : string) (l : list string) : string := String.concat sep l.

(** [terminateBackends] (lines 154-160).  All calls are made before
    anything is awaited; [rejected] is what [Promise.all] then reports. *)
Definition terminateBackends (backends : list string) (rejected : option Error) : M unit :=
  forEach backends (fun n => emit (ETerminate n)) ;;;
  updateFooterAndLog
    [Plain ("Terminating " ++ showNat (length backends) ++ " backend(s): " ++ join ", " backends)] ;;;
  match rejected with
  | Some e => throw e
  | None => ret tt
  end.

(** [[...this.devBackends.values()]], the objects read through their
    references. *)
Fixpoint derefAll (l : list ref) : M (list Backend) :=
  match l with
  | [] => ret []
  | r :: l' => b <- deref r ;; bs <- derefAll l' ;; ret (b :: bs)
  end.

Definition backendValues : M (list Backend) :=
  refs <- gets (fun s => JsMap.values (devBackends s)) ;;
  derefAll refs.

Definition differsFrom (current : option string) (b : Backend) : bool :=
  match current with
  | Some img => negb (String.eqb (imageId b) img)
  | None => true
  end.

(** [terminateAllDevbackends] (lines 144-152). *)
Definition terminateAllDevbackends (rejected : option Error) : M unit :=
  bs <- backendValues ;;
  let backendNames := map (fun b => name (spawnResult b)) bs in
  if Nat.ltb 0 (length backendNames) then
    updateFooterAndLog [Plain EmptyString; Plain "Terminating development backends..."] ;;;
    terminateBackends backendNames rejected
  else
    updateFooterAndLog [Plain EmptyString; Plain "No development backends to terminate"].

(** [buildSessionBackend] up to the push (lines 122-129); [built] is what
    [buildImage] returns or throws. *)
Definition buildSessionBackend_build (built : Error + string) : M string :=
  svc <- gets (fun s => service (opts s)) ;;
  updateFooterAndLog [Plain "Building image..."] ;;;
  clearFooter ;;;
  match built with
  | inl e => throw e
  | inr img =>
      updateFooterAndLog [Plain "Image built."; Plain "Pushing image..."] ;;;
      clearFooter ;;;
      emit (EPush svc img) ;;;
      ret img
  end.

(** [buildSessionBackend] once the push has been answered. *)
Definition buildSessionBackend_pushed (img : string) (pushRejected : option Error) : M string :=
  match pushRejected with
  | Some e => throw e
  | None =>
      svc <- gets (fun s => service (opts s)) ;;
      updateFooterAndLog
        [Plain ("Image pushed to " ++ svc ++ " service on the Jamsocket registry. ImageID: " ++ img)] ;;;
      ret img
  end.

(** [rebuild] from the answer of the push on (lines 135-141). *)
Definition rebuild_resume (img : string) (pushRejected : option Error)
    (rejected : option Error) : M unit :=
  img' <- buildSessionBackend_pushed img pushRejected ;;
  modify (set_currentImageId (Some img')) ;;;
  bs <- backendValues ;;
  current <- gets currentImageId ;;
  let outdatedBackends :=
    map (fun b => name (spawnResult b)) (List.filter (differsFrom current) bs) in
  if Nat.ltb 0 (length outdatedBackends) then
    updateFooterAndLog [Plain EmptyString; Plain "Terminating outdated backends..."] ;;;
    terminateBackends outdatedBackends rejected
  else ret tt.

(** The whole of [rebuild] when nothing else runs during the push. *)
Definition rebuild (built : Error + string) (pushRejected rejected : option Error) : M unit :=
  img <- buildSessionBackend_build built ;;
  rebuild_resume img pushRejected rejected.

(** ** Shutdown *)

(** [start] from the exit signal to the remote terminations
    (lines 103-107). *)
Definition start_exit (rejected : option Error) : M unit :=
  emit EServerClose ;;;
  terminateAllDevbackends rejected.

(** The loop of lines 111-114.  The iterator of a [Map] is live: having
    deleted the entry it stands on, it moves to the first entry left. *)
Fixpoint closeRemaining (fuel : nat) : M unit :=
  match fuel with
  | O => ret tt
  | S fuel' =>
      entries <- gets devBackends ;;
      match entries with
      | [] => ret tt
      | (n, backend) :: _ =>
          b <- deref backend ;;
          match closeStreams b with
          | Some closer => invokeCloser closer
          | None => ret tt
          end ;;;
          modify (fun s => set_devBackends (JsMap.delete n (devBackends s)) s) ;;;
          closeRemaining fuel'
      end
  end.

(** [start] once the terminations have been answered (lines 108-119). *)
Definition start_cleanup : M unit :=
  clearFooter ;;;
  n <- gets (fun s => JsMap.size (devBackends s)) ;;
  closeRemaining n ;;;
  w <- gets (fun s => watch (opts s)) ;;
  match w with
  | Some _ => emit EWatcherClose
  | None => ret tt
  end ;;;
  emit EStdinRelease.

(** The shutdown when nothing else runs while the terminations are
    awaited. *)
Definition shutdown (rejected : option Error) : M unit :=
  start_exit rejected ;;;
  start_cleanup.

(** ** The spawn proxy *)

Record Request := {
  method : option string;
  url : option string;
}.

Fixpoint stripPrefix (p s : string) : option string :=
  match p with
  | EmptyString => Some s
  | String c p' =>
      match s with
      | EmptyString => None
      | String d s' => if Ascii.eqb c d then stripPrefix p' s' else None
      end
  end.

(** The longest run of characters other than a slash, and what follows. *)
Fixpoint segment (s : string) : string * string :=
  match s with
  | EmptyString => (EmptyString, EmptyString)
  | String c s' =>
      if Ascii.eqb c "/" then (EmptyString, s)
      else let (seg, rest) := segment s' in (String c seg, rest)
  end.

(** The regular expression of line 273: anchored at the start of the
    text only.  The result is the pair of captured groups. *)
Definition routeMatch (u : string) : option (string * string) :=
  match stripPrefix "/user/" u with
  | None => None
  | Some r1 =>
      let (reqAccount, r2) := segment r1 in
      if isEmpty reqAccount then None
      else match stripPrefix "/service/" r2 with
           | None => None
           | Some r3 =>
               let (reqService, r4) := segment r3 in
               if isEmpty reqService then None
               else match stripPrefix "/spawn" r4 with
                    | None => None
                    | Some _ => Some (reqAccount, reqService)
                    end
           end
  end.

Definition isPost (m : option string) : bool :=
  match m with
  | Some m' => String.eqb m' "POST"
  | None => false
  end.

Definition orEmpty (u : option string) : string :=
  match u with Some u' => u' | None => EmptyString end.

(** The request handler up to the reading of the body (lines 272-298);
    it answers [true] when the request goes on to be spawned. *)
Definition proxyHandler_route (req : Request) : M bool :=
  svc <- gets (fun s => service (opts s)) ;;
  acc <- gets (fun s => account (opts s)) ;;
  let matched := routeMatch (orEmpty (url req)) in
  match (if negb (isPost (method req)) then None else matched) with
  | None => emit (ERespond 404 NoBody) ;;; ret false
  | Some (reqAccount, reqService) =>
      if negb (String.eqb svc reqService) then
        updateFooterAndLog
          [Red ("Warning: Request for service " ++ reqService ++
                " does not match service in config (" ++ svc ++ "). Blocking spawn.")] ;;;
        emit (ERespond 401 NoBody) ;;;
        ret false
      else if negb (String.eqb acc reqAccount) then
        updateFooterAndLog
          [Red "Warning: Request for account does not match logged-in account. Blocking spawn."] ;;;
        emit (ERespond 401 NoBody) ;;;
        ret false
      else ret true
  end.

(** The handler once the body is read (lines 300-306); [parsed] is what
    [JSON.parse] made of it, if anything. *)
Definition proxyHandler_spawn (parsed : option SpawnRequestBody) : M string :=
  let body := match parsed with Some b => b | None => emptyBody end in
  spawnBackend_call body.

Definition errorToString (e : Error) : string :=
  match e with MkError m => "Error: " ++ m end.

(** The handler once [spawnBackend] has returned (lines 307-314). *)
Definition proxyHandler_respond (result : SpawnResult + Error) : M unit :=
  match result with
  | inr e => emit (ERespond 400 (Text (errorToString e)))
  | inl r => emit (ERespond 200 (Json r))
  end.

(** The whole handler for one request when nothing else runs at its
    suspension points. *)
Definition proxyHandler (req : Request) (parsed : option SpawnRequestBody)
    (result : SpawnResult) (now : Z) : M unit :=
  accepted <- proxyHandler_route req ;;
  if accepted then
    img <- proxyHandler_spawn parsed ;;
    let body := match parsed with Some b => b | None => emptyBody end in
    answer <- spawnBackend_resume img body result now ;;
    proxyHandler_respond answer
  else ret tt.

(** ** Start-up *)

(** [start] up to the first push (lines 70-71). *)
Definition start_build (built : Error + string) : M string :=
  emit (ELog (Plain "Starting dev server...")) ;;;
  buildSessionBackend_build built.

(** [start] from the answer of the first push to the wait for the exit
    signal (lines 71-103): the image is recorded, the proxy is told to
    listen, the watcher is announced. *)
Definition start_pushed (img : string) (pushRejected : option Error) : M unit :=
  img' <- buildSessionBackend_pushed img pushRejected ;;
  modify (set_currentImageId (Some img')) ;;;
  emit (EServerListen 8080%Z) ;;;
  w <- gets (fun s => watch (opts s)) ;;
  match w with
  | Some paths =>
      updateFooterAndLog
        [Plain ("Watching " ++ join ", " paths ++ " for changes..."); Plain EmptyString]
  | None => ret tt
  end.

(** The callback of [server.listen] (lines 317-319). *)
Definition spawnProxy_listening : M unit :=
  updateFooterAndLog
    [Plain EmptyString; Plain "Spawn proxy server running on http://localhost:8080";
     Plain EmptyString].

(** ** The session as a transition system *)

(** One uninterrupted segment of the program, run on what the outside
    world delivers.  Callbacks and continuations carry the variables
    they captured: those of an activation record for the streams, the
    image identifier and the request body for a spawn in flight. *)
Inductive step : State -> State -> Prop :=
| step_start_build s built :
    step s (stateOf (start_build built s))
| step_start_pushed s img pushRejected :
    step s (stateOf (start_pushed img pushRejected s))
| step_listening s :
    step s (stateOf (spawnProxy_listening s))
| step_rebuild_build s built :
    step s (stateOf (buildSessionBackend_build built s))
| step_request s req :
    step s (stateOf (proxyHandler_route req s))
| step_body s parsed :
    step s (stateOf (proxyHandler_spawn parsed s))
| step_spawn_answer s img body result now :
    step s (stateOf ((answer <- spawnBackend_resume img body result now ;;
                      proxyHandler_respond answer) s))
| step_status s f fr curStatus :
    frames s !! f = Some fr ->
    step s (stateOf (onStatus (backendName fr) (backend fr) curStatus s))
| step_log s f fr log :
    frames s !! f = Some fr ->
    step s (stateOf (onLog (backendName fr) (backend fr) log s))
| step_closed_status s f :
    step s (set_frames (alter (fun fr => set_statusStream (fireClosed (statusStream fr)) fr) f (frames s)) s)
| step_closed_logs s f :
    step s (set_frames (alter (fun fr => set_logsStream (fireClosed (logsStream fr)) fr) f (frames s)) s)
| step_streams_ended s f fr :
    frames s !! f = Some fr ->
    closedFired (statusStream fr) = true ->
    closedFired (logsStream fr) = true ->
    finished fr = false ->
    step s (stateOf (streamStatusAndLogs_ended f (backendName fr) (backend fr) s))
| step_rebuild_resume s img pushRejected rejected :
    step s (stateOf (rebuild_resume img pushRejected rejected s))
| step_terminate_all s rejected :
    step s (stateOf (terminateAllDevbackends rejected s))
| step_exit s rejected :
    step s (stateOf (start_exit rejected s))
| step_cleanup s :
    step s (stateOf (start_cleanup s)).

Inductive reachable (o : Options) : State -> Prop :=
| reachable_init : reachable o (initialState o)
| reachable_step s s' : reachable o s -> step s s' -> reachable o s'.

(** * Observations on the session

    Names for the states the segments lead to, and for what the
    properties below count and compare. *)

Definition attachedFrame (n : string) (r : ref) : Frame :=
  {| backendName := n; backend := r; statusStream := newStream;
     logsStream := newStream; finished := false |}.

Definition attachedBackend (f : frameId) (b : Backend) : Backend :=
  set_closeStreams (Some f) (set_isStreaming true b).

(** What attaching the streams does to the session. *)
Definition attached (n : string) (r : ref) (b : Backend) (s : State) : State :=
  let f := length (frames s) in
  set_trace (trace s ++ [EStreamStatus n f; EStreamLogs n f])
    (set_frames (frames s ++ [attachedFrame n r])
       (set_heap (<[r := attachedBackend f b]> (heap s)) s)).

Definition logged (ls : list Line) (s : State) : State :=
  set_trace (trace s ++ map ELog ls ++ [EFooter]) s.

Definition streamingNotice (n : string) : list Line :=
  [Plain ("Streaming status and logs for " ++ n ++ "..."); Plain EmptyString].

Definition redrawnIf (c : bool) (s : State) : State :=
  if c then logged [] s else s.

(** The names the remote [terminate] was called with, in order. *)
Fixpoint terminateCalls (es : list Effect) : list string :=
  match es with
  | [] => []
  | ETerminate n :: es' => n :: terminateCalls es'
  | _ :: es' => terminateCalls es'
  end.

Definition terminatingNotice (backends : list string) : list Line :=
  [Plain ("Terminating " ++ showNat (length backends) ++ " backend(s): " ++ join ", " backends)].

(** The records behind a list of references. *)
Definition pointTo (s : State) (refs : list ref) (bs : list Backend) : Prop :=
  Forall2 (fun r b => heap s !! r = Some b) refs bs.

Definition outdated (img : string) (bs : list Backend) : list string :=
  map (fun b => name (spawnResult b))
      (List.filter (fun b => negb (String.eqb (imageId b) img)) bs).

Definition answered (code : nat) (s : State) : State :=
  set_trace (trace s ++ [ERespond code NoBody]) s.

Definition spawnCalls (es : list Effect) : nat :=
  length (List.filter (fun e => match e with ESpawn _ _ => true | _ => false end) es).

Definition closeBoth (fr : Frame) : Frame :=
  set_logsStream (callClose (logsStream fr))
    (set_statusStream (callClose (statusStream fr)) fr).

Definition closerInvoked (f : frameId) (s : State) : State :=
  set_trace (trace s ++ [EClose StatusStream f; EClose LogsStream f])
    (set_frames (alter closeBoth f (frames s)) s).

(** How often [close()] was called on a stream of the pair [f]. *)
Definition closeCount (k : StreamKind) (f : frameId) (s : State) : nat :=
  match frames s !! f with
  | Some fr =>
      match k with
      | StatusStream => closeCalls (statusStream fr)
      | LogsStream => closeCalls (logsStream fr)
      end
  | None => 0
  end.

Definition statusLine (n : string) (b : Backend) (curStatus : string) : Line :=
  Chalk (color b) ("[" ++ n ++ "] status: " ++ curStatus).

Definition statusNoted (n : string) (r : ref) (b : Backend) (curStatus : string)
    (s : State) : State :=
  logged [statusLine n b curStatus]
    (set_heap (<[r := set_lastStatus (Some curStatus) b]> (heap s)) s).

Definition unregistered (n : string) (s : State) : State :=
  set_devBackends (JsMap.delete n (devBackends s)) s.

(** What a stream delivers to its callbacks. *)
Inductive StreamEvent :=
| StatusUpdate (state : string)
| LogLine (log : string).

Definition deliver (n : string) (r : ref) (ev : StreamEvent) : M unit :=
  match ev with
  | StatusUpdate st => onStatus n r st
  | LogLine l => onLog n r l
  end.

Definition isTerminalUpdate (ev : StreamEvent) : bool :=
  match ev with
  | StatusUpdate st => negb (isLive st)
  | LogLine _ => false
  end.

Definition terminalUpdates (evs : list StreamEvent) : nat :=
  length (List.filter isTerminalUpdate evs).

Definition streamOf (k : StreamKind) (fr : Frame) : StreamHandle :=
  match k with
  | StatusStream => statusStream fr
  | LogsStream => logsStream fr
  end.

(** The lines written to the console, in order. *)
Fixpoint consoleLines (es : list Effect) : list Line :=
  match es with
  | [] => []
  | ELog l :: es' => l :: consoleLines es'
  | _ :: es' => consoleLines es'
  end.

(** The line the callbacks of a backend print for an event. *)
Definition eventLine (n : string) (c : Color) (ev : StreamEvent) : Line :=
  match ev with
  | StatusUpdate st => Chalk c ("[" ++ n ++ "] status: " ++ st)
  | LogLine l => Chalk c ("[" ++ n ++ "] " ++ l)
  end.

(** Whether the [closed] promise of a stream has resolved. *)
Definition closedSignal (k : StreamKind) (f : frameId) (s : State) : bool :=
  match frames s !! f with
  | Some fr => closedFired (streamOf k fr)
  | None => false
  end.

Definition refsValid (s : State) : Prop :=
  forall n r, In (n, r) (devBackends s) -> exists b, heap s !! r = Some b.

Definition streamingHasCloser (b : Backend) : Prop :=
  isStreaming b = true -> closeStreams b <> None.

Definition preserves {A} (I : State -> Prop) (m : M A) : Prop :=
  forall s, I s -> I (stateOf (m s)).

(** What holds of the session between any two segments: the registry has
    one entry per name, each entry points to the record of that name,
    a record marked as streaming holds a closer, closers and activation
    records point to things that exist. *)
Record wellFormed (s : State) : Prop := {
  wf_keys : List.NoDup (JsMap.keys (devBackends s));
  wf_refs : forall n r, In (n, r) (devBackends s) ->
              exists b, heap s !! r = Some b /\ name (spawnResult b) = n;
  wf_streaming : forall r b, heap s !! r = Some b -> streamingHasCloser b;
  wf_closers : forall r b c, heap s !! r = Some b -> closeStreams b = Some c ->
                 c < length (frames s);
  wf_frames : forall f fr, frames s !! f = Some fr -> backend fr < length (heap s);
}.

Definition pushedNotice (svc img : string) : list Line :=
  [Plain ("Image pushed to " ++ svc ++ " service on the Jamsocket registry. ImageID: " ++ img)].

(** The session after a rebuild whose push was answered, [bs] being the
    records of the registry. *)
Definition rebuiltState (img : string) (bs : list Backend) (s : State) : State :=
  let s1 := set_currentImageId (Some img) (logged (pushedNotice (service (opts s)) img) s) in
  if Nat.ltb 0 (length (outdated img bs)) then
    let s2 := logged [Plain EmptyString; Plain "Terminating outdated backends..."] s1 in
    logged (terminatingNotice (outdated img bs))
      (set_trace (trace s2 ++ map ETerminate (outdated img bs)) s2)
  else s1.

(** ** A session to run the segments on *)

Module Demo.
Definition options : Options :=
  {| dockerfile := "Dockerfile"; service := "svc"; account := "acct"; watch := None |}.

Definition spawnRequest : Request :=
  {| method := Some "POST"; url := Some "/user/acct/service/svc/spawn" |}.

Definition fresh (n : string) : SpawnResult :=
  {| name := n; spawned := true; otherFields := "{}" |}.

Definition reused (n : string) : SpawnResult :=
  {| name := n; spawned := false; otherFields := "{}" |}.

(** The image [img1] is built and pushed, the proxy listens. *)
Definition started : State := Eval vm_compute in
  stateOf (spawnProxy_listening
    (stateOf (start_pushed "img1" None
      (stateOf (start_build (inr "img1") (initialState options)))))).

(** A first request has spawned backend [b1]; its streams are open. *)
Definition oneBackend : State := Eval vm_compute in
  stateOf (proxyHandler spawnRequest None (fresh "b1") 5%Z started).

(** A second request has spawned backend [b2]. *)
Definition twoBackends : State := Eval vm_compute in
  stateOf (proxyHandler spawnRequest None (fresh "b2") 6%Z oneBackend).

(** The image [img2] replaces [img1] while [b1] runs. *)
Definition rebuilt : State := Eval vm_compute in
  stateOf (rebuild (inr "img2") None None oneBackend).

(** After the rebuild a request has spawned [b2] from [img2]; [b1]
    still runs [img1]. *)
Definition mixed : State := Eval vm_compute in
  stateOf (proxyHandler spawnRequest None (fresh "b2") 8%Z rebuilt).

(** Both streams of [b1] have ended without a terminal status. *)
Definition streamsOver : State := Eval vm_compute in
  let closed :=
    set_frames (alter (fun fr => set_logsStream (fireClosed (logsStream fr))
                                   (set_statusStream (fireClosed (statusStream fr)) fr))
                      0 (frames oneBackend)) oneBackend in
  stateOf (streamStatusAndLogs_ended 0 "b1" 0 closed).

(** A request is accepted while [b1] runs [img1]: [spawnBackend] has
    read the image [img1] and awaits the remote spawn. *)
Definition awaiting : State := Eval vm_compute in
  stateOf (proxyHandler_spawn None
    (stateOf (proxyHandler_route spawnRequest oneBackend))).

(** While that call is awaited, a rebuild replaces [img1] by [img2]. *)
Definition raced : State := Eval vm_compute in
  stateOf (rebuild_resume "img2" None None
    (stateOf (buildSessionBackend_build (inr "img2") awaiting))).

(** Still before the answer, another request has spawned [b2] from
    [img2]. *)
Definition racedTwice : State := Eval vm_compute in
  stateOf (proxyHandler spawnRequest None (fresh "b2") 8%Z raced).
End Demo.

(** ** Further observations and the rest of the program *)

(** The record [spawnBackend] makes for a new backend, once its streams
    are attached. *)
Definition spawnedRecord (img : string) (body : SpawnRequestBody) (result : SpawnResult)
    (now : Z) (s : State) : Backend :=
  {| spawnResult := result; imageId := img; spawnTime := now; lastStatus := None;
     lock := body_lock body; isStreaming := true;
     color := nth (totalBackendsSpawned s mod length BACKEND_LOG_COLORS) BACKEND_LOG_COLORS cyan;
     closeStreams := Some (length (frames s)) |}.

(** The fields of a record that say which backend it is. *)
Definition sameIdentity (b b' : Backend) : Prop :=
  spawnResult b' = spawnResult b /\ imageId b' = imageId b
  /\ spawnTime b' = spawnTime b /\ lock b' = lock b /\ color b' = color b.

(** Every record of [s] is a record of [s'], the same backend still. *)
Definition recordsKept (s s' : State) : Prop :=
  forall r b, heap s !! r = Some b ->
    exists b', heap s' !! r = Some b' /\ sameIdentity b b'.

Definition keepsRecords {A} (m : M A) : Prop :=
  forall s, recordsKept s (stateOf (m s)).

(** Any number of segments, one after the other. *)
Inductive runs : State -> State -> Prop :=
| runs_refl s : runs s s
| runs_step s s' s'' : runs s s' -> step s' s'' -> runs s s''.

(** The status a record shows after a run of stream events. *)
Definition lastDelivered (evs : list StreamEvent) (before : option string) : option string :=
  fold_left (fun acc ev => match ev with
                           | StatusUpdate st => Some st
                           | LogLine _ => acc
                           end) evs before.

(** The images the remote [push] was called with, in order. *)
Fixpoint pushCalls (es : list Effect) : list string :=
  match es with
  | [] => []
  | EPush _ img :: es' => img :: pushCalls es'
  | _ :: es' => pushCalls es'
  end.

Definition namesOf (bs : list Backend) : list string :=
  map (fun b => name (spawnResult b)) bs.

(** What [terminateAllDevbackends] adds to the trace. *)
Definition terminateAllEffects (names : list string) : list Effect :=
  if Nat.ltb 0 (length names) then
    [ELog (Plain EmptyString); ELog (Plain "Terminating development backends..."); EFooter]
    ++ map ETerminate names
    ++ map ELog (terminatingNotice names) ++ [EFooter]
  else
    [ELog (Plain EmptyString); ELog (Plain "No development backends to terminate"); EFooter].

(** The answers of the proxy, in order. *)
Fixpoint responses (es : list Effect) : list (nat * Payload) :=
  match es with
  | [] => []
  | ERespond code payload :: es' => (code, payload) :: responses es'
  | _ :: es' => responses es'
  end.

Fixpoint slashFree (x : string) : bool :=
  match x with
  | EmptyString => true
  | String c x' => negb (Ascii.eqb c "/") && slashFree x'
  end.

(** The URL of the spawn route for an account and a service. *)
Definition routeFor (acc svc : string) : string :=
  "/user/" +:+ acc +:+ "/service/" +:+ svc +:+ "/spawn".

(** The body the handler passes on: the parsed one, or [{}] for an empty
    request body. *)
Definition bodyOr (parsed : option SpawnRequestBody) : SpawnRequestBody :=
  match parsed with Some b => b | None => emptyBody end.

(** The state once [spawnBackend] has called the remote [spawn]. *)
Definition called (body : SpawnRequestBody) (s : State) : State :=
  set_trace (trace s ++ [ESpawn (service (opts s)) body]) s.

(** ** Reading the body of a request (lines 384-397) *)

(** The request is given no encoding, so a chunk of its body is a
    [Buffer]. *)
Abbreviation Buffer := (list Byte.byte).

(** What the request emits while its body arrives. *)
Inductive BodyEvent :=
| BodyData (chunk : Buffer)
| BodyEnd
| BodyError (err : Error).

(** The variable [body] of [readBody] and the state of its promise: a
    promise is settled once, later calls of [resolve] and [reject] do
    nothing. *)
Record Reading := {
  bodySoFar : string;
  settled : option (Error + string);
}.

Definition settle (outcome : Error + string) (rd : Reading) : Reading :=
  match settled rd with
  | Some _ => rd
  | None => {| bodySoFar := bodySoFar rd; settled := Some outcome |}
  end.

Section ReadBody.

(** [body += chunk] appends the text of the chunk, [chunk.toString()]:
    the bytes of that chunk alone, decoded by Node as UTF-8.  The
    decoder is not part of the program and is taken as given. *)
Variable toString : Buffer -> string.

Definition onBodyEvent (rd : Reading) (ev : BodyEvent) : Reading :=
  match ev with
  | BodyData chunk => {| bodySoFar := bodySoFar rd +:+ toString chunk; settled := settled rd |}
  | BodyEnd => settle (inr (bodySoFar rd)) rd
  | BodyError err => settle (inl err) rd
  end.

(** What the promise of [readBody] holds after the events: nothing yet,
    the text, or the error. *)
Definition readBody (events : list BodyEvent) : option (Error + string) :=
  settled (fold_left onBodyEvent events {| bodySoFar := EmptyString; settled := None |}).

End ReadBody.

(** ** The keyboard and the file watcher (lines 80-99) *)

Definition CTRL_C : string := String (ascii_of_nat 3) EmptyString.

(** [try { ... } catch { resolve() }]: whether [resolve] was called is
    the answer. *)
Definition orResolve (m : M bool) : M bool :=
  fun s => match m s with
           | Val resolved s' => Val resolved s'
           | Exn _ s' => Val true s'
           end.

(** The listener of the keyboard, when nothing else runs while the
    rebuild or the terminations are awaited.  The answer says whether the
    exit has been asked for. *)
Definition onKey (key : string) (built : Error + string)
    (pushRejected rejected : option Error) : M bool :=
  orResolve
    (let resolved := String.eqb key CTRL_C in
     (if String.eqb key "b" then rebuild built pushRejected rejected else ret tt) ;;;
     (if String.eqb key "t" then terminateAllDevbackends rejected else ret tt) ;;;
     ret resolved).

(** The listener of the file watcher. *)
Definition onFileChange (built : Error + string) (pushRejected rejected : option Error) : M bool :=
  orResolve (rebuild built pushRejected rejected ;;; ret false).

(** ** The footer on the screen (lines 162-235)

    The text the program prints is text styled by chalk.  It is kept as
    runs of characters under their styles.  [stringLength] is the
    function of the string-length package: the program is given it, and
    what the properties need of it is assumed where they are stated. *)

Inductive Tag := Bold | Italic | Underline.

Record Span := {
  tags : list Tag;
  chars : string;
}.

Abbreviation Styled := (list Span).

Definition plain (x : string) : Styled := [{| tags := []; chars := x |}].

Definition chalk (t : Tag) (x : Styled) : Styled :=
  map (fun sp => {| tags := t :: tags sp; chars := chars sp |}) x.

(** The characters of a text in UTF-8: the bytes that do not continue a
    character. *)
Fixpoint codePoints (x : string) : nat :=
  match x with
  | EmptyString => 0
  | String c x' =>
      (if (Nat.leb 128 (nat_of_ascii c) && Nat.ltb (nat_of_ascii c) 192)%bool then 0 else 1)
      + codePoints x'
  end.

(** A length that counts the characters of a text and leaves its styles
    out. *)
Definition characters (x : Styled) : nat :=
  fold_right (fun sp n => codePoints (chars sp) + n) 0 x.

Fixpoint copies (unit : string) (n : nat) : string :=
  match n with
  | O => EmptyString
  | S n' => unit +:+ copies unit n'
  end.

(** [unit.repeat(count)]: a negative count is a [RangeError]. *)
Definition repeatString (unit : string) (count : Z) : Error + Styled :=
  if (count <? 0)%Z then inl (MkError "RangeError: Invalid count value")
  else inr (plain (copies unit (Z.to_nat count))).

Definition utf8 (a b c : nat) : string :=
  String (ascii_of_nat a) (String (ascii_of_nat b) (String (ascii_of_nat c) EmptyString)).

Definition doubleBar : string := utf8 226 128 150.
Definition cornerTopLeft : string := utf8 226 149 148.
Definition cornerTopRight : string := utf8 226 149 151.
Definition cornerBottomLeft : string := utf8 226 149 154.
Definition cornerBottomRight : string := utf8 226 149 157.

Definition instructions : Styled :=
  chalk Bold (chalk Italic
    (plain " " ++ chalk Underline (plain "[b]") ++ plain " Build "
     ++ chalk Underline (plain "[t]") ++ plain " Terminate backends "
     ++ chalk Underline (plain "[ctrl-c]") ++ plain " Stop")).

(** The lines of the footer before the box is drawn (lines 163-196);
    [size] is the size of the registry and [printed] the lines the table
    of the backends was printed in. *)
Definition footerLines (size : nat) (printed : list Styled) : list Styled :=
  [plain EmptyString]
  ++ (if Nat.ltb 0 size then printed else [chalk Bold (plain " No running backends")])
  ++ [plain EmptyString; instructions; plain EmptyString].

(** What reaches the terminal. *)
Inductive Output :=
| StdoutWrite (text : string)
| ConsoleLog (line : Styled).

Record Screen := {
  curFooterLength : nat;
  written : list Output;
}.

Definition cursorUp : string :=
  String (ascii_of_nat 13) (String (ascii_of_nat 27) "[1A").
Definition eraseLine : string := String (ascii_of_nat 27) "[2K".

Fixpoint erasures (n : nat) : list Output :=
  match n with
  | O => []
  | S n' => StdoutWrite cursorUp :: StdoutWrite eraseLine :: erasures n'
  end.

(** [clearFooter] (lines 215-221), with the counter and the terminal. *)
Definition clearFooterOn (sc : Screen) : Screen :=
  {| curFooterLength := 0; written := written sc ++ erasures (curFooterLength sc) |}.

Definition padding : nat := 2.

Fixpoint mapThrowing {A B} (f : A -> Error + B) (l : list A) : Error + list B :=
  match l with
  | [] => inr []
  | x :: l' =>
      match f x with
      | inl e => inl e
      | inr y => match mapThrowing f l' with
                 | inl e => inl e
                 | inr ys => inr (y :: ys)
                 end
      end
  end.

Definition rule (left right : string) (width : nat) : Error + Styled :=
  match repeatString "=" (Z.of_nat width - 2) with
  | inl e => inl e
  | inr line => inr (chalk Bold (plain left ++ line ++ plain right))
  end.

Section Footer.
Variable stringLength : Styled -> nat.

Definition boxWidth (lines : list Styled) : nat :=
  fold_left (fun widest line => Nat.max widest (stringLength line)) lines 0
  + padding * 2 + 2.

Definition boxed (width : nat) (line : Styled) : Error + Styled :=
  match repeatString " " (Z.of_nat padding) with
  | inl e => inl e
  | inr pad =>
      let line' := plain doubleBar ++ pad ++ line in
      let endPadding := (Z.of_nat width - Z.of_nat (stringLength line') - 1)%Z in
      match repeatString " " endPadding with
      | inl e => inl e
      | inr fill => inr (line' ++ fill ++ plain doubleBar)
      end
  end.

(** [getFooter] (lines 162-213). *)
Definition getFooter (size : nat) (printed : list Styled) : Error + list Styled :=
  let footer := footerLines size printed in
  let width := boxWidth footer in
  match mapThrowing (boxed width) footer with
  | inl e => inl e
  | inr footer' =>
      match rule cornerTopLeft cornerTopRight width with
      | inl e => inl e
      | inr top =>
          match rule cornerBottomLeft cornerBottomRight width with
          | inl e => inl e
          | inr bottom => inr (top :: footer' ++ [bottom])
          end
      end
  end.

(** [updateFooterAndLog] (lines 223-235), with the counter and the
    terminal. *)
Definition updateFooterAndLogOn (logLines : list Styled) (size : nat) (printed : list Styled)
    (sc : Screen) : Error * Screen + Screen :=
  let sc1 := clearFooterOn sc in
  let sc2 := {| curFooterLength := curFooterLength sc1;
                written := written sc1 ++ map ConsoleLog logLines |} in
  match getFooter size printed with
  | inl e => inl (e, sc2)
  | inr footer =>
      inr {| curFooterLength := length footer;
             written := written sc2 ++ map ConsoleLog footer |}
  end.

End Footer.

(** ** The login command (src/commands/login.ts) *)

Module Login.

(** The stored configuration [{account, token}]. *)
Record Config := {
  account : string;
  token : string;
}.

(** What [api.checkAuth(token)] comes to: the account, an
    [AuthenticationError], or another error. *)
Inductive CheckAuth :=
| Authenticated (acc : string)
| AuthenticationError (e : Error)
| OtherError (e : Error).

(** What the run is given from outside: the parts of the environment
    that only shape messages, the built-in [trim], the answers of the
    API for the stored and for the new token, the argument of the
    command and what the user types at the prompt. *)
Record Inputs := {
  trim : string -> string;
  getTokenPublicPortion : string -> string;
  loginUrl : string;
  storedCheck : CheckAuth;
  newCheck : CheckAuth;
  argToken : option string;
  typed : string;
}.

Record World := {
  config : option Config;
  output : list string;
  prompts : nat;
}.

Inductive Outcome :=
| Returned
| Threw (e : Error).

Definition say (line : string) (w : World) : World :=
  {| config := config w; output := output w ++ [line]; prompts := prompts w |}.

Definition store (c : option Config) (w : World) : World :=
  {| config := c; output := output w; prompts := prompts w |}.

Fixpoint includesPeriod (x : string) : bool :=
  match x with
  | EmptyString => false
  | String c x' => Ascii.eqb c "." || includesPeriod x'
  end.

(** Lines 37-41: the prompt. *)
Definition prompt (i : Inputs) (w : World) : string * World :=
  let w1 := say ("Generate an API token at the following URL and paste it into the prompt below:"
                 ++ String (ascii_of_nat 10) EmptyString) w in
  let w2 := say ("    " ++ loginUrl i ++ String (ascii_of_nat 10) EmptyString) w1 in
  (trim i (typed i),
   {| config := config w2; output := output w2; prompts := S (prompts w2) |}).

(** Lines 34-54: the login proper. *)
Definition logIn (i : Inputs) (w : World) : Outcome * World :=
  let (tok, w1) :=
    match argToken i with
    | Some a => if isEmpty (trim i a) then prompt i w else (trim i a, w)
    | None => prompt i w
    end in
  if isEmpty tok then (Threw (MkError "Token required to login."), w1)
  else if negb (includesPeriod tok) then
    (Threw (MkError "Invalid token. Token must contain a period."), w1)
  else
    match newCheck i with
    | Authenticated acc =>
        (Returned,
         say ("Logged in as " ++ dquote ++ acc ++ dquote)
             (store (Some {| account := acc; token := tok |}) w1))
    | AuthenticationError e => (Threw e, w1)
    | OtherError e => (Threw e, w1)
    end.

(** [Login.run] (lines 17-55); the arguments are taken to parse. *)
Definition run (i : Inputs) (w : World) : Outcome * World :=
  match config w with
  | Some c =>
      match storedCheck i with
      | Authenticated _ =>
          (Returned,
           say ("You are already logged into account " ++ dquote ++ account c ++ dquote
                ++ " with the token " ++ dquote ++ getTokenPublicPortion i (token c)
                ++ ".********" ++ dquote
                ++ ". To log into a different account, run jamsocket logout first.") w)
      | AuthenticationError _ => logIn i (store None w)
      | OtherError e => (Threw e, w)
      end
  | None => logIn i w
  end.

(** A stored token that has expired and a new one the API accepts. *)
Definition demoInputs : Inputs :=
  {| trim := fun x => x;
     getTokenPublicPortion := fun x => x;
     loginUrl := "https://app.jamsocket.com/cli-login";
     storedCheck := AuthenticationError (MkError "expired");
     newCheck := Authenticated "acct";
     argToken := Some "abc.def";
     typed := EmptyString |}.

Definition demoWorld : World :=
  {| config := Some {| account := "old"; token := "old.token" |};
     output := []; prompts := 0 |}.

(** A stored token the API accepts. *)
Definition demoAccepted : Inputs :=
  {| trim := fun x => x;
     getTokenPublicPortion := fun x => x;
     loginUrl := "https://app.jamsocket.com/cli-login";
     storedCheck := Authenticated "old";
     newCheck := Authenticated "acct";
     argToken := Some "abc.def";
     typed := EmptyString |}.

(** A check of the stored token that fails for another reason. *)
Definition demoUnreachable : Inputs :=
  {| trim := fun x => x;
     getTokenPublicPortion := fun x => x;
     loginUrl := "https://app.jamsocket.com/cli-login";
     storedCheck := OtherError (MkError "network");
     newCheck := Authenticated "acct";
     argToken := Some "abc.def";
     typed := EmptyString |}.

(** A stored token that has expired and a new one without a period. *)
Definition demoInvalid : Inputs :=
  {| trim := fun x => x;
     getTokenPublicPortion := fun x => x;
     loginUrl := "https://app.jamsocket.com/cli-login";
     storedCheck := AuthenticationError (MkError "expired");
     newCheck := Authenticated "acct";
     argToken := Some "abcdef";
     typed := EmptyString |}.

End Login.

(** * Properties *)

(** ** The [Map] operations *)

Section JsMapFacts.
Context {V : Type}.
Implicit Types (m : list (string * V)) (k : string) (v : V).

Lemma has_get k m : JsMap.has k m = true <-> exists v, JsMap.get k m = Some v.
Proof.
  unfold JsMap.has. destruct (JsMap.get k m); split; eauto; try discriminate.
  intros [v' Hv]. discriminate.
Qed.

Lemma has_false_get k m : JsMap.has k m = false <-> JsMap.get k m = None.
Proof. unfold JsMap.has. destruct (JsMap.get k m); split; congruence. Qed.

Lemma get_delete_eq k m : JsMap.get k (JsMap.delete k m) = None.
Proof.
  induction m as [|[k' v'] m IH]; simpl; [reflexivity|].
  destruct (String.eqb k k') eqn:E; simpl; [assumption|].
  rewrite E. assumption.
Qed.

Lemma get_delete_ne k k' m : k <> k' -> JsMap.get k' (JsMap.delete k m) = JsMap.get k' m.
Proof.
  intros Hne. induction m as [|[k0 v0] m IH]; simpl; [reflexivity|].
  destruct (String.eqb k k0) eqn:E.
  - apply String.eqb_eq in E. subst k0.
    destruct (String.eqb k' k) eqn:E'; [|assumption].
    apply String.eqb_eq in E'. congruence.
  - simpl. rewrite IH. reflexivity.
Qed.

Lemma get_set_eq k v m : JsMap.get k (JsMap.set k v m) = Some v.
Proof.
  induction m as [|[k' v'] m IH]; simpl.
  - rewrite String.eqb_refl. reflexivity.
  - destruct (String.eqb k k') eqn:E; simpl.
    + rewrite String.eqb_refl. reflexivity.
    + rewrite E. assumption.
Qed.

Lemma get_set_ne k k' v m : k <> k' -> JsMap.get k' (JsMap.set k v m) = JsMap.get k' m.
Proof.
  intros Hne. induction m as [|[k0 v0] m IH]; simpl.
  - destruct (String.eqb k' k) eqn:E; [|reflexivity].
    apply String.eqb_eq in E. congruence.
  - destruct (String.eqb k k0) eqn:E; simpl.
    + apply String.eqb_eq in E. subst k0.
      destruct (String.eqb k' k) eqn:E'; [|reflexivity].
      apply String.eqb_eq in E'. congruence.
    + rewrite IH. reflexivity.
Qed.

Lemma set_absent k v m : JsMap.get k m = None -> JsMap.set k v m = m ++ [(k, v)].
Proof.
  induction m as [|[k' v'] m IH]; simpl; [reflexivity|].
  destruct (String.eqb k k'); [discriminate|].
  intros H. rewrite IH by assumption. reflexivity.
Qed.

Lemma get_In k v m : JsMap.get k m = Some v -> In (k, v) m.
Proof.
  induction m as [|[k' v'] m IH]; simpl; [discriminate|].
  destruct (String.eqb k k') eqn:E.
  - apply String.eqb_eq in E. intros [= ->]. left. congruence.
  - intros H. right. auto.
Qed.

Lemma get_None_keys k m : JsMap.get k m = None <-> ~ In k (JsMap.keys m).
Proof.
  induction m as [|[k' v'] m IH]; simpl.
  - tauto.
  - destruct (String.eqb k k') eqn:E.
    + apply String.eqb_eq in E. subst. split; [discriminate|]. intros H. exfalso. auto.
    + apply String.eqb_neq in E. rewrite IH. split.
      * intros H [H'|H']; [congruence|contradiction].
      * intros H H'. apply H. right. assumption.
Qed.

Lemma In_get k v m : List.NoDup (JsMap.keys m) -> In (k, v) m -> JsMap.get k m = Some v.
Proof.
  induction m as [|[k' v'] m IH]; simpl; [contradiction|].
  intros Hnd [H|H].
  - injection H as -> ->. rewrite String.eqb_refl. reflexivity.
  - apply List.NoDup_cons_iff in Hnd as [Hnotin Hnd].
    destruct (String.eqb k k') eqn:E.
    + apply String.eqb_eq in E. subst k'. exfalso. apply Hnotin.
      change k with (fst (k, v)). apply in_map. assumption.
    + auto.
Qed.

Lemma In_delete k k' v m : In (k', v) (JsMap.delete k m) <-> In (k', v) m /\ k <> k'.
Proof.
  induction m as [|[k0 v0] m IH]; simpl; [tauto|].
  destruct (String.eqb k k0) eqn:E.
  - apply String.eqb_eq in E. subst k0. rewrite IH. split.
    + intros [H1 H2]. auto.
    + intros [[H|H] H2]; [congruence|auto].
  - apply String.eqb_neq in E. simpl. rewrite IH. split.
    + intros [H|[H1 H2]]; [|auto]. injection H as <- <-. auto.
    + intros [[H|H] H2]; auto.
Qed.

Lemma keys_delete_incl k m : incl (JsMap.keys (JsMap.delete k m)) (JsMap.keys m).
Proof.
  induction m as [|[k0 v0] m IH]; simpl; [apply incl_refl|].
  destruct (String.eqb k k0); simpl.
  - apply incl_tl. assumption.
  - apply incl_cons; [left; reflexivity|]. apply incl_tl. assumption.
Qed.

Lemma NoDup_delete k m : List.NoDup (JsMap.keys m) -> List.NoDup (JsMap.keys (JsMap.delete k m)).
Proof.
  induction m as [|[k0 v0] m IH]; simpl; [auto|].
  intros Hnd. apply List.NoDup_cons_iff in Hnd as [Hnotin Hnd].
  destruct (String.eqb k k0); simpl; [auto|].
  apply List.NoDup_cons_iff. split; [|auto].
  intros H. apply Hnotin. apply (keys_delete_incl k m). assumption.
Qed.

Lemma length_delete k m : length (JsMap.delete k m) <= length m.
Proof.
  induction m as [|[k0 v0] m IH]; simpl; [lia|].
  destruct (String.eqb k k0); simpl; lia.
Qed.

Lemma NoDup_set_absent k v m :
  JsMap.get k m = None -> List.NoDup (JsMap.keys m) -> List.NoDup (JsMap.keys (JsMap.set k v m)).
Proof.
  intros Hnone Hnd. rewrite set_absent by assumption.
  unfold JsMap.keys. rewrite map_app. simpl.
  apply List.NoDup_app.
  - assumption.
  - apply List.NoDup_cons; [intros []|apply List.NoDup_nil].
  - intros x Hx [Hk|[]]. subst x.
    apply get_None_keys in Hnone. contradiction.
Qed.
End JsMapFacts.

(** ** Running the segments *)

Arguments updateFooterAndLog : simpl never.
Arguments invokeCloser : simpl never.
Arguments streamStatusAndLogs : simpl never.
Arguments terminateBackends : simpl never.
Arguments spawnBackend_tail : simpl never.
Arguments isLive : simpl never.
Arguments routeMatch : simpl never.

Ltac run :=
  cbv beta iota delta
    [bind ret gets modify throw emit detached forEach updateFooterAndLog
     clearFooter alloc deref assign openStreams invokeCloser];
  cbn.

Ltac flat :=
  cbv beta iota delta
    [set_trace set_heap set_frames set_devBackends set_totalBackendsSpawned
     set_currentImageId];
  cbn.

Lemma streamStatusAndLogs_attaches n r b s :
  JsMap.get n (devBackends s) = Some r ->
  heap s !! r = Some b ->
  streamStatusAndLogs n s = Val (length (frames s)) (attached n r b s).
Proof.
  intros Hget Hb. unfold streamStatusAndLogs. run. rewrite Hget. run.
  rewrite Hb. run.
  assert (Hlt : r < length (heap s)) by (eapply lookup_lt_Some; eassumption).
  rewrite list_lookup_insert_eq by assumption. run.
  unfold attached, attachedBackend, attachedFrame. flat.
  rewrite list_insert_insert_eq. rewrite <- !app_assoc. reflexivity.
Qed.

Lemma forEach_emit {A} (f : A -> Effect) l s :
  forEach l (fun x => emit (f x)) s = Val tt (set_trace (trace s ++ map f l) s).
Proof.
  revert s. induction l as [|x l IH]; intros s.
  - run. flat. rewrite app_nil_r. destruct s; reflexivity.
  - cbn [forEach]. unfold bind at 1. unfold emit at 1, modify. rewrite IH.
    flat. rewrite <- app_assoc. reflexivity.
Qed.

Lemma updateFooterAndLog_logged ls s :
  updateFooterAndLog ls s = Val tt (logged ls s).
Proof.
  unfold updateFooterAndLog, clearFooter. unfold bind at 1. unfold ret at 1.
  unfold bind. rewrite forEach_emit. unfold emit, modify, logged. flat.
  rewrite <- app_assoc. reflexivity.
Qed.

Lemma tail_streaming result r b s :
  JsMap.get (name result) (devBackends s) = Some r ->
  heap s !! r = Some b ->
  isStreaming b = true ->
  spawnBackend_tail result s = Val (inl result) (redrawnIf (spawned result) s).
Proof.
  intros Hget Hb Hstr. unfold spawnBackend_tail, bind, gets, deref. rewrite Hget, Hb, Hstr.
  cbn. unfold redrawnIf. destruct (spawned result).
  - rewrite updateFooterAndLog_logged. reflexivity.
  - reflexivity.
Qed.

Lemma tail_attaches result r b s :
  JsMap.get (name result) (devBackends s) = Some r ->
  heap s !! r = Some b ->
  isStreaming b = false ->
  spawnBackend_tail result s =
    Val (inl result)
      (redrawnIf (spawned result)
         (attached (name result) r b (logged (streamingNotice (name result)) s))).
Proof.
  intros Hget Hb Hstr. unfold spawnBackend_tail, bind, gets, deref. rewrite Hget, Hb, Hstr.
  cbn [negb]. rewrite updateFooterAndLog_logged. unfold detached.
  rewrite (streamStatusAndLogs_attaches _ r b) by assumption.
  unfold redrawnIf. destruct (spawned result).
  - rewrite updateFooterAndLog_logged. reflexivity.
  - reflexivity.
Qed.

(** ** Spawning: the consistency protocol *)

Lemma resume_known_spawned img body result now s :
  JsMap.has (name result) (devBackends s) = true ->
  spawned result = true ->
  spawnBackend_resume img body result now s = Exn (errAlreadyExists (name result)) s.
Proof.
  intros Hhas Hsp. unfold spawnBackend_resume, bind, gets, throw. rewrite Hhas, Hsp.
  reflexivity.
Qed.

Lemma resume_untracked img body result now s :
  JsMap.has (name result) (devBackends s) = false ->
  spawned result = false ->
  spawnBackend_resume img body result now s =
    Val (inr errForeign) (logged [Red ("Warning: " ++ foreignText)] s).
Proof.
  intros Hhas Hsp. unfold spawnBackend_resume, bind, gets. rewrite Hhas, Hsp.
  rewrite updateFooterAndLog_logged. reflexivity.
Qed.

Lemma resume_stale img body result now s r b :
  JsMap.get (name result) (devBackends s) = Some r ->
  heap s !! r = Some b ->
  imageId b <> img ->
  spawned result = false ->
  spawnBackend_resume img body result now s =
    Val (inr errOutdated) (logged [Red ("Warning: " ++ outdatedText)] s).
Proof.
  intros Hget Hb Hne Hsp. unfold spawnBackend_resume, bind, gets, deref.
  assert (Hhas : JsMap.has (name result) (devBackends s) = true)
    by (apply has_get; eauto).
  rewrite Hhas, Hsp, Hget, Hb.
  apply String.eqb_neq in Hne. rewrite Hne. cbn [negb].
  rewrite updateFooterAndLog_logged. reflexivity.
Qed.

Lemma resume_reused img body result now s r b :
  JsMap.get (name result) (devBackends s) = Some r ->
  heap s !! r = Some b ->
  imageId b = img ->
  spawned result = false ->
  spawnBackend_resume img body result now s = spawnBackend_tail result s.
Proof.
  intros Hget Hb Heq Hsp. unfold spawnBackend_resume, bind, gets, deref.
  assert (Hhas : JsMap.has (name result) (devBackends s) = true)
    by (apply has_get; eauto).
  rewrite Hhas, Hsp, Hget, Hb.
  apply String.eqb_eq in Heq. rewrite Heq. reflexivity.
Qed.

(** A successful answer of [spawnBackend] is the remote result itself. *)
Lemma tail_success result res s s' :
  spawnBackend_tail result s = Val (inl res) s' -> res = result.
Proof.
  unfold spawnBackend_tail, bind, gets, deref, throw.
  destruct (JsMap.get (name result) (devBackends s)) as [r|]; [|discriminate].
  destruct (heap s !! r) as [b|]; [|discriminate].
  destruct (negb (isStreaming b)).
  - rewrite updateFooterAndLog_logged. unfold detached.
    destruct (streamStatusAndLogs _ _);
      (destruct (spawned result);
       [rewrite updateFooterAndLog_logged|]; unfold ret; congruence).
  - unfold ret at 1.
    destruct (spawned result);
      [rewrite updateFooterAndLog_logged|]; unfold ret; congruence.
Qed.

Lemma resume_success_consistent img body result now s res s' :
  spawnBackend_resume img body result now s = Val (inl res) s' ->
  (spawned result = true <-> JsMap.has (name result) (devBackends s) = false).
Proof.
  unfold spawnBackend_resume, bind, gets, throw.
  destruct (JsMap.has (name result) (devBackends s)) eqn:Hhas;
    destruct (spawned result) eqn:Hsp; try discriminate.
  - intros _. split; discriminate.
  - intros _. split; reflexivity.
Qed.

(** C1, as stated, fails: in the started session the remote answers a
    spawn with the name [b9], which the registry does not know, and
    [spawned = false].  That is one of the combinations the claim has
    throw; [spawnBackend] returns, with an [Error] value. *)
Lemma spawn_untracked_not_thrown :
  JsMap.has (name (Demo.reused "b9")) (devBackends Demo.started) = false
  /\ spawned (Demo.reused "b9") = false
  /\ spawnBackend_resume "img1" emptyBody (Demo.reused "b9") 7%Z Demo.started
     = Val (inr errForeign) (logged [Red ("Warning: " ++ foreignText)] Demo.started).
Proof. repeat split. Qed.

(** C1, amended: a success of [spawnBackend] has [spawned = true] exactly
    when the returned name was absent from the registry at the time of the
    answer; a known name with [spawned = true] throws the inconsistency
    error and leaves the session as it was; an unknown name with
    [spawned = false] is returned as an [Error] value. *)
Theorem spawn_consistency img body result now s :
  (forall res s', spawnBackend_resume img body result now s = Val (inl res) s' ->
     (spawned result = true <-> JsMap.has (name result) (devBackends s) = false))
  /\ (JsMap.has (name result) (devBackends s) = true -> spawned result = true ->
        spawnBackend_resume img body result now s = Exn (errAlreadyExists (name result)) s)
  /\ (JsMap.has (name result) (devBackends s) = false -> spawned result = false ->
        exists s', spawnBackend_resume img body result now s = Val (inr errForeign) s').
Proof.
  split; [|split].
  - intros res s'. apply resume_success_consistent.
  - apply resume_known_spawned.
  - intros Hhas Hsp. eexists. apply resume_untracked; assumption.
Qed.

(** C2: a name without an entry in the registry that comes with
    [spawned = false] is refused: [spawnBackend] returns an [Error] value,
    and neither the registry nor any backend record changes; the name
    still has no entry. *)
Theorem spawn_untracked_refused img body result now s :
  JsMap.has (name result) (devBackends s) = false ->
  spawned result = false ->
  exists s',
    spawnBackend_resume img body result now s = Val (inr errForeign) s'
    /\ devBackends s' = devBackends s
    /\ heap s' = heap s
    /\ JsMap.get (name result) (devBackends s') = None.
Proof.
  intros Hhas Hsp. eexists. split; [apply resume_untracked; assumption|].
  cbn. repeat split. apply has_false_get. assumption.
Qed.

Lemma spawn_untracked_refused_witness :
  exists s',
    spawnBackend_resume "img1" emptyBody (Demo.reused "b9") 7%Z Demo.started
      = Val (inr errForeign) s'
    /\ devBackends s' = devBackends Demo.started
    /\ heap s' = heap Demo.started
    /\ JsMap.get "b9" (devBackends s') = None.
Proof.
  apply (spawn_untracked_refused "img1" emptyBody (Demo.reused "b9") 7%Z Demo.started);
    reflexivity.
Defined.

(** ** Terminating and rebuilding *)

Lemma terminateCalls_app es1 es2 :
  terminateCalls (es1 ++ es2) = terminateCalls es1 ++ terminateCalls es2.
Proof.
  induction es1 as [|e es1 IH]; [reflexivity|].
  destruct e; cbn; rewrite ?IH; reflexivity.
Qed.

Lemma terminateCalls_map names : terminateCalls (map ETerminate names) = names.
Proof. induction names as [|n names IH]; cbn; [|rewrite IH]; reflexivity. Qed.

Lemma terminateBackends_state backends rejected s :
  stateOf (terminateBackends backends rejected s) =
    logged (terminatingNotice backends) (set_trace (trace s ++ map ETerminate backends) s).
Proof.
  unfold terminateBackends, bind. rewrite forEach_emit, updateFooterAndLog_logged.
  destruct rejected; reflexivity.
Qed.

(** C7: [terminateBackends] calls the remote [terminate] once for each
    name it is given, in the order given, and changes nothing of the
    registry: the entries, the records and the streams are those of
    before, whether the calls succeed or not. *)
Theorem terminate_keeps_registry backends rejected s :
  exists es,
    trace (stateOf (terminateBackends backends rejected s)) = trace s ++ es
    /\ terminateCalls es = backends
    /\ devBackends (stateOf (terminateBackends backends rejected s)) = devBackends s
    /\ heap (stateOf (terminateBackends backends rejected s)) = heap s
    /\ frames (stateOf (terminateBackends backends rejected s)) = frames s.
Proof.
  rewrite terminateBackends_state.
  exists (map ETerminate backends ++ map ELog (terminatingNotice backends) ++ [EFooter]).
  cbn. repeat split.
  - rewrite <- app_assoc. reflexivity.
  - rewrite terminateCalls_app, terminateCalls_map. apply app_nil_r.
Qed.

Lemma derefAll_pointTo refs bs s :
  pointTo s refs bs -> derefAll refs s = Val bs s.
Proof.
  unfold pointTo. induction 1 as [|r b refs bs Hr _ IH]; [reflexivity|].
  cbn [derefAll]. unfold bind, deref. rewrite Hr, IH. reflexivity.
Qed.

Lemma backendValues_pointTo bs s :
  pointTo s (JsMap.values (devBackends s)) bs -> backendValues s = Val bs s.
Proof. intros H. unfold backendValues, bind, gets. apply derefAll_pointTo. assumption. Qed.

(** What [rebuild] leaves behind once the push is answered. *)
Lemma rebuild_resume_state img rejected s bs :
  pointTo s (JsMap.values (devBackends s)) bs ->
  stateOf (rebuild_resume img None rejected s) = rebuiltState img bs s.
Proof.
  intros Hbs. unfold rebuild_resume, buildSessionBackend_pushed, bind, gets, modify.
  rewrite updateFooterAndLog_logged. cbn [ret].
  rewrite (backendValues_pointTo bs) by exact Hbs.
  cbn [currentImageId set_currentImageId differsFrom].
  change (map (fun b => name (spawnResult b)) (List.filter (differsFrom (Some img)) bs))
    with (outdated img bs).
  unfold rebuiltState.
  destruct (Nat.ltb 0 (length (outdated img bs))).
  - rewrite updateFooterAndLog_logged, terminateBackends_state. reflexivity.
  - reflexivity.
Qed.

(** C5: once the new image [img] is pushed, [rebuild] makes it the
    current image and calls the remote [terminate] for exactly the
    entries of the registry whose [imageId] is not [img], in registry
    order; the registry and every record in it, outdated or not, stay as
    they were. *)
Theorem rebuild_terminates_outdated img rejected s bs :
  pointTo s (JsMap.values (devBackends s)) bs ->
  exists es,
    trace (stateOf (rebuild_resume img None rejected s)) = trace s ++ es
    /\ terminateCalls es = outdated img bs
    /\ currentImageId (stateOf (rebuild_resume img None rejected s)) = Some img
    /\ devBackends (stateOf (rebuild_resume img None rejected s)) = devBackends s
    /\ heap (stateOf (rebuild_resume img None rejected s)) = heap s.
Proof.
  intros Hbs. rewrite (rebuild_resume_state img rejected s bs Hbs).
  unfold rebuiltState.
  destruct (Nat.ltb 0 (length (outdated img bs))) eqn:Hlen.
  - eexists. cbn. rewrite <- !app_assoc. repeat split.
    rewrite !terminateCalls_app, terminateCalls_map. cbn. apply app_nil_r.
  - eexists. cbn. repeat split.
    apply Nat.ltb_ge in Hlen. destruct (outdated img bs); [reflexivity|cbn in Hlen; lia].
Qed.

Lemma rebuild_terminates_outdated_witness :
  exists es,
    trace (stateOf (rebuild_resume "img2" None None Demo.mixed)) = trace Demo.mixed ++ es
    /\ terminateCalls es = outdated "img2" (heap Demo.mixed)
    /\ currentImageId (stateOf (rebuild_resume "img2" None None Demo.mixed)) = Some "img2"
    /\ devBackends (stateOf (rebuild_resume "img2" None None Demo.mixed)) = devBackends Demo.mixed
    /\ heap (stateOf (rebuild_resume "img2" None None Demo.mixed)) = heap Demo.mixed.
Proof.
  apply (rebuild_terminates_outdated "img2" None Demo.mixed (heap Demo.mixed)).
  repeat constructor.
Defined.

Example outdated_mixed : outdated "img2" (heap Demo.mixed) = ["b1"].
Proof. reflexivity. Qed.

(** The whole of [rebuild], when the build and the push succeed and
    nothing else runs meanwhile. *)
Lemma rebuild_whole img rejected s bs :
  pointTo s (JsMap.values (devBackends s)) bs ->
  terminateCalls (trace (stateOf (rebuild (inr img) None rejected s)))
    = terminateCalls (trace s) ++ outdated img bs
  /\ devBackends (stateOf (rebuild (inr img) None rejected s)) = devBackends s
  /\ heap (stateOf (rebuild (inr img) None rejected s)) = heap s.
Proof.
  intros Hbs.
  assert (Hbuild : exists s1, buildSessionBackend_build (inr img) s = Val img s1
                     /\ terminateCalls (trace s1) = terminateCalls (trace s)
                     /\ devBackends s1 = devBackends s /\ heap s1 = heap s).
  { unfold buildSessionBackend_build, bind, gets, clearFooter.
    rewrite updateFooterAndLog_logged. cbn [ret]. rewrite updateFooterAndLog_logged.
    eexists. split; [reflexivity|]. cbn. repeat split.
    rewrite !terminateCalls_app. cbn. rewrite !app_nil_r. reflexivity. }
  destruct Hbuild as (s1 & Hrun & Hcalls1 & Hreg1 & Hheap1).
  unfold rebuild, bind. rewrite Hrun.
  assert (Hbs1 : pointTo s1 (JsMap.values (devBackends s1)) bs)
    by (unfold pointTo; rewrite Hreg1, Hheap1; exact Hbs).
  rewrite (rebuild_resume_state img rejected s1 bs Hbs1). unfold rebuiltState.
  destruct (Nat.ltb 0 (length (outdated img bs))) eqn:Hlen; cbn.
  - rewrite Hreg1, Hheap1. repeat split.
    rewrite !terminateCalls_app, terminateCalls_map, Hcalls1. cbn.
    rewrite !app_nil_r. reflexivity.
  - rewrite Hreg1, Hheap1. repeat split.
    rewrite !terminateCalls_app, Hcalls1. cbn. rewrite !app_nil_r.
    apply Nat.ltb_ge in Hlen.
    destruct (outdated img bs); [symmetry; apply app_nil_r|cbn in Hlen; lia].
Qed.

(** A failed build or a failed push leaves the current image and makes no
    call to [terminate]. *)
Lemma rebuild_failed_push img e rejected s :
  stateOf (rebuild_resume img (Some e) rejected s) = s.
Proof. reflexivity. Qed.

(** ** The spawn proxy: route guarding *)

Lemma route_not_post req s :
  isPost (method req) = false ->
  proxyHandler_route req s = Val false (answered 404 s).
Proof.
  intros H. unfold proxyHandler_route, bind, gets. rewrite H. reflexivity.
Qed.

Lemma route_no_match req s :
  routeMatch (orEmpty (url req)) = None ->
  proxyHandler_route req s = Val false (answered 404 s).
Proof.
  intros H. unfold proxyHandler_route, bind, gets. rewrite H.
  destruct (negb (isPost (method req))); reflexivity.
Qed.

(** A request on the route for another service or another account is
    answered 401, after a warning, and the handler ends there: no remote
    spawn call is made. *)
Lemma route_mismatch req reqAccount reqService s :
  isPost (method req) = true ->
  routeMatch (orEmpty (url req)) = Some (reqAccount, reqService) ->
  service (opts s) <> reqService \/ account (opts s) <> reqAccount ->
  exists warning,
    proxyHandler_route req s = Val false (answered 401 (logged [warning] s))
    /\ spawnCalls (trace (answered 401 (logged [warning] s))) = spawnCalls (trace s).
Proof.
  intros Hpost Hmatch Hdiff. unfold proxyHandler_route, bind, gets.
  rewrite Hpost, Hmatch. cbn [negb].
  assert (Hcalls : forall w,
            spawnCalls (trace (answered 401 (logged [w] s))) = spawnCalls (trace s)).
  { intros w. cbn. unfold spawnCalls. rewrite !List.filter_app. cbn.
    rewrite !app_nil_r. reflexivity. }
  destruct (String.eqb (service (opts s)) reqService) eqn:Hsvc; cbn [negb].
  - destruct (String.eqb (account (opts s)) reqAccount) eqn:Hacc; cbn [negb].
    + apply String.eqb_eq in Hsvc, Hacc. destruct Hdiff; contradiction.
    + rewrite updateFooterAndLog_logged. eexists. split; [reflexivity|apply Hcalls].
  - rewrite updateFooterAndLog_logged. eexists. split; [reflexivity|apply Hcalls].
Qed.

(** A request the handler lets through matched the pattern as a POST for
    the session's own account and service. *)
Lemma route_accepted req s s' :
  proxyHandler_route req s = Val true s' ->
  isPost (method req) = true
  /\ routeMatch (orEmpty (url req)) = Some (account (opts s), service (opts s))
  /\ s' = s.
Proof.
  unfold proxyHandler_route, bind, gets.
  destruct (isPost (method req)); cbn [negb]; [|discriminate].
  destruct (routeMatch (orEmpty (url req))) as [[a sv]|]; [|discriminate].
  destruct (String.eqb (service (opts s)) sv) eqn:Hsvc; cbn [negb].
  - destruct (String.eqb (account (opts s)) a) eqn:Hacc; cbn [negb].
    + apply String.eqb_eq in Hsvc, Hacc. subst. unfold ret. intros [= <-]. auto.
    + rewrite updateFooterAndLog_logged. discriminate.
  - rewrite updateFooterAndLog_logged. discriminate.
Qed.

Lemma stripPrefix_app p u r tail :
  stripPrefix p u = Some r -> stripPrefix p (u +:+ tail) = Some (r +:+ tail).
Proof.
  revert u. induction p as [|c p IH]; intros u; cbn.
  - intros [= ->]. reflexivity.
  - destruct u as [|d u]; [discriminate|].
    change (String d u +:+ tail) with (String d (u +:+ tail)). cbn [stripPrefix].
    destruct (Ascii.eqb c d); [apply IH|discriminate].
Qed.

Lemma segment_app u seg rest tail :
  segment u = (seg, rest) -> rest <> EmptyString ->
  segment (u +:+ tail) = (seg, rest +:+ tail).
Proof.
  revert seg rest. induction u as [|c u IH]; intros seg rest.
  - intros [= <- <-] H. contradiction.
  - change (String c u +:+ tail) with (String c (u +:+ tail)). cbn [segment].
    destruct (Ascii.eqb c "/").
    + intros [= <- <-] _. reflexivity.
    + destruct (segment u) as [seg' rest'] eqn:Hseg. intros [= <- <-] Hne.
      rewrite (IH seg' rest' eq_refl Hne). reflexivity.
Qed.

(** The pattern of line 273 accepts any text that begins with a text it
    accepts, with the same groups. *)
Lemma routeMatch_extends u tail a sv :
  routeMatch u = Some (a, sv) -> routeMatch (u +:+ tail) = Some (a, sv).
Proof.
  unfold routeMatch.
  destruct (stripPrefix "/user/" u) as [r1|] eqn:H1; [|discriminate].
  rewrite (stripPrefix_app _ _ _ tail H1).
  destruct (segment r1) as [acc r2] eqn:H2.
  destruct (isEmpty acc) eqn:Hacc; [discriminate|].
  destruct (stripPrefix "/service/" r2) as [r3|] eqn:H3; [|discriminate].
  assert (Hr2 : r2 <> EmptyString) by (intros ->; discriminate).
  rewrite (segment_app _ _ _ tail H2 Hr2), Hacc, (stripPrefix_app _ _ _ tail H3).
  destruct (segment r3) as [svc r4] eqn:H4.
  destruct (isEmpty svc) eqn:Hsvc; [discriminate|].
  destruct (stripPrefix "/spawn" r4) as [r5|] eqn:H5; [|discriminate].
  assert (Hr4 : r4 <> EmptyString) by (intros ->; discriminate).
  rewrite (segment_app _ _ _ tail H4 Hr4), Hsvc, (stripPrefix_app _ _ _ tail H5).
  trivial.
Qed.

(** C6, at a request that is not for the route: a POST to
    [/user/acct/service/svc/spawn/other] is not answered 404; the handler
    lets it through, the remote spawn call is made and the answer is
    200. *)
Theorem route_longer_path_accepted :
  let req := {| method := Some "POST"; url := Some "/user/acct/service/svc/spawn/other" |} in
  proxyHandler_route req Demo.started = Val true Demo.started
  /\ trace (stateOf (proxyHandler req None (Demo.fresh "b1") 5%Z Demo.started))
     = trace Demo.oneBackend
  /\ List.last (trace Demo.oneBackend) EFooter = ERespond 200 (Json (Demo.fresh "b1")).
Proof. vm_compute. repeat split. Qed.

(** ** Status updates: the terminal cleanup *)

Lemma invokeCloser_state f s : invokeCloser f s = Val tt (closerInvoked f s).
Proof.
  unfold invokeCloser. run. unfold closerInvoked. flat.
  rewrite list_alter_alter_eq, <- app_assoc. reflexivity.
Qed.

Lemma closeCount_closerInvoked k f fr s :
  frames s !! f = Some fr ->
  closeCount k f (closerInvoked f s) = S (closeCount k f s).
Proof.
  intros Hf. unfold closeCount, closerInvoked. cbn.
  rewrite list_lookup_alter_eq, Hf. destruct k; reflexivity.
Qed.

Lemma onStatus_live n r b curStatus s :
  heap s !! r = Some b ->
  isLive curStatus = true ->
  onStatus n r curStatus s = Val tt (statusNoted n r b curStatus s).
Proof.
  intros Hb Hlive. unfold onStatus, assign, bind, deref, modify. rewrite Hb. cbn.
  assert (Hlt : r < length (heap s)) by (eapply lookup_lt_Some; eassumption).
  rewrite list_lookup_insert_eq by assumption.
  rewrite updateFooterAndLog_logged, Hlive. reflexivity.
Qed.

Lemma onStatus_terminal n r b curStatus s :
  heap s !! r = Some b ->
  isLive curStatus = false ->
  onStatus n r curStatus s =
    Val tt (unregistered n
              (match closeStreams b with
               | Some closer => closerInvoked closer (statusNoted n r b curStatus s)
               | None => statusNoted n r b curStatus s
               end)).
Proof.
  intros Hb Hlive. unfold onStatus, assign, bind, deref, modify. rewrite Hb. cbn.
  assert (Hlt : r < length (heap s)) by (eapply lookup_lt_Some; eassumption).
  rewrite list_lookup_insert_eq by assumption.
  rewrite updateFooterAndLog_logged, Hlive. cbn.
  rewrite list_lookup_insert_eq by assumption. cbn.
  destruct (closeStreams b) as [closer|]; [rewrite invokeCloser_state|]; reflexivity.
Qed.

Lemma onLog_state n r b log s :
  heap s !! r = Some b ->
  onLog n r log s = Val tt (logged [Chalk (color b) ("[" ++ n ++ "] " ++ log)] s).
Proof.
  intros Hb. unfold onLog, bind, deref. rewrite Hb.
  rewrite updateFooterAndLog_logged. reflexivity.
Qed.

Lemma delete_absent {V} k (m : list (string * V)) :
  JsMap.get k m = None -> JsMap.delete k m = m.
Proof.
  induction m as [|[k' v'] m IH]; cbn; [reflexivity|].
  destruct (String.eqb k k'); [discriminate|].
  intros H. rewrite IH by assumption. reflexivity.
Qed.

(** Events that reach the callbacks of a backend whose entry is gone:
    none throws, the registry stays as it is, and every status outside
    the live ones calls the closer once more. *)
Lemma deliver_after_cleanup n r f evs :
  forall s b fr,
    heap s !! r = Some b ->
    closeStreams b = Some f ->
    frames s !! f = Some fr ->
    JsMap.get n (devBackends s) = None ->
    exists s2,
      forEach evs (deliver n r) s = Val tt s2
      /\ devBackends s2 = devBackends s
      /\ closeCount StatusStream f s2 = closeCount StatusStream f s + terminalUpdates evs
      /\ closeCount LogsStream f s2 = closeCount LogsStream f s + terminalUpdates evs.
Proof.
  induction evs as [|ev evs IH]; intros s b fr Hb Hc Hf Hn.
  - exists s. cbn. unfold terminalUpdates. cbn. repeat split; lia.
  - assert (Hlt : r < length (heap s)) by (eapply lookup_lt_Some; eassumption).
    cbn [forEach]. unfold bind. destruct ev as [st|l]; cbn [deliver].
    + destruct (isLive st) eqn:Hlive.
      * rewrite (onStatus_live n r b) by assumption.
        destruct (IH (statusNoted n r b st s) (set_lastStatus (Some st) b) fr)
          as (s2 & Hrun & Hreg & Hcs & Hcl); try assumption.
        { cbn. apply list_lookup_insert_eq. assumption. }
        exists s2. split; [exact Hrun|]. rewrite Hreg, Hcs, Hcl.
        unfold terminalUpdates. cbn. rewrite Hlive. cbn. auto.
      * rewrite (onStatus_terminal n r b) by assumption. rewrite Hc.
        destruct (IH (unregistered n (closerInvoked f (statusNoted n r b st s)))
                     (set_lastStatus (Some st) b) (closeBoth fr))
          as (s2 & Hrun & Hreg & Hcs & Hcl).
        { cbn. apply list_lookup_insert_eq. assumption. }
        { assumption. }
        { cbn. rewrite list_lookup_alter_eq, Hf. reflexivity. }
        { cbn. apply get_delete_eq. }
        exists s2. split; [exact Hrun|]. rewrite Hreg, Hcs, Hcl.
        assert (Hs : forall k, closeCount k f (unregistered n (closerInvoked f (statusNoted n r b st s)))
                               = S (closeCount k f s)).
        { intros k. apply (closeCount_closerInvoked k f fr (statusNoted n r b st s)). exact Hf. }
        rewrite !Hs. unfold terminalUpdates. cbn. rewrite Hlive. cbn.
        rewrite delete_absent by assumption. repeat split; lia.
    + rewrite (onLog_state n r b) by assumption.
      destruct (IH (logged [Chalk (color b) ("[" ++ n ++ "] " ++ l)] s) b fr)
        as (s2 & Hrun & Hreg & Hcs & Hcl); try assumption.
      exists s2. split; [exact Hrun|]. rewrite Hreg, Hcs, Hcl.
      unfold terminalUpdates. cbn. auto.
Qed.

Lemma terminal_update_cleans n r f b fr st s :
  heap s !! r = Some b ->
  closeStreams b = Some f ->
  frames s !! f = Some fr ->
  isLive st = false ->
  exists s1,
    onStatus n r st s = Val tt s1
    /\ JsMap.get n (devBackends s1) = None
    /\ closeCount StatusStream f s1 = S (closeCount StatusStream f s)
    /\ closeCount LogsStream f s1 = S (closeCount LogsStream f s)
    /\ (exists b1 fr1, heap s1 !! r = Some b1 /\ closeStreams b1 = Some f
                       /\ frames s1 !! f = Some fr1).
Proof.
  intros Hb Hc Hf Hlive.
  assert (Hlt : r < length (heap s)) by (eapply lookup_lt_Some; eassumption).
  rewrite (onStatus_terminal n r b) by assumption. rewrite Hc.
  eexists. split; [reflexivity|]. split; [cbn; apply get_delete_eq|].
  split; [apply (closeCount_closerInvoked _ f fr (statusNoted n r b st s)); exact Hf|].
  split; [apply (closeCount_closerInvoked _ f fr (statusNoted n r b st s)); exact Hf|].
  exists (set_lastStatus (Some st) b), (closeBoth fr). cbn.
  rewrite list_lookup_insert_eq by assumption. rewrite list_lookup_alter_eq, Hf. auto.
Qed.

(** C4, as stated, fails: the status stream of [b1] delivers
    [Terminated]; the entry is removed and the closer invoked.  A log
    line that arrives next is printed, not ignored; a second [Terminated]
    invokes the closer a second time. *)
Lemma terminal_status_twice_closes_twice :
  exists s1 s2 s3,
    onStatus "b1" 0 "Terminated" Demo.oneBackend = Val tt s1
    /\ JsMap.get "b1" (devBackends s1) = None
    /\ closeCount StatusStream 0 Demo.oneBackend = 0
    /\ closeCount StatusStream 0 s1 = 1
    /\ onLog "b1" 0 "bye" s1 = Val tt s2
    /\ trace s2 = trace s1 ++ [ELog (Chalk cyan "[b1] bye"); EFooter]
    /\ onStatus "b1" 0 "Terminated" s2 = Val tt s3
    /\ closeCount StatusStream 0 s3 = 2
    /\ closeCount LogsStream 0 s3 = 2.
Proof.
  eexists. eexists. eexists.
  split; [vm_compute; reflexivity|]. split; [reflexivity|].
  split; [reflexivity|]. split; [reflexivity|].
  split; [vm_compute; reflexivity|]. split; [reflexivity|].
  split; [vm_compute; reflexivity|]. split; reflexivity.
Qed.

Lemma consoleLines_app es1 es2 :
  consoleLines (es1 ++ es2) = consoleLines es1 ++ consoleLines es2.
Proof.
  induction es1 as [|e es1 IH]; [reflexivity|].
  destruct e; cbn; rewrite IH; reflexivity.
Qed.

Lemma consoleLines_map ls : consoleLines (map ELog ls) = ls.
Proof. induction ls as [|l ls IH]; [reflexivity|]. cbn. rewrite IH. reflexivity. Qed.

(** Every event delivered to the callbacks of a backend is printed, in
    the colour of the backend, and a status is recorded as its
    [lastStatus], whether the entry is still registered or not. *)
Lemma delivered_events_written n r evs :
  forall s b,
    heap s !! r = Some b ->
    exists s2 b2,
      forEach evs (deliver n r) s = Val tt s2
      /\ consoleLines (trace s2) = consoleLines (trace s) ++ map (eventLine n (color b)) evs
      /\ heap s2 !! r = Some b2
      /\ lastStatus b2 = lastDelivered evs (lastStatus b).
Proof.
  induction evs as [|ev evs IH]; intros s b Hb.
  - exists s, b. cbn. rewrite app_nil_r. auto.
  - assert (Hlt : r < length (heap s)) by (eapply lookup_lt_Some; eassumption).
    cbn [forEach]. unfold bind. destruct ev as [st|l]; cbn [deliver].
    + assert (Hnext : exists s1,
                onStatus n r st s = Val tt s1
                /\ consoleLines (trace s1) = consoleLines (trace s) ++ [statusLine n b st]
                /\ heap s1 !! r = Some (set_lastStatus (Some st) b)).
      { destruct (isLive st) eqn:Hlive.
        - rewrite (onStatus_live n r b) by assumption.
          eexists. split; [reflexivity|]. cbn.
          rewrite consoleLines_app. cbn. split; [reflexivity|].
          apply list_lookup_insert_eq. assumption.
        - rewrite (onStatus_terminal n r b) by assumption.
          eexists. split; [reflexivity|].
          destruct (closeStreams b) as [closer|]; cbn;
            rewrite ?consoleLines_app; cbn; rewrite ?app_nil_r;
            (split; [reflexivity|apply list_lookup_insert_eq; assumption]). }
      destruct Hnext as (s1 & -> & Hlines & Hb1).
      destruct (IH s1 (set_lastStatus (Some st) b) Hb1) as (s2 & b2 & Hrun & Hl2 & Hb2 & Hlast).
      exists s2, b2. split; [exact Hrun|]. rewrite Hl2, Hlines, <- app_assoc.
      split; [reflexivity|]. split; [exact Hb2|]. exact Hlast.
    + rewrite (onLog_state n r b) by assumption.
      destruct (IH (logged [Chalk (color b) ("[" ++ n ++ "] " ++ l)] s) b Hb)
        as (s2 & b2 & Hrun & Hl2 & Hb2 & Hlast).
      exists s2, b2. split; [exact Hrun|]. rewrite Hl2. cbn.
      rewrite consoleLines_app. cbn. rewrite <- app_assoc.
      split; [reflexivity|]. split; [exact Hb2|]. exact Hlast.
Qed.

(** C4, amended: a status outside Loading, Starting and Ready, delivered
    for a backend whose streams are attached, removes the backend's entry
    from the registry and invokes its closer once: [close()] is called
    once on each of the two streams.  Whatever status and log events
    arrive for that backend afterwards, none throws and the registry
    stays as it is; they are not ignored, though: each is written to the
    console in the colour of the backend, a status is recorded as the
    record's [lastStatus], and every further status outside the three
    invokes the closer once more. *)
Theorem terminal_cleanup s f fr b st evs :
  frames s !! f = Some fr ->
  heap s !! backend fr = Some b ->
  closeStreams b = Some f ->
  isLive st = false ->
  exists s1 s2 b2,
    onStatus (backendName fr) (backend fr) st s = Val tt s1
    /\ JsMap.get (backendName fr) (devBackends s1) = None
    /\ closeCount StatusStream f s1 = S (closeCount StatusStream f s)
    /\ closeCount LogsStream f s1 = S (closeCount LogsStream f s)
    /\ forEach evs (deliver (backendName fr) (backend fr)) s1 = Val tt s2
    /\ devBackends s2 = devBackends s1
    /\ closeCount StatusStream f s2 = S (closeCount StatusStream f s) + terminalUpdates evs
    /\ closeCount LogsStream f s2 = S (closeCount LogsStream f s) + terminalUpdates evs
    /\ consoleLines (trace s2)
       = consoleLines (trace s1) ++ map (eventLine (backendName fr) (color b)) evs
    /\ heap s2 !! backend fr = Some b2
    /\ lastStatus b2 = lastDelivered evs (Some st).
Proof.
  intros Hf Hb Hc Hlive.
  destruct (terminal_update_cleans (backendName fr) (backend fr) f b fr st s Hb Hc Hf Hlive)
    as (s1 & Hrun & Hgone & Hcs & Hcl & b1 & fr1 & Hb1 & Hc1 & Hf1).
  destruct (deliver_after_cleanup (backendName fr) (backend fr) f evs s1 b1 fr1 Hb1 Hc1 Hf1 Hgone)
    as (s2 & Hrun2 & Hreg & Hcs2 & Hcl2).
  destruct (delivered_events_written (backendName fr) (backend fr) evs s1 b1 Hb1)
    as (s2' & b2 & Hrun2' & Hlines & Hb2 & Hlast).
  assert (s2' = s2) by congruence. subst s2'.
  assert (Hb1' : b1 = set_lastStatus (Some st) b).
  { assert (Hlt : backend fr < length (heap s)) by (eapply lookup_lt_Some; eassumption).
    rewrite (onStatus_terminal (backendName fr) (backend fr) b) in Hrun by assumption.
    rewrite Hc in Hrun. injection Hrun as <-. cbn in Hb1.
    rewrite list_lookup_insert_eq in Hb1 by assumption. congruence. }
  subst b1. cbn in Hlines, Hlast.
  exists s1, s2, b2. rewrite Hcs2, Hcl2, Hcs, Hcl. auto 15.
Qed.

Lemma terminal_cleanup_witness :
  exists s1 s2 b2,
    onStatus "b1" 0 "Terminated" Demo.oneBackend = Val tt s1
    /\ JsMap.get "b1" (devBackends s1) = None
    /\ closeCount StatusStream 0 s1 = S (closeCount StatusStream 0 Demo.oneBackend)
    /\ closeCount LogsStream 0 s1 = S (closeCount LogsStream 0 Demo.oneBackend)
    /\ forEach [LogLine "bye"; StatusUpdate "Terminated"] (deliver "b1" 0) s1 = Val tt s2
    /\ devBackends s2 = devBackends s1
    /\ closeCount StatusStream 0 s2
       = S (closeCount StatusStream 0 Demo.oneBackend)
         + terminalUpdates [LogLine "bye"; StatusUpdate "Terminated"]
    /\ closeCount LogsStream 0 s2
       = S (closeCount LogsStream 0 Demo.oneBackend)
         + terminalUpdates [LogLine "bye"; StatusUpdate "Terminated"]
    /\ consoleLines (trace s2)
       = consoleLines (trace s1)
         ++ map (eventLine "b1" cyan) [LogLine "bye"; StatusUpdate "Terminated"]
    /\ heap s2 !! 0 = Some b2
    /\ lastStatus b2 = lastDelivered [LogLine "bye"; StatusUpdate "Terminated"] (Some "Terminated").
Proof.
  apply (terminal_cleanup Demo.oneBackend 0 (attachedFrame "b1" 0)
           {| spawnResult := Demo.fresh "b1"; imageId := "img1"; spawnTime := 5;
              lastStatus := None; lock := None; isStreaming := true;
              color := cyan; closeStreams := Some 0 |}
           "Terminated" [LogLine "bye"; StatusUpdate "Terminated"]);
    reflexivity.
Defined.

(** ** Shutdown *)

Lemma closeCount_closerInvoked_le k c f s :
  closeCount k c s <= closeCount k c (closerInvoked f s).
Proof.
  unfold closeCount, closerInvoked. cbn.
  destruct (decide (f = c)) as [->|Hne].
  - rewrite list_lookup_alter_eq. destruct (frames s !! c); cbn; [|lia].
    destruct k; cbn; lia.
  - rewrite list_lookup_alter_ne by assumption. lia.
Qed.

Lemma closedSignal_closerInvoked k c f s :
  closedSignal k c (closerInvoked f s) = closedSignal k c s.
Proof.
  unfold closedSignal, closerInvoked. cbn.
  destruct (decide (f = c)) as [->|Hne].
  - rewrite list_lookup_alter_eq. destruct (frames s !! c); cbn; [|reflexivity].
    destruct k; reflexivity.
  - rewrite list_lookup_alter_ne by assumption. reflexivity.
Qed.

Lemma closeCount_lt_closerInvoked k f s :
  f < length (frames s) ->
  closeCount k f s < closeCount k f (closerInvoked f s).
Proof.
  intros Hlt. destruct (lookup_lt_is_Some_2 _ _ Hlt) as [fr Hf].
  rewrite (closeCount_closerInvoked k f fr s Hf). lia.
Qed.

(** The loop of lines 111-114 empties the registry, calls the closer of
    every entry and resolves nothing. *)
Lemma closeRemaining_effect fuel :
  forall s,
    List.NoDup (JsMap.keys (devBackends s)) ->
    refsValid s ->
    length (devBackends s) <= fuel ->
    exists s',
      closeRemaining fuel s = Val tt s'
      /\ devBackends s' = []
      /\ heap s' = heap s
      /\ length (frames s') = length (frames s)
      /\ opts s' = opts s
      /\ (forall k c, closeCount k c s <= closeCount k c s')
      /\ (forall k c, closedSignal k c s' = closedSignal k c s)
      /\ (forall n r b c k,
            In (n, r) (devBackends s) -> heap s !! r = Some b ->
            closeStreams b = Some c -> c < length (frames s) ->
            closeCount k c s < closeCount k c s').
Proof.
  induction fuel as [|fuel IH]; intros s Hnd Hval Hlen.
  - destruct (devBackends s) eqn:Hreg; [|cbn in Hlen; lia].
    exists s. cbn. repeat split; auto. intros n r b c k [].
  - cbn [closeRemaining]. unfold bind, gets.
    destruct (devBackends s) as [|[n r] rest] eqn:Hreg.
    { exists s. cbn. repeat split; auto. intros n r b c k [].  }
    destruct (Hval n r) as [b Hb]; [rewrite Hreg; left; reflexivity|].
    unfold deref. rewrite Hb.
    cbn in Hnd. apply List.NoDup_cons_iff in Hnd as [Hnotin Hnd].
    assert (Hrest : JsMap.delete n ((n, r) :: rest) = rest).
    { cbn. rewrite String.eqb_refl. apply delete_absent.
      apply get_None_keys. assumption. }
    set (s1 := match closeStreams b with
               | Some closer => closerInvoked closer s
               | None => s
               end).
    assert (Hstep : (match closeStreams b with
                     | Some closer => invokeCloser closer
                     | None => ret tt
                     end) s = Val tt s1).
    { unfold s1. destruct (closeStreams b); [apply invokeCloser_state|reflexivity]. }
    rewrite Hstep. unfold modify.
    assert (Hreg1 : devBackends s1 = (n, r) :: rest)
      by (unfold s1; destruct (closeStreams b); cbn; assumption).
    assert (Hheap1 : heap s1 = heap s) by (unfold s1; destruct (closeStreams b); reflexivity).
    assert (Hlen1 : length (frames s1) = length (frames s)).
    { unfold s1. destruct (closeStreams b); [|reflexivity]. cbn. apply length_alter. }
    assert (Hopts1 : opts s1 = opts s) by (unfold s1; destruct (closeStreams b); reflexivity).
    assert (Hle1 : forall k c, closeCount k c s <= closeCount k c s1).
    { intros k c. unfold s1. destruct (closeStreams b);
        [apply closeCount_closerInvoked_le|lia]. }
    assert (Hsig1 : forall k c, closedSignal k c s1 = closedSignal k c s).
    { intros k c. unfold s1. destruct (closeStreams b);
        [apply closedSignal_closerInvoked|reflexivity]. }
    rewrite Hreg1, Hrest.
    destruct (IH (set_devBackends rest s1)) as (s' & Hrun & Hempty & Hheap & Hlen' & Hopts & Hle & Hsig & Hinv).
    { cbn. assumption. }
    { intros n' r' Hin. cbn in Hin. cbn. rewrite Hheap1. apply (Hval n' r').
      rewrite Hreg. right. assumption. }
    { cbn. cbn in Hlen. lia. }
    exists s'. split; [exact Hrun|]. split; [exact Hempty|].
    split; [rewrite Hheap; exact Hheap1|].
    split; [rewrite Hlen'; exact Hlen1|].
    split; [rewrite Hopts; exact Hopts1|].
    split; [intros k c; specialize (Hle k c); specialize (Hle1 k c);
            unfold closeCount in *; cbn in *; lia|].
    split; [intros k c; rewrite Hsig; apply Hsig1|].
    intros n' r' b' c k [Hin|Hin] Hb' Hc Hlt.
    + injection Hin as <- <-. rewrite Hb in Hb'. injection Hb' as <-.
      specialize (Hle k c). apply Nat.lt_le_trans with (closeCount k c s1); [|exact Hle].
      unfold s1. rewrite Hc. apply closeCount_lt_closerInvoked. assumption.
    + apply Nat.le_lt_trans with (closeCount k c s1); [apply Hle1|].
      apply (Hinv n' r' b' c k); cbn; try assumption.
      * rewrite Hheap1. assumption.
      * rewrite Hlen1. assumption.
Qed.

Lemma oneBackend_reachable : reachable Demo.options Demo.oneBackend.
Proof.
  assert (H0 := reachable_step _ _ _ (reachable_init Demo.options)
                  (step_start_build _ (inr "img1"))).
  assert (H1 := reachable_step _ _ _ H0 (step_start_pushed _ "img1" None)).
  assert (H2 := reachable_step _ _ _ H1 (step_listening _)).
  assert (H3 := reachable_step _ _ _ H2 (step_request _ Demo.spawnRequest)).
  assert (H4 := reachable_step _ _ _ H3 (step_body _ None)).
  assert (H5 := reachable_step _ _ _ H4
                  (step_spawn_answer _ "img1" emptyBody (Demo.fresh "b1") 5%Z)).
  vm_compute in H5. exact H5.
Qed.

(** ** A rebuild during the remote spawn *)

Lemma raced_reachable : reachable Demo.options Demo.raced.
Proof.
  assert (H1 := reachable_step _ _ _ oneBackend_reachable (step_request _ Demo.spawnRequest)).
  assert (H2 := reachable_step _ _ _ H1 (step_body _ None)).
  assert (H3 := reachable_step _ _ _ H2 (step_rebuild_build _ (inr "img2"))).
  assert (H4 := reachable_step _ _ _ H3 (step_rebuild_resume _ "img2" None None)).
  vm_compute in H4. exact H4.
Qed.

Lemma racedTwice_reachable : reachable Demo.options Demo.racedTwice.
Proof.
  assert (H1 := reachable_step _ _ _ raced_reachable (step_request _ Demo.spawnRequest)).
  assert (H2 := reachable_step _ _ _ H1 (step_body _ None)).
  assert (H3 := reachable_step _ _ _ H2
                  (step_spawn_answer _ "img2" emptyBody (Demo.fresh "b2") 8%Z)).
  vm_compute in H3. exact H3.
Qed.

Lemma call_reads_current body s0 img s1 :
  spawnBackend_call body s0 = Val img s1 ->
  currentImageId s0 = Some img /\ isEmpty img = false
  /\ s1 = set_trace (trace s0 ++ [ESpawn (service (opts s0)) body]) s0.
Proof.
  unfold spawnBackend_call, bind, gets, throw.
  destruct (currentImageId s0) as [img0|]; [|discriminate].
  destruct (isEmpty img0) eqn:He; [discriminate|].
  cbn. intros [= <- <-]. auto.
Qed.

(** C3: a request is accepted while [b1] runs the current image [img1];
    [spawnBackend] reads [img1] and awaits the remote spawn.  Before the
    answer a rebuild makes [img2] the current image; [b1] stays in the
    registry with [img1].  The answer then reuses [b1]: the entry's image
    differs from the session's current image, and the operation returns
    the stale backend as a success, which the proxy answers with 200. *)
Theorem spawn_stale_returned_after_rebuild :
  proxyHandler_route Demo.spawnRequest Demo.oneBackend = Val true Demo.oneBackend
  /\ proxyHandler_spawn None Demo.oneBackend = Val "img1" Demo.awaiting
  /\ rebuild (inr "img2") None None Demo.awaiting = Val tt Demo.raced
  /\ reachable Demo.options Demo.raced
  /\ currentImageId Demo.raced = Some "img2"
  /\ JsMap.get "b1" (devBackends Demo.raced) = Some 0
  /\ (exists b, heap Demo.raced !! 0 = Some b /\ imageId b = "img1")
  /\ exists s1 s2,
       spawnBackend_resume "img1" emptyBody (Demo.reused "b1") 9%Z Demo.raced
         = Val (inl (Demo.reused "b1")) s1
       /\ proxyHandler_respond (inl (Demo.reused "b1")) s1 = Val tt s2
       /\ trace s2 = trace Demo.raced ++ [ERespond 200 (Json (Demo.reused "b1"))].
Proof.
  split; [vm_compute; reflexivity|]. split; [vm_compute; reflexivity|].
  split; [vm_compute; reflexivity|]. split; [exact raced_reachable|].
  split; [reflexivity|]. split; [reflexivity|].
  split; [eexists; split; reflexivity|].
  eexists. eexists. split; [vm_compute; reflexivity|].
  split; [vm_compute; reflexivity|]. reflexivity.
Qed.

(** C10, as stated, fails, in two ways.  First: the streams of [b1] have
    ended, so its record has [isStreaming = false]; a spawn then reuses
    [b1], with [spawned = false] and the current image in the record.
    The answer is a success, and the streams are attached again, which
    writes the fields [isStreaming] and [closeStreams] of the existing
    record.  Second: a spawn is called under [img1]; before its answer a
    rebuild makes [img2] current and [b2] is spawned from [img2]; the
    answer reuses [b2], whose image is the current one, and the
    operation returns an [Error]. *)
Lemma spawn_reuse_not_as_stated :
  let before :=
    {| spawnResult := Demo.fresh "b1"; imageId := "img1"; spawnTime := 5;
       lastStatus := None; lock := None; isStreaming := false;
       color := cyan; closeStreams := Some 0 |} in
  let after :=
    {| spawnResult := Demo.fresh "b1"; imageId := "img1"; spawnTime := 5;
       lastStatus := None; lock := None; isStreaming := true;
       color := cyan; closeStreams := Some 1 |} in
  (currentImageId Demo.streamsOver = Some "img1"
   /\ JsMap.get "b1" (devBackends Demo.streamsOver) = Some 0
   /\ heap Demo.streamsOver !! 0 = Some before
   /\ exists s',
        spawnBackend_resume "img1" emptyBody (Demo.reused "b1") 9%Z Demo.streamsOver
          = Val (inl (Demo.reused "b1")) s'
        /\ heap s' !! 0 = Some after
        /\ after <> before)
  /\ (spawnBackend_call emptyBody Demo.oneBackend = Val "img1" Demo.awaiting
      /\ reachable Demo.options Demo.racedTwice
      /\ currentImageId Demo.racedTwice = Some "img2"
      /\ JsMap.get "b2" (devBackends Demo.racedTwice) = Some 1
      /\ (exists b, heap Demo.racedTwice !! 1 = Some b /\ imageId b = "img2")
      /\ exists s',
           spawnBackend_resume "img1" emptyBody (Demo.reused "b2") 9%Z Demo.racedTwice
             = Val (inr errOutdated) s').
Proof.
  cbv zeta. split.
  - split; [reflexivity|]. split; [reflexivity|]. split; [reflexivity|].
    eexists. split; [vm_compute; reflexivity|]. split; [reflexivity|discriminate].
  - split; [vm_compute; reflexivity|].
    split; [exact racedTwice_reachable|]. split; [reflexivity|]. split; [reflexivity|].
    split; [eexists; split; reflexivity|].
    eexists. vm_compute. reflexivity.
Qed.

(** C10, amended: a reused name ([spawned = false]) whose record carries
    the session's current image, the image being the one the operation
    read before the remote call, is answered with the remote result; the
    registry keeps its entries and no colour is taken.  If the record was
    streaming, no record and no stream changes.  If it was not, the
    streams are attached: a new pair of streams is opened and the record's
    [isStreaming] and [closeStreams] are written, its other fields and
    all other records staying as they were. *)
Theorem spawn_reuse body result now s0 s1 img s r b :
  spawnBackend_call body s0 = Val img s1 ->
  currentImageId s = currentImageId s0 ->
  JsMap.get (name result) (devBackends s) = Some r ->
  heap s !! r = Some b ->
  spawned result = false ->
  currentImageId s = Some (imageId b) ->
  exists s',
    spawnBackend_resume img body result now s = Val (inl result) s'
    /\ devBackends s' = devBackends s
    /\ totalBackendsSpawned s' = totalBackendsSpawned s
    /\ (isStreaming b = true -> heap s' = heap s /\ frames s' = frames s)
    /\ (isStreaming b = false ->
          heap s' = <[r := set_closeStreams (Some (length (frames s))) (set_isStreaming true b)]> (heap s)
          /\ frames s' = frames s ++ [attachedFrame (name result) r]).
Proof.
  intros Hcall Hsame Hget Hb Hsp Hcur.
  destruct (call_reads_current body s0 img s1 Hcall) as (Hread & _ & _).
  assert (Himg : imageId b = img) by congruence.
  rewrite (resume_reused img body result now s r b) by assumption.
  destruct (isStreaming b) eqn:Hstr.
  - rewrite (tail_streaming result r b) by assumption.
    eexists. split; [reflexivity|]. rewrite Hsp. cbn.
    repeat split; auto; discriminate.
  - rewrite (tail_attaches result r b) by assumption.
    eexists. split; [reflexivity|]. rewrite Hsp. cbn.
    repeat split; auto; discriminate.
Qed.

Lemma spawn_reuse_witness :
  exists s',
    spawnBackend_resume "img1" emptyBody (Demo.reused "b1") 9%Z Demo.awaiting
      = Val (inl (Demo.reused "b1")) s'
    /\ devBackends s' = devBackends Demo.awaiting
    /\ totalBackendsSpawned s' = totalBackendsSpawned Demo.awaiting
    /\ (true = true -> heap s' = heap Demo.awaiting /\ frames s' = frames Demo.awaiting)
    /\ (true = false ->
          heap s' = <[0 := set_closeStreams (Some (length (frames Demo.awaiting)))
                             (set_isStreaming true
                                {| spawnResult := Demo.fresh "b1"; imageId := "img1";
                                   spawnTime := 5; lastStatus := None; lock := None;
                                   isStreaming := true; color := cyan;
                                   closeStreams := Some 0 |})]> (heap Demo.awaiting)
          /\ frames s' = frames Demo.awaiting ++ [attachedFrame "b1" 0]).
Proof.
  apply (spawn_reuse emptyBody (Demo.reused "b1") 9%Z Demo.oneBackend Demo.awaiting "img1"
           Demo.awaiting 0
           {| spawnResult := Demo.fresh "b1"; imageId := "img1";
              spawnTime := 5; lastStatus := None; lock := None;
              isStreaming := true; color := cyan; closeStreams := Some 0 |});
    reflexivity.
Defined.

(** C8, as stated, fails: the session with [b1] running is shut down,
    nothing else happening meanwhile.  The shutdown completes with an
    empty registry, having called [close()] once on each stream of [b1];
    the [closed] promise of neither stream has resolved, and the
    shutdown has released the input without waiting for them. *)
Lemma shutdown_does_not_wait :
  reachable Demo.options Demo.oneBackend
  /\ exists s',
       shutdown None Demo.oneBackend = Val tt s'
       /\ devBackends s' = []
       /\ closeCount StatusStream 0 s' = 1
       /\ closeCount LogsStream 0 s' = 1
       /\ closedSignal StatusStream 0 s' = false
       /\ closedSignal LogsStream 0 s' = false
       /\ List.last (trace s') EFooter = EStdinRelease.
Proof.
  split; [exact oneBackend_reachable|].
  eexists. split; [vm_compute; reflexivity|]. repeat split.
Qed.

(** C8, amended: when the shutdown has run its cleanup, the registry is
    empty and the closer of every entry that was still in the registry
    has been invoked: [close()] has been called on both of its streams.
    The shutdown does not wait for the [closed] promises: it resolves
    none, each is as it was when the cleanup began. *)
Theorem shutdown_closes_registry s :
  List.NoDup (JsMap.keys (devBackends s)) ->
  refsValid s ->
  exists s',
    start_cleanup s = Val tt s'
    /\ devBackends s' = []
    /\ (forall n r b c k,
          In (n, r) (devBackends s) -> heap s !! r = Some b ->
          closeStreams b = Some c -> c < length (frames s) ->
          closeCount k c s < closeCount k c s')
    /\ (forall k c, closedSignal k c s' = closedSignal k c s).
Proof.
  intros Hnd Hval. unfold start_cleanup, clearFooter, bind, gets. cbn [ret].
  destruct (closeRemaining_effect (JsMap.size (devBackends s)) s Hnd Hval)
    as (s1 & Hrun & Hempty & _ & _ & Hopts & _ & Hsig & Hinv); [unfold JsMap.size; lia|].
  rewrite Hrun.
  destruct (watch (opts s1)); unfold emit, modify; cbn;
    (eexists; split; [reflexivity|]; split; [exact Hempty|]; split; [exact Hinv|exact Hsig]).
Qed.

Lemma shutdown_closes_registry_witness :
  exists s',
    start_cleanup Demo.twoBackends = Val tt s'
    /\ devBackends s' = []
    /\ (forall n r b c k,
          In (n, r) (devBackends Demo.twoBackends) -> heap Demo.twoBackends !! r = Some b ->
          closeStreams b = Some c -> c < length (frames Demo.twoBackends) ->
          closeCount k c Demo.twoBackends < closeCount k c s')
    /\ (forall k c, closedSignal k c s' = closedSignal k c Demo.twoBackends).
Proof.
  apply (shutdown_closes_registry Demo.twoBackends).
  - simpl. repeat (apply List.NoDup_cons; [simpl; intuition discriminate|]).
    apply List.NoDup_nil.
  - intros n r Hin. simpl in Hin.
    destruct Hin as [Hin|[Hin|[]]]; injection Hin as <- <-; eexists; reflexivity.
Defined.

(** ** The streaming invariant *)

Section Preservation.
Variable I : State -> Prop.

Lemma pres_ret {A} (a : A) : preserves I (ret a).
Proof. intros s H. exact H. Qed.

Lemma pres_throw {A} e : preserves I (@throw A e).
Proof. intros s H. exact H. Qed.

Lemma pres_gets {A} (f : State -> A) : preserves I (gets f).
Proof. intros s H. exact H. Qed.

Lemma pres_bind {A B} (m : M A) (k : A -> M B) :
  preserves I m -> (forall a, preserves I (k a)) -> preserves I (bind m k).
Proof.
  intros Hm Hk s H. unfold bind. specialize (Hm s H).
  destruct (m s) as [a s'|e s']; cbn in *; [apply Hk|]; assumption.
Qed.

Lemma pres_detached {A} (m : M A) : preserves I m -> preserves I (detached m).
Proof.
  intros Hm s H. unfold detached. specialize (Hm s H).
  destruct (m s); assumption.
Qed.

Lemma pres_forEach {A} (l : list A) (body : A -> M unit) :
  (forall x, preserves I (body x)) -> preserves I (forEach l body).
Proof.
  intros Hbody. induction l as [|x l IH]; cbn [forEach].
  - apply pres_ret.
  - apply pres_bind; [apply Hbody|intros _; exact IH].
Qed.

Lemma pres_modify (f : State -> State) :
  (forall s, I s -> I (f s)) -> preserves I (modify f).
Proof. intros Hf s H. apply Hf. exact H. Qed.
End Preservation.

Lemma wf_initial o : wellFormed (initialState o).
Proof.
  constructor; cbn.
  - apply List.NoDup_nil.
  - intros n r [].
  - intros r b H. rewrite lookup_nil in H. discriminate.
  - intros r b c H. rewrite lookup_nil in H. discriminate.
  - intros f fr H. rewrite lookup_nil in H. discriminate.
Qed.

Lemma wf_set_trace t s : wellFormed s -> wellFormed (set_trace t s).
Proof. intros [H1 H2 H3 H4 H5]. constructor; assumption. Qed.

Lemma wf_set_currentImageId v s : wellFormed s -> wellFormed (set_currentImageId v s).
Proof. intros [H1 H2 H3 H4 H5]. constructor; assumption. Qed.

Lemma wf_set_totalBackendsSpawned v s :
  wellFormed s -> wellFormed (set_totalBackendsSpawned v s).
Proof. intros [H1 H2 H3 H4 H5]. constructor; assumption. Qed.

Lemma wf_logged ls s : wellFormed s -> wellFormed (logged ls s).
Proof. apply wf_set_trace. Qed.

(** Writing a record in place, its name kept. *)
Lemma wf_update r b b' s :
  wellFormed s ->
  heap s !! r = Some b ->
  spawnResult b' = spawnResult b ->
  streamingHasCloser b' ->
  (forall c, closeStreams b' = Some c -> c < length (frames s)) ->
  wellFormed (set_heap (<[r := b']> (heap s)) s).
Proof.
  intros [H1 H2 H3 H4 H5] Hb Hname Hstr Hcl.
  assert (Hlt : r < length (heap s)) by (eapply lookup_lt_Some; eassumption).
  constructor; cbn.
  - assumption.
  - intros n r' Hin. destruct (H2 n r' Hin) as (b0 & Hb0 & Hn0).
    destruct (decide (r = r')) as [<-|Hne].
    + exists b'. rewrite list_lookup_insert_eq by assumption. split; [reflexivity|].
      rewrite Hname. congruence.
    + exists b0. rewrite list_lookup_insert_ne by assumption. auto.
  - intros r' b0. destruct (decide (r = r')) as [<-|Hne].
    + rewrite list_lookup_insert_eq by assumption. intros [= <-]. assumption.
    + rewrite list_lookup_insert_ne by assumption. apply H3.
  - intros r' b0 c. destruct (decide (r = r')) as [<-|Hne].
    + rewrite list_lookup_insert_eq by assumption. intros [= <-]. apply Hcl.
    + rewrite list_lookup_insert_ne by assumption. apply H4.
  - intros f fr Hf. rewrite length_insert. eapply H5. eassumption.
Qed.

(** Changing the stream handles of one activation record. *)
Lemma wf_alter_frames g f s :
  wellFormed s ->
  (forall fr, backend (g fr) = backend fr) ->
  wellFormed (set_frames (alter g f (frames s)) s).
Proof.
  intros [H1 H2 H3 H4 H5] Hg. constructor; cbn; try assumption.
  - intros r b c Hb Hc. rewrite length_alter. eapply H4; eassumption.
  - intros f' fr. destruct (decide (f = f')) as [<-|Hne].
    + rewrite list_lookup_alter_eq. destruct (frames s !! f) as [fr0|] eqn:Hf; [|discriminate].
      cbn. intros [= <-]. rewrite Hg. eapply H5. eassumption.
    + rewrite list_lookup_alter_ne by assumption. apply H5.
Qed.

Lemma wf_closerInvoked f s : wellFormed s -> wellFormed (closerInvoked f s).
Proof.
  intros H. unfold closerInvoked. apply wf_set_trace.
  apply wf_alter_frames; [assumption|reflexivity].
Qed.

Lemma wf_unregistered n s : wellFormed s -> wellFormed (unregistered n s).
Proof.
  intros [H1 H2 H3 H4 H5]. constructor; cbn; try assumption.
  - apply NoDup_delete. assumption.
  - intros n' r Hin. apply In_delete in Hin as [Hin _]. apply H2. assumption.
Qed.

Lemma wf_attached n r b s :
  wellFormed s ->
  heap s !! r = Some b ->
  wellFormed (attached n r b s).
Proof.
  intros [H1 H2 H3 H4 H5] Hb.
  assert (Hlt : r < length (heap s)) by (eapply lookup_lt_Some; eassumption).
  constructor; cbn.
  - assumption.
  - intros n' r' Hin. destruct (H2 n' r' Hin) as (b0 & Hb0 & Hn0).
    destruct (decide (r = r')) as [<-|Hne].
    + eexists. rewrite list_lookup_insert_eq by assumption. split; [reflexivity|].
      cbn. congruence.
    + exists b0. rewrite list_lookup_insert_ne by assumption. auto.
  - intros r' b0. destruct (decide (r = r')) as [<-|Hne].
    + rewrite list_lookup_insert_eq by assumption. intros [= <-]. intros _. discriminate.
    + rewrite list_lookup_insert_ne by assumption. apply H3.
  - intros r' b0 c. rewrite length_app. cbn. destruct (decide (r = r')) as [<-|Hne].
    + rewrite list_lookup_insert_eq by assumption. intros [= <-]. cbn. intros [= <-]. lia.
    + rewrite list_lookup_insert_ne by assumption. intros Hb0 Hc.
      specialize (H4 r' b0 c Hb0 Hc). lia.
  - intros f fr. rewrite length_insert. rewrite lookup_app.
    destruct (frames s !! f) as [fr0|] eqn:Hf.
    + intros [= <-]. eapply H5. eassumption.
    + destruct (f - length (frames s)) as [|k]; cbn; [|discriminate].
      intros [= <-]. cbn. assumption.
Qed.

(** Recording a new backend under a name the registry does not have. *)
Lemma wf_registered n b s :
  wellFormed s ->
  JsMap.get n (devBackends s) = None ->
  name (spawnResult b) = n ->
  isStreaming b = false ->
  closeStreams b = None ->
  wellFormed (set_devBackends (JsMap.set n (length (heap s)) (devBackends s))
                (set_heap (heap s ++ [b]) s)).
Proof.
  intros [H1 H2 H3 H4 H5] Hnone Hname Hstr Hcl. constructor; cbn.
  - apply NoDup_set_absent; assumption.
  - intros n' r'. rewrite set_absent by assumption. intros Hin.
    apply in_app_or in Hin as [Hin|[Hin|[]]].
    + destruct (H2 n' r' Hin) as (b0 & Hb0 & Hn0). exists b0.
      rewrite lookup_app_l by (eapply lookup_lt_Some; eassumption). auto.
    + injection Hin as <- <-. exists b. split; [|assumption].
      rewrite lookup_app_r by lia. rewrite Nat.sub_diag. reflexivity.
  - intros r' b0. rewrite lookup_app. destruct (heap s !! r') as [b1|] eqn:Hb1.
    + intros [= <-]. eapply H3. eassumption.
    + destruct (r' - length (heap s)) as [|k]; cbn; [|discriminate].
      intros [= <-]. intros Hs. congruence.
  - intros r' b0 c. rewrite lookup_app. destruct (heap s !! r') as [b1|] eqn:Hb1.
    + intros [= <-]. eapply H4. eassumption.
    + destruct (r' - length (heap s)) as [|k]; cbn; [|discriminate].
      intros [= <-]. congruence.
  - intros f fr Hf. rewrite length_app. specialize (H5 f fr Hf). lia.
Qed.

Section WellFormedSegments.
Local Abbreviation keeps := (preserves wellFormed).

Lemma keeps_emit e : keeps (emit e).
Proof. intros s H. apply wf_set_trace. exact H. Qed.

Lemma keeps_log ls : keeps (updateFooterAndLog ls).
Proof. intros s H. rewrite updateFooterAndLog_logged. apply wf_logged. exact H. Qed.

Lemma keeps_clearFooter : keeps clearFooter.
Proof. apply pres_ret. Qed.

Lemma keeps_deref r : keeps (deref r).
Proof. intros s H. unfold deref. destruct (heap s !! r); exact H. Qed.

Lemma keeps_invokeCloser f : keeps (invokeCloser f).
Proof. intros s H. rewrite invokeCloser_state. apply wf_closerInvoked. exact H. Qed.

Lemma keeps_assign r g :
  (forall b, spawnResult (g b) = spawnResult b) ->
  (forall b, closeStreams (g b) = closeStreams b) ->
  (forall b, isStreaming (g b) = true -> isStreaming b = true) ->
  keeps (assign r g).
Proof.
  intros Hname Hcl Hstr s H. unfold assign, bind, deref, modify.
  destruct (heap s !! r) as [b|] eqn:Hb; [|exact H]. cbn.
  apply (wf_update r b); auto.
  - intros Hs. rewrite Hcl. apply (wf_streaming s H r b Hb). auto.
  - intros c. rewrite Hcl. apply (wf_closers s H r b c Hb).
Qed.

Lemma keeps_attach n : keeps (streamStatusAndLogs n).
Proof.
  intros s H.
  destruct (JsMap.get n (devBackends s)) as [r|] eqn:Hget.
  - destruct (wf_refs s H n r (get_In _ _ _ Hget)) as (b & Hb & _).
    rewrite (streamStatusAndLogs_attaches n r b) by assumption.
    apply wf_attached; assumption.
  - unfold streamStatusAndLogs, bind, gets. rewrite Hget. exact H.
Qed.

Lemma keeps_derefAll refs : keeps (derefAll refs).
Proof.
  induction refs as [|r refs IH]; cbn [derefAll]; [apply pres_ret|].
  apply pres_bind; [apply keeps_deref|intros b].
  apply pres_bind; [exact IH|intros bs; apply pres_ret].
Qed.

Lemma keeps_backendValues : keeps backendValues.
Proof.
  unfold backendValues. apply pres_bind; [apply pres_gets|intros refs].
  apply keeps_derefAll.
Qed.
End WellFormedSegments.

Ltac keeps :=
  repeat match goal with
    | |- preserves _ (ret _) => apply pres_ret
    | |- preserves _ (throw _) => apply pres_throw
    | |- preserves _ (gets _) => apply pres_gets
    | |- preserves _ (emit _) => apply keeps_emit
    | |- preserves _ (updateFooterAndLog _) => apply keeps_log
    | |- preserves _ clearFooter => apply keeps_clearFooter
    | |- preserves _ (deref _) => apply keeps_deref
    | |- preserves _ (invokeCloser _) => apply keeps_invokeCloser
    | |- preserves _ (streamStatusAndLogs _) => apply keeps_attach
    | |- preserves _ backendValues => apply keeps_backendValues
    | |- preserves _ (detached _) => apply pres_detached
    | |- preserves _ (forEach _ _) => apply pres_forEach; intros ?
    | |- preserves _ (bind _ _) => apply pres_bind; [|intros ?]
    | |- preserves _ (match ?x with _ => _ end) => destruct x
    | |- preserves _ (if ?x then _ else _) => destruct x
    end.

Lemma keeps_terminateBackends backends rejected :
  preserves wellFormed (terminateBackends backends rejected).
Proof. unfold terminateBackends. keeps. Qed.

Lemma keeps_terminateAll rejected :
  preserves wellFormed (terminateAllDevbackends rejected).
Proof. unfold terminateAllDevbackends. keeps. apply keeps_terminateBackends. Qed.

Lemma keeps_build built : preserves wellFormed (buildSessionBackend_build built).
Proof. unfold buildSessionBackend_build. keeps. Qed.

Lemma keeps_pushed img pushRejected :
  preserves wellFormed (buildSessionBackend_pushed img pushRejected).
Proof. unfold buildSessionBackend_pushed. keeps. Qed.

Lemma keeps_set_current v : preserves wellFormed (modify (set_currentImageId v)).
Proof. apply pres_modify. intros s. apply wf_set_currentImageId. Qed.

Lemma keeps_start_build built : preserves wellFormed (start_build built).
Proof. unfold start_build. keeps. apply keeps_build. Qed.

Lemma keeps_start_pushed img pushRejected :
  preserves wellFormed (start_pushed img pushRejected).
Proof.
  unfold start_pushed. apply pres_bind; [apply keeps_pushed|intros img'].
  apply pres_bind; [apply keeps_set_current|intros _]. keeps.
Qed.

Lemma keeps_listening : preserves wellFormed spawnProxy_listening.
Proof. unfold spawnProxy_listening. keeps. Qed.

Lemma keeps_rebuild_resume img pushRejected rejected :
  preserves wellFormed (rebuild_resume img pushRejected rejected).
Proof.
  unfold rebuild_resume. apply pres_bind; [apply keeps_pushed|intros img'].
  apply pres_bind; [apply keeps_set_current|intros _]. keeps.
  apply keeps_terminateBackends.
Qed.

Lemma keeps_route req : preserves wellFormed (proxyHandler_route req).
Proof. unfold proxyHandler_route. keeps. Qed.

Lemma keeps_call body : preserves wellFormed (spawnBackend_call body).
Proof. unfold spawnBackend_call. keeps. Qed.

Lemma keeps_respond answer : preserves wellFormed (proxyHandler_respond answer).
Proof. unfold proxyHandler_respond. keeps. Qed.

Lemma keeps_tail result : preserves wellFormed (spawnBackend_tail result).
Proof. unfold spawnBackend_tail. keeps. Qed.

Lemma keeps_unregister n :
  preserves wellFormed
    (modify (fun s => set_devBackends (JsMap.delete n (devBackends s)) s)).
Proof. apply pres_modify. intros s. apply (wf_unregistered n). Qed.

Lemma keeps_onStatus n r curStatus : preserves wellFormed (onStatus n r curStatus).
Proof.
  unfold onStatus. keeps.
  - apply keeps_assign; reflexivity || (intros b; exact id).
  - apply keeps_unregister.
Qed.

Lemma keeps_onLog n r log : preserves wellFormed (onLog n r log).
Proof. unfold onLog. keeps. Qed.

Lemma keeps_ended f n r : preserves wellFormed (streamStatusAndLogs_ended f n r).
Proof.
  unfold streamStatusAndLogs_ended. keeps.
  - apply keeps_assign; reflexivity || (intros b0; discriminate).
  - apply pres_modify. intros s H. apply wf_alter_frames; [assumption|reflexivity].
Qed.

Lemma keeps_resume img body result now :
  preserves wellFormed (spawnBackend_resume img body result now).
Proof.
  intros s H. unfold spawnBackend_resume, bind, gets.
  destruct (JsMap.has (name result) (devBackends s)) eqn:Hhas.
  - destruct (spawned result); [exact H|].
    destruct (JsMap.get (name result) (devBackends s)) as [r|]; [|exact H].
    unfold deref. destruct (heap s !! r) as [b|]; [|exact H].
    destruct (negb (String.eqb (imageId b) img)).
    + rewrite updateFooterAndLog_logged. apply wf_logged. exact H.
    + apply keeps_tail. exact H.
  - destruct (spawned result).
    + unfold modify, alloc. rewrite updateFooterAndLog_logged.
      apply keeps_tail. apply wf_logged.
      apply (wf_registered (name result) _ (set_totalBackendsSpawned _ s)).
      * apply wf_set_totalBackendsSpawned. exact H.
      * apply has_false_get. exact Hhas.
      * reflexivity.
      * reflexivity.
      * reflexivity.
    + rewrite updateFooterAndLog_logged. apply wf_logged. exact H.
Qed.

Lemma keeps_closeRemaining fuel : preserves wellFormed (closeRemaining fuel).
Proof.
  induction fuel as [|fuel IH]; cbn [closeRemaining]; [apply pres_ret|].
  keeps; try apply keeps_unregister; exact IH.
Qed.

Lemma keeps_cleanup : preserves wellFormed start_cleanup.
Proof. unfold start_cleanup. keeps; apply keeps_closeRemaining. Qed.

Lemma keeps_exit rejected : preserves wellFormed (start_exit rejected).
Proof. unfold start_exit. keeps. apply keeps_terminateAll. Qed.

Lemma step_wellFormed s s' : step s s' -> wellFormed s -> wellFormed s'.
Proof.
  intros Hstep H. destruct Hstep.
  - apply keeps_start_build. exact H.
  - apply keeps_start_pushed. exact H.
  - apply keeps_listening. exact H.
  - apply keeps_build. exact H.
  - apply keeps_route. exact H.
  - apply keeps_call. exact H.
  - revert H. apply (pres_bind wellFormed); [apply keeps_resume|apply keeps_respond].
  - apply keeps_onStatus. exact H.
  - apply keeps_onLog. exact H.
  - apply wf_alter_frames; [exact H|reflexivity].
  - apply wf_alter_frames; [exact H|reflexivity].
  - apply keeps_ended. exact H.
  - apply keeps_rebuild_resume. exact H.
  - apply keeps_terminateAll. exact H.
  - apply keeps_exit. exact H.
  - apply keeps_cleanup. exact H.
Qed.

Lemma reachable_wellFormed o s : reachable o s -> wellFormed s.
Proof.
  induction 1 as [|s s' _ IH Hstep]; [apply wf_initial|].
  eapply step_wellFormed; eassumption.
Qed.

(** C9: in every state the session can be in between two segments of
    the program, whatever requests, answers, stream events, rebuilds and
    shutdown steps led there, every registry entry whose record has
    [isStreaming = true] holds a closer. *)
Theorem streaming_entries_hold_closer o s n r b :
  reachable o s ->
  JsMap.get n (devBackends s) = Some r ->
  heap s !! r = Some b ->
  isStreaming b = true ->
  exists closer, closeStreams b = Some closer.
Proof.
  intros Hreach Hget Hb Hstr.
  pose proof (wf_streaming s (reachable_wellFormed o s Hreach) r b Hb Hstr) as Hc.
  destruct (closeStreams b) as [closer|]; [eauto|contradiction].
Qed.

Lemma streaming_entries_hold_closer_witness :
  exists closer,
    closeStreams {| spawnResult := Demo.fresh "b1"; imageId := "img1"; spawnTime := 5;
                    lastStatus := None; lock := None; isStreaming := true;
                    color := cyan; closeStreams := Some 0 |} = Some closer.
Proof.
  apply (streaming_entries_hold_closer Demo.options Demo.oneBackend "b1" 0).
  - exact oneBackend_reachable.
  - reflexivity.
  - reflexivity.
  - reflexivity.
Defined.


(** ** The hypotheses of the properties above, in a running session *)

(** In a session that runs, every entry of the registry points to a
    record, the record of its name. *)
Lemma reachable_pointTo o s :
  reachable o s ->
  exists bs,
    pointTo s (JsMap.values (devBackends s)) bs
    /\ map (fun b => name (spawnResult b)) bs = JsMap.keys (devBackends s).
Proof.
  intros Hreach. pose proof (reachable_wellFormed o s Hreach) as Hwf.
  pose proof (wf_refs s Hwf) as Hrefs. unfold pointTo.
  induction (devBackends s) as [|[n r] m IH].
  - exists []. split; [constructor|reflexivity].
  - destruct IH as (bs & Hbs & Hnames).
    { intros n' r' Hin. apply Hrefs. right. exact Hin. }
    destruct (Hrefs n r) as (b & Hb & Hn); [left; reflexivity|].
    exists (b :: bs). split; [constructor; assumption|].
    cbn. rewrite Hnames, Hn. reflexivity.
Qed.

(** In a session that runs, the cleanup of the shutdown always completes
    and leaves the registry empty. *)
Lemma reachable_cleanup_completes o s :
  reachable o s ->
  exists s', start_cleanup s = Val tt s' /\ devBackends s' = [].
Proof.
  intros Hreach. pose proof (reachable_wellFormed o s Hreach) as Hwf.
  assert (Hval : refsValid s).
  { intros n r Hin. destruct (wf_refs s Hwf n r Hin) as (b & Hb & _). eauto. }
  unfold start_cleanup, clearFooter, bind, gets. cbn [ret].
  destruct (closeRemaining_effect (JsMap.size (devBackends s)) s (wf_keys s Hwf) Hval)
    as (s1 & Hrun & Hempty & _); [unfold JsMap.size; lia|].
  rewrite Hrun.
  destruct (watch (opts s1)); unfold emit, modify; cbn; eauto.
Qed.

(** In a session that runs, the names [rebuild] has terminated are names
    of the registry. *)
Lemma reachable_rebuild_terminates_entries o s img rejected n :
  reachable o s ->
  In n (terminateCalls (trace (stateOf (rebuild_resume img None rejected s))))
  -> In n (terminateCalls (trace s)) \/ In n (JsMap.keys (devBackends s)).
Proof.
  intros Hreach. destruct (reachable_pointTo o s Hreach) as (bs & Hbs & Hnames).
  rewrite (rebuild_resume_state img rejected s bs Hbs). unfold rebuiltState.
  assert (Hsub : forall x, In x (outdated img bs) -> In x (JsMap.keys (devBackends s))).
  { intros x Hx. rewrite <- Hnames. unfold outdated in Hx.
    apply in_map_iff in Hx as (b & <- & Hb). apply List.filter_In in Hb as [Hb _].
    apply (in_map (fun b => name (spawnResult b))). exact Hb. }
  destruct (Nat.ltb 0 (length (outdated img bs))); cbn;
    rewrite !terminateCalls_app; cbn; rewrite ?terminateCalls_map, ?app_nil_r;
    intros Hin.
  - apply in_app_or in Hin as [Hin|Hin]; [left; exact Hin|right; apply Hsub; exact Hin].
  - left. exact Hin.
Qed.

(** ** Further properties *)

(** *** Spawning a new backend *)

Lemma insert_last {A} (l : list A) (x y : A) : <[length l := y]> (l ++ [x]) = l ++ [y].
Proof.
  rewrite insert_app_r_alt by lia. rewrite Nat.sub_diag. reflexivity.
Qed.

Lemma lookup_last {A} (l : list A) (x : A) : (l ++ [x]) !! length l = Some x.
Proof. rewrite lookup_app_r by lia. rewrite Nat.sub_diag. reflexivity. Qed.

(** The session after a new backend has been registered and attached. *)
Lemma resume_new img body result now s :
  JsMap.get (name result) (devBackends s) = None ->
  spawned result = true ->
  exists s',
    spawnBackend_resume img body result now s = Val (inl result) s'
    /\ devBackends s' = devBackends s ++ [(name result, length (heap s))]
    /\ heap s' = heap s ++ [spawnedRecord img body result now s]
    /\ frames s' = frames s ++ [attachedFrame (name result) (length (heap s))]
    /\ totalBackendsSpawned s' = S (totalBackendsSpawned s)
    /\ currentImageId s' = currentImageId s
    /\ opts s' = opts s
    /\ trace s' = trace s ++
         [ELog (Plain EmptyString); ELog (Plain ("Spawned backend: " ++ name result)); EFooter;
          ELog (Plain ("Streaming status and logs for " ++ name result ++ "..."));
          ELog (Plain EmptyString); EFooter;
          EStreamStatus (name result) (length (frames s));
          EStreamLogs (name result) (length (frames s)); EFooter].
Proof.
  intros Hnone Hsp. unfold spawnBackend_resume, bind, gets.
  assert (Hhas : JsMap.has (name result) (devBackends s) = false)
    by (apply has_false_get; assumption).
  rewrite Hhas, Hsp. unfold modify, alloc. rewrite updateFooterAndLog_logged.
  match goal with
  | |- context [spawnBackend_tail result ?s1] =>
      rewrite (tail_attaches result (length (heap s))
                 {| spawnResult := result; imageId := img; spawnTime := now;
                    lastStatus := None; lock := body_lock body; isStreaming := false;
                    color := nth (totalBackendsSpawned s mod length BACKEND_LOG_COLORS)
                               BACKEND_LOG_COLORS cyan;
                    closeStreams := None |} s1)
  end.
  - eexists. split; [reflexivity|]. rewrite Hsp. cbn.
    rewrite set_absent by assumption. rewrite insert_last.
    rewrite <- !app_assoc. cbn. rewrite Nat.add_1_r. repeat split.
  - cbn. apply get_set_eq.
  - cbn. apply lookup_last.
  - reflexivity.
Qed.

(** X1: a spawn asked for before any image exists, or while the image
    identifier is the empty text, throws and changes nothing: no remote
    call is made. *)
Theorem spawn_without_image body result now s :
  currentImageId s = None \/ currentImageId s = Some EmptyString ->
  spawnBackend body result now s = Exn errNoImage s.
Proof.
  intros [H|H]; unfold spawnBackend, spawnBackend_call, bind, gets; rewrite H; reflexivity.
Qed.

Lemma spawn_without_image_witness :
  spawnBackend emptyBody (Demo.fresh "b1") 1%Z (initialState Demo.options)
    = Exn errNoImage (initialState Demo.options).
Proof.
  apply (spawn_without_image emptyBody (Demo.fresh "b1") 1%Z (initialState Demo.options)).
  left. reflexivity.
Defined.

(** X2: a remote answer with [spawned = true] under a name the registry
    does not have is a success: the name is registered last, under a new
    record that holds the image captured at the call, the result, the
    time, the lock of the request and the next colour, with its streams
    attached; the records there were are untouched and the count of
    backends spawned grows by one. *)
Theorem spawn_new_registers img body result now s :
  JsMap.get (name result) (devBackends s) = None ->
  spawned result = true ->
  exists s',
    spawnBackend_resume img body result now s = Val (inl result) s'
    /\ devBackends s' = devBackends s ++ [(name result, length (heap s))]
    /\ JsMap.get (name result) (devBackends s') = Some (length (heap s))
    /\ heap s' !! length (heap s) = Some (spawnedRecord img body result now s)
    /\ (forall r b, heap s !! r = Some b -> heap s' !! r = Some b)
    /\ frames s' = frames s ++ [attachedFrame (name result) (length (heap s))]
    /\ totalBackendsSpawned s' = S (totalBackendsSpawned s).
Proof.
  intros Hnone Hsp.
  destruct (resume_new img body result now s Hnone Hsp)
    as (s' & Hrun & Hreg & Hheap & Hfr & Htot & _).
  exists s'. split; [exact Hrun|]. split; [exact Hreg|].
  split.
  { rewrite Hreg, <- (set_absent (name result) (length (heap s))) by assumption.
    apply get_set_eq. }
  split; [rewrite Hheap; apply lookup_last|].
  split.
  { intros r b Hb. rewrite Hheap. rewrite lookup_app_l by (eapply lookup_lt_Some; eassumption).
    exact Hb. }
  split; assumption.
Qed.

Lemma spawn_new_registers_witness :
  exists s',
    spawnBackend_resume "img1" emptyBody (Demo.fresh "b2") 6%Z Demo.oneBackend
      = Val (inl (Demo.fresh "b2")) s'
    /\ devBackends s'
       = devBackends Demo.oneBackend ++ [(name (Demo.fresh "b2"), length (heap Demo.oneBackend))]
    /\ JsMap.get (name (Demo.fresh "b2")) (devBackends s') = Some (length (heap Demo.oneBackend))
    /\ heap s' !! length (heap Demo.oneBackend)
       = Some (spawnedRecord "img1" emptyBody (Demo.fresh "b2") 6%Z Demo.oneBackend)
    /\ (forall r b, heap Demo.oneBackend !! r = Some b -> heap s' !! r = Some b)
    /\ frames s'
       = frames Demo.oneBackend
         ++ [attachedFrame (name (Demo.fresh "b2")) (length (heap Demo.oneBackend))]
    /\ totalBackendsSpawned s' = S (totalBackendsSpawned Demo.oneBackend).
Proof.
  apply (spawn_new_registers "img1" emptyBody (Demo.fresh "b2") 6%Z Demo.oneBackend);
    reflexivity.
Defined.

(** *** The records are kept *)

Lemma sameIdentity_refl b : sameIdentity b b.
Proof. repeat split. Qed.

Lemma recordsKept_refl s : recordsKept s s.
Proof. intros r b Hb. exists b. split; [exact Hb|apply sameIdentity_refl]. Qed.

Lemma recordsKept_trans s1 s2 s3 :
  recordsKept s1 s2 -> recordsKept s2 s3 -> recordsKept s1 s3.
Proof.
  intros H12 H23 r b Hb.
  destruct (H12 r b Hb) as (b2 & Hb2 & I2).
  destruct (H23 r b2 Hb2) as (b3 & Hb3 & I3).
  exists b3. split; [exact Hb3|].
  destruct I2 as (?&?&?&?&?), I3 as (?&?&?&?&?). repeat split; congruence.
Qed.

Lemma recordsKept_same_heap s s' : heap s' = heap s -> recordsKept s s'.
Proof. intros H r b Hb. exists b. rewrite H. split; [exact Hb|apply sameIdentity_refl]. Qed.

Section KeepsRecords.
Lemma kr_ret {A} (a : A) : keepsRecords (ret a).
Proof. intros s. apply recordsKept_refl. Qed.

Lemma kr_throw {A} e : keepsRecords (@throw A e).
Proof. intros s. apply recordsKept_refl. Qed.

Lemma kr_gets {A} (f : State -> A) : keepsRecords (gets f).
Proof. intros s. apply recordsKept_refl. Qed.

Lemma kr_bind {A B} (m : M A) (k : A -> M B) :
  keepsRecords m -> (forall a, keepsRecords (k a)) -> keepsRecords (bind m k).
Proof.
  intros Hm Hk s. unfold bind. specialize (Hm s).
  destruct (m s) as [a s1|e s1]; cbn in *; [|exact Hm].
  eapply recordsKept_trans; [exact Hm|apply Hk].
Qed.

Lemma kr_detached {A} (m : M A) : keepsRecords m -> keepsRecords (detached m).
Proof. intros Hm s. unfold detached. specialize (Hm s). destruct (m s); exact Hm. Qed.

Lemma kr_forEach {A} (l : list A) (body : A -> M unit) :
  (forall x, keepsRecords (body x)) -> keepsRecords (forEach l body).
Proof.
  intros Hbody. induction l as [|x l IH]; cbn [forEach]; [apply kr_ret|].
  apply kr_bind; [apply Hbody|intros _; exact IH].
Qed.

Lemma kr_modify (f : State -> State) :
  (forall s, heap (f s) = heap s) -> keepsRecords (modify f).
Proof. intros Hf s. apply recordsKept_same_heap. apply Hf. Qed.

Lemma kr_emit e : keepsRecords (emit e).
Proof. apply kr_modify. reflexivity. Qed.

Lemma kr_deref r : keepsRecords (deref r).
Proof. intros s. unfold deref. destruct (heap s !! r); apply recordsKept_refl. Qed.

Lemma kr_alloc b : keepsRecords (alloc b).
Proof.
  intros s r b0 Hb0. exists b0. cbn.
  rewrite lookup_app_l by (eapply lookup_lt_Some; eassumption).
  split; [exact Hb0|apply sameIdentity_refl].
Qed.

Lemma kr_assign r g :
  (forall b, sameIdentity b (g b)) -> keepsRecords (assign r g).
Proof.
  intros Hg s. unfold assign, bind, deref, modify.
  destruct (heap s !! r) as [b|] eqn:Hb; [|apply recordsKept_refl]. cbn.
  intros r' b0 Hb0. destruct (decide (r = r')) as [<-|Hne].
  - exists (g b). cbn. rewrite list_lookup_insert_eq by (eapply lookup_lt_Some; eassumption).
    split; [reflexivity|]. assert (b0 = b) by congruence. subst. apply Hg.
  - exists b0. cbn. rewrite list_lookup_insert_ne by assumption.
    split; [exact Hb0|apply sameIdentity_refl].
Qed.
End KeepsRecords.

Ltac keepsRecords :=
  repeat match goal with
    | |- keepsRecords (ret _) => apply kr_ret
    | |- keepsRecords (throw _) => apply kr_throw
    | |- keepsRecords (gets _) => apply kr_gets
    | |- keepsRecords (emit _) => apply kr_emit
    | |- keepsRecords (deref _) => apply kr_deref
    | |- keepsRecords (alloc _) => apply kr_alloc
    | |- keepsRecords clearFooter => apply kr_ret
    | |- keepsRecords (assign _ _) => apply kr_assign; intros ?; repeat split
    | |- keepsRecords (modify _) => apply kr_modify; reflexivity
    | |- keepsRecords (detached _) => apply kr_detached
    | |- keepsRecords (forEach _ _) => apply kr_forEach; intros ?
    | |- keepsRecords (bind _ _) => apply kr_bind; [|intros ?]
    | |- keepsRecords (match ?x with _ => _ end) => destruct x
    | |- keepsRecords (if ?x then _ else _) => destruct x
    | |- keepsRecords (let c := _ in _) => cbv zeta
    end.

Lemma kr_log ls : keepsRecords (updateFooterAndLog ls).
Proof. unfold updateFooterAndLog. keepsRecords. Qed.

Lemma kr_invokeCloser f : keepsRecords (invokeCloser f).
Proof. unfold invokeCloser. keepsRecords. Qed.

Lemma kr_attach n : keepsRecords (streamStatusAndLogs n).
Proof. unfold streamStatusAndLogs, openStreams. keepsRecords. Qed.

Lemma kr_derefAll refs : keepsRecords (derefAll refs).
Proof. induction refs as [|r refs IH]; cbn [derefAll]; keepsRecords. exact IH. Qed.

Lemma kr_terminateBackends backends rejected : keepsRecords (terminateBackends backends rejected).
Proof. unfold terminateBackends. keepsRecords; apply kr_log. Qed.

Lemma kr_terminateAll rejected : keepsRecords (terminateAllDevbackends rejected).
Proof.
  unfold terminateAllDevbackends, backendValues.
  keepsRecords; try apply kr_log; try apply kr_derefAll; apply kr_terminateBackends.
Qed.

Lemma kr_build built : keepsRecords (buildSessionBackend_build built).
Proof. unfold buildSessionBackend_build. keepsRecords; apply kr_log. Qed.

Lemma kr_pushed img pushRejected : keepsRecords (buildSessionBackend_pushed img pushRejected).
Proof. unfold buildSessionBackend_pushed. keepsRecords; apply kr_log. Qed.

Lemma kr_tail result : keepsRecords (spawnBackend_tail result).
Proof. unfold spawnBackend_tail. keepsRecords; try apply kr_log; apply kr_attach. Qed.

Lemma kr_resume img body result now : keepsRecords (spawnBackend_resume img body result now).
Proof. unfold spawnBackend_resume. keepsRecords; try apply kr_log; apply kr_tail. Qed.

Lemma kr_closeRemaining fuel : keepsRecords (closeRemaining fuel).
Proof.
  induction fuel as [|fuel IH]; cbn [closeRemaining]; keepsRecords;
    try apply kr_invokeCloser; exact IH.
Qed.

Lemma step_keeps_records s s' : step s s' -> recordsKept s s'.
Proof.
  intros Hstep. destruct Hstep.
  - revert s. change (keepsRecords (start_build built)).
    unfold start_build. keepsRecords. apply kr_build.
  - revert s. change (keepsRecords (start_pushed img pushRejected)).
    unfold start_pushed. keepsRecords; try apply kr_log. apply kr_pushed.
  - revert s. change (keepsRecords spawnProxy_listening). apply kr_log.
  - apply kr_build.
  - revert s. change (keepsRecords (proxyHandler_route req)).
    unfold proxyHandler_route. keepsRecords; apply kr_log.
  - revert s. change (keepsRecords (proxyHandler_spawn parsed)).
    unfold proxyHandler_spawn, spawnBackend_call. keepsRecords.
  - revert s.
    change (keepsRecords (answer <- spawnBackend_resume img body result now ;;
                          proxyHandler_respond answer)).
    apply kr_bind; [apply kr_resume|intros answer].
    unfold proxyHandler_respond. keepsRecords.
  - revert H. revert s.
    assert (Hk : keepsRecords (onStatus (backendName fr) (backend fr) curStatus)).
    { unfold onStatus. keepsRecords; try apply kr_log; apply kr_invokeCloser. }
    intros s _. apply Hk.
  - assert (Hk : keepsRecords (onLog (backendName fr) (backend fr) log)).
    { unfold onLog. keepsRecords. apply kr_log. }
    apply Hk.
  - apply recordsKept_same_heap. reflexivity.
  - apply recordsKept_same_heap. reflexivity.
  - assert (Hk : keepsRecords (streamStatusAndLogs_ended f (backendName fr) (backend fr))).
    { unfold streamStatusAndLogs_ended. keepsRecords. apply kr_log. }
    apply Hk.
  - revert s. change (keepsRecords (rebuild_resume img pushRejected rejected)).
    unfold rebuild_resume, backendValues.
    keepsRecords; try apply kr_log; try apply kr_derefAll;
      try apply kr_pushed; apply kr_terminateBackends.
  - apply kr_terminateAll.
  - revert s. change (keepsRecords (start_exit rejected)).
    unfold start_exit. keepsRecords. apply kr_terminateAll.
  - revert s. change (keepsRecords start_cleanup).
    unfold start_cleanup. keepsRecords. apply kr_closeRemaining.
Qed.

Lemma runs_keep_records s s' : runs s s' -> recordsKept s s'.
Proof.
  induction 1 as [s|s s' s'' _ IH Hstep]; [apply recordsKept_refl|].
  eapply recordsKept_trans; [exact IH|apply step_keeps_records; exact Hstep].
Qed.

(** X3: whatever the session goes through, a backend's record is never
    dropped from the store and its [imageId], [spawnResult], [spawnTime],
    [lock] and [color] are never written again. *)
Theorem identity_fields_never_rewritten s s' r b :
  runs s s' ->
  heap s !! r = Some b ->
  exists b',
    heap s' !! r = Some b'
    /\ imageId b' = imageId b /\ spawnResult b' = spawnResult b
    /\ spawnTime b' = spawnTime b /\ lock b' = lock b /\ color b' = color b.
Proof.
  intros Hruns Hb. destruct (runs_keep_records s s' Hruns r b Hb) as (b' & Hb' & I).
  destruct I as (?&?&?&?&?). exists b'. auto 10.
Qed.

Lemma identity_fields_never_rewritten_witness :
  exists b',
    heap (stateOf (rebuild_resume "img2" None None
            (stateOf (buildSessionBackend_build (inr "img2") Demo.oneBackend)))) !! 0
      = Some b'
    /\ imageId b' = imageId (spawnedRecord "img1" emptyBody (Demo.fresh "b1") 5%Z Demo.started)
    /\ spawnResult b' = spawnResult (spawnedRecord "img1" emptyBody (Demo.fresh "b1") 5%Z Demo.started)
    /\ spawnTime b' = spawnTime (spawnedRecord "img1" emptyBody (Demo.fresh "b1") 5%Z Demo.started)
    /\ lock b' = lock (spawnedRecord "img1" emptyBody (Demo.fresh "b1") 5%Z Demo.started)
    /\ color b' = color (spawnedRecord "img1" emptyBody (Demo.fresh "b1") 5%Z Demo.started).
Proof.
  apply (identity_fields_never_rewritten Demo.oneBackend
           (stateOf (rebuild_resume "img2" None None
              (stateOf (buildSessionBackend_build (inr "img2") Demo.oneBackend))))
           0 (spawnedRecord "img1" emptyBody (Demo.fresh "b1") 5%Z Demo.started)).
  - apply (runs_step _ _ _ (runs_step _ _ _ (runs_refl Demo.oneBackend)
                              (step_rebuild_build _ (inr "img2")))
             (step_rebuild_resume _ "img2" None None)).
  - vm_compute. reflexivity.
Defined.

(** *** The registry and the streams *)

(** X4: the colours go round: two new backends get the same colour
    exactly when the numbers of backends spawned before them agree
    modulo four. *)
Theorem colours_round_robin img1 img2 body1 body2 result1 result2 now1 now2 s1 s2 :
  JsMap.get (name result1) (devBackends s1) = None -> spawned result1 = true ->
  JsMap.get (name result2) (devBackends s2) = None -> spawned result2 = true ->
  exists b1 b2,
    heap (stateOf (spawnBackend_resume img1 body1 result1 now1 s1)) !! length (heap s1) = Some b1
    /\ heap (stateOf (spawnBackend_resume img2 body2 result2 now2 s2)) !! length (heap s2) = Some b2
    /\ (color b1 = color b2 <->
        totalBackendsSpawned s1 mod 4 = totalBackendsSpawned s2 mod 4).
Proof.
  intros Hn1 Hs1 Hn2 Hs2.
  destruct (resume_new img1 body1 result1 now1 s1 Hn1 Hs1) as (s1' & Hrun1 & _ & Hheap1 & _).
  destruct (resume_new img2 body2 result2 now2 s2 Hn2 Hs2) as (s2' & Hrun2 & _ & Hheap2 & _).
  rewrite Hrun1, Hrun2. cbn [stateOf]. rewrite Hheap1, Hheap2, !lookup_last.
  eexists. eexists. split; [reflexivity|]. split; [reflexivity|].
  cbn [color spawnedRecord]. change (length BACKEND_LOG_COLORS) with 4.
  pose proof (Nat.mod_upper_bound (totalBackendsSpawned s1) 4 ltac:(lia)) as B1.
  pose proof (Nat.mod_upper_bound (totalBackendsSpawned s2) 4 ltac:(lia)) as B2.
  destruct (totalBackendsSpawned s1 mod 4) as [|[|[|[|?]]]]; try lia;
    destruct (totalBackendsSpawned s2 mod 4) as [|[|[|[|?]]]]; try lia;
    cbn; split; congruence.
Qed.

Lemma colours_round_robin_witness :
  exists b1 b2,
    heap (stateOf (spawnBackend_resume "img1" emptyBody (Demo.fresh "b3") 7%Z Demo.oneBackend))
      !! length (heap Demo.oneBackend) = Some b1
    /\ heap (stateOf (spawnBackend_resume "img1" emptyBody (Demo.fresh "b3") 7%Z Demo.twoBackends))
      !! length (heap Demo.twoBackends) = Some b2
    /\ (color b1 = color b2 <->
        totalBackendsSpawned Demo.oneBackend mod 4 = totalBackendsSpawned Demo.twoBackends mod 4).
Proof.
  apply (colours_round_robin "img1" "img1" emptyBody emptyBody (Demo.fresh "b3") (Demo.fresh "b3")
           7%Z 7%Z Demo.oneBackend Demo.twoBackends); reflexivity.
Defined.

(** X5: in a session that runs, the registry holds one entry per name,
    and the entry of a name points to the record spawned under that
    name. *)
Theorem registry_keyed_by_name o s :
  reachable o s ->
  List.NoDup (JsMap.keys (devBackends s))
  /\ forall n r, JsMap.get n (devBackends s) = Some r ->
       exists b, heap s !! r = Some b /\ name (spawnResult b) = n.
Proof.
  intros Hreach. pose proof (reachable_wellFormed o s Hreach) as Hwf.
  split; [apply (wf_keys s Hwf)|].
  intros n r Hget. apply (wf_refs s Hwf). apply get_In. exact Hget.
Qed.

Lemma registry_keyed_by_name_witness :
  List.NoDup (JsMap.keys (devBackends Demo.oneBackend))
  /\ forall n r, JsMap.get n (devBackends Demo.oneBackend) = Some r ->
       exists b, heap Demo.oneBackend !! r = Some b /\ name (spawnResult b) = n.
Proof. apply (registry_keyed_by_name Demo.options Demo.oneBackend oneBackend_reachable). Defined.

Lemma closeCount_closerInvoked_ne k f f' s :
  f <> f' -> closeCount k f' (closerInvoked f s) = closeCount k f' s.
Proof.
  intros Hne. unfold closeCount, closerInvoked. cbn.
  rewrite list_lookup_alter_ne by assumption. reflexivity.
Qed.

Lemma closeCount_attached_new k n r b s :
  closeCount k (length (frames s)) (attached n r b s) = 0.
Proof.
  unfold closeCount, attached. cbn. rewrite lookup_last. destruct k; reflexivity.
Qed.

Lemma closeCount_attached_old k f n r b s :
  f < length (frames s) -> closeCount k f (attached n r b s) = closeCount k f s.
Proof.
  intros Hlt. unfold closeCount, attached. cbn. rewrite lookup_app_l by assumption. reflexivity.
Qed.

(** X6: attaching the streams of a registered backend opens one new pair,
    marks the record as streaming and gives it the closer of that pair:
    the closer, once invoked, has called [close()] once on each stream
    of the pair and on no stream opened before. *)
Theorem closer_closes_its_pair n r b s :
  JsMap.get n (devBackends s) = Some r ->
  heap s !! r = Some b ->
  exists s1 s2 b1,
    streamStatusAndLogs n s = Val (length (frames s)) s1
    /\ heap s1 !! r = Some b1
    /\ isStreaming b1 = true
    /\ closeStreams b1 = Some (length (frames s))
    /\ devBackends s1 = devBackends s
    /\ invokeCloser (length (frames s)) s1 = Val tt s2
    /\ (forall k, closeCount k (length (frames s)) s1 = 0
                  /\ closeCount k (length (frames s)) s2 = 1)
    /\ (forall k f, f < length (frames s) -> closeCount k f s2 = closeCount k f s).
Proof.
  intros Hget Hb.
  assert (Hlt : r < length (heap s)) by (eapply lookup_lt_Some; eassumption).
  exists (attached n r b s), (closerInvoked (length (frames s)) (attached n r b s)),
         (attachedBackend (length (frames s)) b).
  split; [apply streamStatusAndLogs_attaches; assumption|].
  split; [cbn; apply list_lookup_insert_eq; assumption|].
  split; [reflexivity|]. split; [reflexivity|]. split; [reflexivity|].
  split; [apply invokeCloser_state|].
  split.
  - intros k. split; [apply closeCount_attached_new|].
    rewrite (closeCount_closerInvoked k _ (attachedFrame n r)).
    + rewrite closeCount_attached_new. reflexivity.
    + cbn. apply lookup_last.
  - intros k f Hf. rewrite closeCount_closerInvoked_ne by lia.
    apply closeCount_attached_old. exact Hf.
Qed.

Lemma closer_closes_its_pair_witness :
  exists s1 s2 b1,
    streamStatusAndLogs "b1" Demo.streamsOver = Val (length (frames Demo.streamsOver)) s1
    /\ heap s1 !! 0 = Some b1
    /\ isStreaming b1 = true
    /\ closeStreams b1 = Some (length (frames Demo.streamsOver))
    /\ devBackends s1 = devBackends Demo.streamsOver
    /\ invokeCloser (length (frames Demo.streamsOver)) s1 = Val tt s2
    /\ (forall k, closeCount k (length (frames Demo.streamsOver)) s1 = 0
                  /\ closeCount k (length (frames Demo.streamsOver)) s2 = 1)
    /\ (forall k f, f < length (frames Demo.streamsOver) ->
                    closeCount k f s2 = closeCount k f Demo.streamsOver).
Proof.
  apply (closer_closes_its_pair "b1" 0
           {| spawnResult := Demo.fresh "b1"; imageId := "img1"; spawnTime := 5;
              lastStatus := None; lock := None; isStreaming := false;
              color := cyan; closeStreams := Some 0 |} Demo.streamsOver); reflexivity.
Defined.

Lemma lastDelivered_cons ev evs before :
  lastDelivered (ev :: evs) before
  = lastDelivered evs (match ev with StatusUpdate st => Some st | LogLine _ => before end).
Proof. reflexivity. Qed.

(** Log lines and statuses among Loading, Starting and Ready, delivered
    to the callbacks of one backend. *)
Lemma live_events n r evs :
  forall s b,
    heap s !! r = Some b ->
    terminalUpdates evs = 0 ->
    exists s',
      forEach evs (deliver n r) s = Val tt s'
      /\ devBackends s' = devBackends s
      /\ frames s' = frames s
      /\ heap s' = <[r := set_lastStatus (lastDelivered evs (lastStatus b)) b]> (heap s).
Proof.
  induction evs as [|ev evs IH]; intros s b Hb Hterm.
  - exists s. cbn. repeat split. destruct b. cbn. symmetry. apply list_insert_id. exact Hb.
  - assert (Hlt : r < length (heap s)) by (eapply lookup_lt_Some; eassumption).
    cbn [forEach]. unfold bind. rewrite lastDelivered_cons.
    destruct ev as [st|l]; cbn [deliver].
    + assert (Hlive : isLive st = true).
      { unfold terminalUpdates in Hterm. cbn in Hterm.
        destruct (isLive st); [reflexivity|cbn in Hterm; lia]. }
      rewrite (onStatus_live n r b) by assumption.
      destruct (IH (statusNoted n r b st s) (set_lastStatus (Some st) b))
        as (s' & Hrun & Hreg & Hfr & Hheap).
      { cbn. apply list_lookup_insert_eq. assumption. }
      { unfold terminalUpdates in *. cbn in Hterm. rewrite Hlive in Hterm. exact Hterm. }
      exists s'. split; [exact Hrun|]. rewrite Hreg, Hfr, Hheap. cbn.
      rewrite list_insert_insert_eq. repeat split.
    + rewrite (onLog_state n r b) by assumption.
      destruct (IH (logged [Chalk (color b) ("[" ++ n ++ "] " ++ l)] s) b)
        as (s' & Hrun & Hreg & Hfr & Hheap); [exact Hb|exact Hterm|].
      exists s'. split; [exact Hrun|]. rewrite Hreg, Hfr, Hheap. repeat split.
Qed.

(** X7: log lines and status updates among Loading, Starting and Ready
    never throw, never remove an entry, never close a stream and write
    nothing but [lastStatus] of their own backend, which ends as the
    last status delivered. *)
Theorem live_events_only_write_lastStatus n r evs s b :
  heap s !! r = Some b ->
  terminalUpdates evs = 0 ->
  exists s' b',
    forEach evs (deliver n r) s = Val tt s'
    /\ devBackends s' = devBackends s
    /\ frames s' = frames s
    /\ heap s' !! r = Some b'
    /\ lastStatus b' = lastDelivered evs (lastStatus b)
    /\ isStreaming b' = isStreaming b /\ closeStreams b' = closeStreams b
    /\ (forall r', r' <> r -> heap s' !! r' = heap s !! r').
Proof.
  intros Hb Hterm.
  assert (Hlt : r < length (heap s)) by (eapply lookup_lt_Some; eassumption).
  destruct (live_events n r evs s b Hb Hterm) as (s' & Hrun & Hreg & Hfr & Hheap).
  exists s', (set_lastStatus (lastDelivered evs (lastStatus b)) b).
  split; [exact Hrun|]. split; [exact Hreg|]. split; [exact Hfr|].
  rewrite Hheap. split; [apply list_lookup_insert_eq; assumption|].
  split; [reflexivity|]. split; [reflexivity|]. split; [reflexivity|].
  intros r' Hne. apply list_lookup_insert_ne. congruence.
Qed.

Lemma live_events_only_write_lastStatus_witness :
  exists s' b',
    forEach [StatusUpdate "Loading"; LogLine "listening"; StatusUpdate "Ready"]
            (deliver "b1" 0) Demo.oneBackend = Val tt s'
    /\ devBackends s' = devBackends Demo.oneBackend
    /\ frames s' = frames Demo.oneBackend
    /\ heap s' !! 0 = Some b'
    /\ lastStatus b' = lastDelivered [StatusUpdate "Loading"; LogLine "listening"; StatusUpdate "Ready"]
                         (lastStatus {| spawnResult := Demo.fresh "b1"; imageId := "img1";
                                        spawnTime := 5; lastStatus := None; lock := None;
                                        isStreaming := true; color := cyan;
                                        closeStreams := Some 0 |})
    /\ isStreaming b' = isStreaming {| spawnResult := Demo.fresh "b1"; imageId := "img1";
                                        spawnTime := 5; lastStatus := None; lock := None;
                                        isStreaming := true; color := cyan;
                                        closeStreams := Some 0 |}
    /\ closeStreams b' = closeStreams {| spawnResult := Demo.fresh "b1"; imageId := "img1";
                                        spawnTime := 5; lastStatus := None; lock := None;
                                        isStreaming := true; color := cyan;
                                        closeStreams := Some 0 |}
    /\ (forall r', r' <> 0 -> heap s' !! r' = heap Demo.oneBackend !! r').
Proof.
  apply (live_events_only_write_lastStatus "b1" 0
           [StatusUpdate "Loading"; LogLine "listening"; StatusUpdate "Ready"]
           Demo.oneBackend
           {| spawnResult := Demo.fresh "b1"; imageId := "img1";
              spawnTime := 5; lastStatus := None; lock := None;
              isStreaming := true; color := cyan; closeStreams := Some 0 |});
    reflexivity.
Defined.

(** *** Rebuild, terminate-all and shutdown *)

Lemma pushCalls_app es1 es2 : pushCalls (es1 ++ es2) = pushCalls es1 ++ pushCalls es2.
Proof.
  induction es1 as [|e es1 IH]; [reflexivity|].
  destruct e; cbn; rewrite ?IH; reflexivity.
Qed.

Lemma terminateAll_state rejected s bs :
  pointTo s (JsMap.values (devBackends s)) bs ->
  stateOf (terminateAllDevbackends rejected s)
  = set_trace (trace s ++ terminateAllEffects (namesOf bs)) s.
Proof.
  intros Hbs. unfold terminateAllDevbackends, bind.
  rewrite (backendValues_pointTo bs) by exact Hbs.
  fold (namesOf bs). unfold terminateAllEffects.
  destruct (Nat.ltb 0 (length (namesOf bs))).
  - rewrite updateFooterAndLog_logged, terminateBackends_state.
    unfold logged. cbn. rewrite <- !app_assoc. reflexivity.
  - rewrite updateFooterAndLog_logged. reflexivity.
Qed.

Lemma terminateCalls_terminateAllEffects names :
  terminateCalls (terminateAllEffects names) = names.
Proof.
  unfold terminateAllEffects. destruct names as [|n names]; [reflexivity|].
  cbn [length Nat.ltb Nat.leb]. cbn [app terminateCalls].
  rewrite terminateCalls_app, terminateCalls_map. cbn. rewrite app_nil_r. reflexivity.
Qed.

(** X8: in a session that runs, [terminateAllDevbackends] calls the
    remote [terminate] for exactly the names of the registry, in the
    order they were registered, and none when the registry is empty; it
    writes neither the registry nor any record. *)
Theorem terminateAll_calls_registry o s rejected :
  reachable o s ->
  exists es,
    trace (stateOf (terminateAllDevbackends rejected s)) = trace s ++ es
    /\ terminateCalls es = JsMap.keys (devBackends s)
    /\ devBackends (stateOf (terminateAllDevbackends rejected s)) = devBackends s
    /\ heap (stateOf (terminateAllDevbackends rejected s)) = heap s.
Proof.
  intros Hreach. destruct (reachable_pointTo o s Hreach) as (bs & Hbs & Hnames).
  rewrite (terminateAll_state rejected s bs Hbs).
  exists (terminateAllEffects (namesOf bs)). cbn.
  split; [reflexivity|]. split; [|split; reflexivity].
  rewrite terminateCalls_terminateAllEffects. exact Hnames.
Qed.

Lemma terminateAll_calls_registry_witness :
  exists es,
    trace (stateOf (terminateAllDevbackends None Demo.twoBackends)) = trace Demo.twoBackends ++ es
    /\ terminateCalls es = JsMap.keys (devBackends Demo.twoBackends)
    /\ devBackends (stateOf (terminateAllDevbackends None Demo.twoBackends))
       = devBackends Demo.twoBackends
    /\ heap (stateOf (terminateAllDevbackends None Demo.twoBackends)) = heap Demo.twoBackends.
Proof.
  apply (terminateAll_calls_registry Demo.options Demo.twoBackends None).
  apply (reachable_step _ _ _
           (reachable_step _ _ _
              (reachable_step _ _ _ oneBackend_reachable
                 (step_request _ Demo.spawnRequest))
              (step_body _ None))
           (step_spawn_answer _ "img1" emptyBody (Demo.fresh "b2") 6%Z)).
Defined.

Lemma build_failed e s :
  buildSessionBackend_build (inl e) s = Exn e (logged [Plain "Building image..."] s).
Proof.
  unfold buildSessionBackend_build, bind, gets, clearFooter.
  rewrite updateFooterAndLog_logged. reflexivity.
Qed.

Lemma build_done img s :
  buildSessionBackend_build (inr img) s
  = Val img (set_trace (trace s ++ [ELog (Plain "Building image..."); EFooter;
                                    ELog (Plain "Image built."); ELog (Plain "Pushing image...");
                                    EFooter; EPush (service (opts s)) img]) s).
Proof.
  unfold buildSessionBackend_build, bind, gets, clearFooter.
  rewrite updateFooterAndLog_logged. cbn [ret]. rewrite updateFooterAndLog_logged.
  unfold emit, modify, logged. cbn. rewrite <- !app_assoc. reflexivity.
Qed.

(** X9: a rebuild whose build fails, or whose push is rejected, throws
    that error and leaves the session on its image: the current image,
    the registry and the records are as before and no backend is
    terminated.  A failed build pushes nothing. *)
Theorem rebuild_failure_keeps_image s :
  (forall e pushRejected rejected,
     exists s',
       rebuild (inl e) pushRejected rejected s = Exn e s'
       /\ currentImageId s' = currentImageId s
       /\ devBackends s' = devBackends s /\ heap s' = heap s
       /\ pushCalls (trace s') = pushCalls (trace s)
       /\ terminateCalls (trace s') = terminateCalls (trace s))
  /\ (forall img e rejected,
        exists s',
          rebuild (inr img) (Some e) rejected s = Exn e s'
          /\ currentImageId s' = currentImageId s
          /\ devBackends s' = devBackends s /\ heap s' = heap s
          /\ pushCalls (trace s') = pushCalls (trace s) ++ [img]
          /\ terminateCalls (trace s') = terminateCalls (trace s)).
Proof.
  split.
  - intros e pushRejected rejected. unfold rebuild, bind. rewrite build_failed.
    eexists. split; [reflexivity|]. cbn.
    rewrite pushCalls_app, terminateCalls_app. cbn. rewrite !app_nil_r. repeat split.
  - intros img e rejected. unfold rebuild, bind. rewrite build_done.
    unfold rebuild_resume, buildSessionBackend_pushed, bind, throw.
    eexists. split; [reflexivity|]. cbn.
    rewrite pushCalls_app, terminateCalls_app. cbn. rewrite !app_nil_r. repeat split.
Qed.

Lemma rebuild_done img rejected s bs :
  pointTo s (JsMap.values (devBackends s)) bs ->
  currentImageId (stateOf (rebuild (inr img) None rejected s)) = Some img
  /\ devBackends (stateOf (rebuild (inr img) None rejected s)) = devBackends s
  /\ heap (stateOf (rebuild (inr img) None rejected s)) = heap s
  /\ totalBackendsSpawned (stateOf (rebuild (inr img) None rejected s)) = totalBackendsSpawned s
  /\ frames (stateOf (rebuild (inr img) None rejected s)) = frames s.
Proof.
  intros Hbs. unfold rebuild, bind. rewrite build_done.
  match goal with
  | |- context [rebuild_resume img None rejected ?s1] =>
      rewrite (rebuild_resume_state img rejected s1 bs) by exact Hbs
  end.
  unfold rebuiltState. destruct (Nat.ltb 0 (length (outdated img bs))); cbn; repeat split.
Qed.

(** X10: after a rebuild has pushed the image [img], a backend spawned
    next is recorded with [img], whatever image the session ran
    before. *)
Theorem spawn_after_rebuild_records_new_image img rejected body result now s bs :
  pointTo s (JsMap.values (devBackends s)) bs ->
  isEmpty img = false ->
  JsMap.get (name result) (devBackends s) = None ->
  spawned result = true ->
  exists s' r b,
    spawnBackend body result now (stateOf (rebuild (inr img) None rejected s))
      = Val (inl result) s'
    /\ JsMap.get (name result) (devBackends s') = Some r
    /\ heap s' !! r = Some b
    /\ imageId b = img.
Proof.
  intros Hbs Himg Hnone Hsp.
  destruct (rebuild_done img rejected s bs Hbs) as (Hcur & Hreg & Hheap & _).
  set (s1 := stateOf (rebuild (inr img) None rejected s)) in *.
  set (s2 := set_trace (trace s1 ++ [ESpawn (service (opts s1)) body]) s1).
  assert (Hcall : spawnBackend_call body s1 = Val img s2).
  { unfold spawnBackend_call, bind, gets. rewrite Hcur, Himg. reflexivity. }
  destruct (resume_new img body result now s2) as (s' & Hrun & Hreg' & Hheap' & _);
    [cbn; rewrite Hreg; exact Hnone|exact Hsp|].
  unfold spawnBackend, bind. rewrite Hcall, Hrun. cbn in Hreg', Hheap'.
  exists s', (length (heap s1)), (spawnedRecord img body result now s2).
  split; [reflexivity|]. split.
  - rewrite Hreg', <- (set_absent (name result) (length (heap s1))) by (rewrite Hreg; exact Hnone).
    apply get_set_eq.
  - split; [|reflexivity]. rewrite Hheap'. apply lookup_last.
Qed.

Lemma spawn_after_rebuild_records_new_image_witness :
  exists s' r b,
    spawnBackend emptyBody (Demo.fresh "b7") 9%Z
      (stateOf (rebuild (inr "img2") None None Demo.oneBackend))
      = Val (inl (Demo.fresh "b7")) s'
    /\ JsMap.get (name (Demo.fresh "b7")) (devBackends s') = Some r
    /\ heap s' !! r = Some b
    /\ imageId b = "img2".
Proof.
  apply (spawn_after_rebuild_records_new_image "img2" None emptyBody (Demo.fresh "b7") 9%Z
           Demo.oneBackend (heap Demo.oneBackend)).
  - repeat constructor.
  - reflexivity.
  - reflexivity.
  - reflexivity.
Defined.

(** X11: when backends are registered and a remote [terminate] is
    rejected during the shutdown, [start] throws that rejection after
    the terminate calls: the cleanup does not run, so the registry keeps
    its entries, no stream is closed and the input is not released. *)
Theorem shutdown_stops_at_rejected_terminate e s b bs :
  pointTo s (JsMap.values (devBackends s)) (b :: bs) ->
  exists s',
    shutdown (Some e) s = Exn e s'
    /\ devBackends s' = devBackends s
    /\ frames s' = frames s
    /\ trace s' = trace s ++ EServerClose :: terminateAllEffects (namesOf (b :: bs)).
Proof.
  intros Hbs. unfold shutdown, start_exit, bind, emit, modify.
  unfold terminateAllDevbackends, bind.
  rewrite (backendValues_pointTo (b :: bs)) by exact Hbs.
  fold (namesOf (b :: bs)). unfold terminateAllEffects. cbn [namesOf map length Nat.ltb Nat.leb].
  rewrite updateFooterAndLog_logged. unfold terminateBackends, bind.
  rewrite forEach_emit, updateFooterAndLog_logged. unfold throw.
  eexists. split; [reflexivity|]. cbn. rewrite <- !app_assoc. repeat split.
Qed.

Lemma shutdown_stops_at_rejected_terminate_witness :
  exists s',
    shutdown (Some (MkError "ECONNRESET")) Demo.oneBackend = Exn (MkError "ECONNRESET") s'
    /\ devBackends s' = devBackends Demo.oneBackend
    /\ frames s' = frames Demo.oneBackend
    /\ trace s' = trace Demo.oneBackend
                  ++ EServerClose :: terminateAllEffects
                       (namesOf ({| spawnResult := Demo.fresh "b1"; imageId := "img1";
                                    spawnTime := 5; lastStatus := None; lock := None;
                                    isStreaming := true; color := cyan;
                                    closeStreams := Some 0 |} :: [])).
Proof.
  apply (shutdown_stops_at_rejected_terminate (MkError "ECONNRESET") Demo.oneBackend).
  repeat constructor.
Defined.

(** X12: with no backend registered the shutdown calls no remote
    [terminate], so it completes whatever the remote would answer: the
    proxy is closed, the watcher if there is one, and the input is
    released last. *)
Theorem shutdown_of_empty_registry rejected s :
  devBackends s = [] ->
  exists s',
    shutdown rejected s = Val tt s'
    /\ devBackends s' = []
    /\ trace s' = trace s
         ++ [EServerClose; ELog (Plain EmptyString);
             ELog (Plain "No development backends to terminate"); EFooter]
         ++ (match watch (opts s) with Some _ => [EWatcherClose] | None => [] end)
         ++ [EStdinRelease].
Proof.
  intros Hreg. unfold shutdown, start_exit, bind, emit, modify.
  unfold terminateAllDevbackends, backendValues, bind, gets. cbn [devBackends set_trace].
  rewrite Hreg. cbn [JsMap.values map derefAll ret length Nat.ltb Nat.leb].
  rewrite updateFooterAndLog_logged.
  unfold start_cleanup, clearFooter, bind, gets. cbn [ret logged devBackends set_trace].
  rewrite Hreg. cbn [JsMap.size length closeRemaining ret opts set_trace].
  unfold emit, modify. cbn.
  destruct (watch (opts s)); cbn;
    (eexists; split; [reflexivity|]; split; [exact Hreg|]);
    cbn; rewrite <- !app_assoc; reflexivity.
Qed.

Lemma shutdown_of_empty_registry_witness :
  exists s',
    shutdown (Some (MkError "ECONNRESET")) Demo.started = Val tt s'
    /\ devBackends s' = []
    /\ trace s' = trace Demo.started
         ++ [EServerClose; ELog (Plain EmptyString);
             ELog (Plain "No development backends to terminate"); EFooter]
         ++ (match watch (opts Demo.started) with Some _ => [EWatcherClose] | None => [] end)
         ++ [EStdinRelease].
Proof.
  apply (shutdown_of_empty_registry (Some (MkError "ECONNRESET")) Demo.started). reflexivity.
Defined.

(** *** The proxy *)

Lemma cons_append c x y : String c x +:+ y = String c (x +:+ y).
Proof. reflexivity. Qed.

Lemma stripPrefix_iff p u r : stripPrefix p u = Some r <-> u = p +:+ r.
Proof.
  revert u. induction p as [|c p IH]; intros u; cbn [stripPrefix].
  - change (EmptyString +:+ r) with r. split; congruence.
  - rewrite cons_append. destruct u as [|d u].
    + split; discriminate.
    + destruct (Ascii.eqb c d) eqn:E.
      * apply Ascii.eqb_eq in E. subst d. rewrite IH. split; congruence.
      * apply Ascii.eqb_neq in E. split; [discriminate|]. intros [= <- _]. contradiction.
Qed.

Lemma segment_spec u seg rest :
  segment u = (seg, rest) ->
  u = seg +:+ rest /\ slashFree seg = true
  /\ (rest = EmptyString \/ exists rest', rest = String "/" rest').
Proof.
  revert seg rest. induction u as [|c u IH]; intros seg rest; cbn [segment].
  - intros [= <- <-]. auto.
  - destruct (Ascii.eqb c "/") eqn:E.
    + apply Ascii.eqb_eq in E. subst c. intros [= <- <-]. eauto.
    + destruct (segment u) as [seg' rest'] eqn:Hs. intros [= <- <-].
      destruct (IH seg' rest' eq_refl) as (Hu & Hfree & Hrest).
      rewrite cons_append, <- Hu. cbn [slashFree]. rewrite E, Hfree. auto.
Qed.

Lemma segment_slashFree seg rest :
  slashFree seg = true ->
  segment (seg +:+ String "/" rest) = (seg, String "/" rest).
Proof.
  induction seg as [|c seg IH]; cbn [slashFree].
  - intros _. reflexivity.
  - intros H. apply andb_true_iff in H as [Hc Hfree].
    rewrite cons_append. cbn [segment]. apply negb_true_iff in Hc. rewrite Hc.
    rewrite (IH Hfree). reflexivity.
Qed.

Lemma append_assoc3 a b c : (a +:+ b) +:+ c = a +:+ (b +:+ c).
Proof. induction a as [|x a IH]; [reflexivity|]. rewrite !cons_append, IH. reflexivity. Qed.

(** X13: the pattern of the route accepts a text exactly when the text
    begins with [/user/A/service/S/spawn] for a non-empty account [A] and
    a non-empty service [S] without a slash, and it captures that [A] and
    that [S]; what follows [/spawn] is not looked at. *)
Theorem routeMatch_characterised u acc svc :
  routeMatch u = Some (acc, svc)
  <-> (isEmpty acc = false /\ slashFree acc = true
       /\ isEmpty svc = false /\ slashFree svc = true
       /\ exists rest, u = routeFor acc svc +:+ rest).
Proof.
  unfold routeMatch, routeFor. split.
  - destruct (stripPrefix "/user/" u) as [r1|] eqn:H1; [|discriminate].
    destruct (segment r1) as [a r2] eqn:H2.
    destruct (isEmpty a) eqn:Ha; [discriminate|].
    destruct (stripPrefix "/service/" r2) as [r3|] eqn:H3; [|discriminate].
    destruct (segment r3) as [sv r4] eqn:H4.
    destruct (isEmpty sv) eqn:Hsv; [discriminate|].
    destruct (stripPrefix "/spawn" r4) as [r5|] eqn:H5; [|discriminate].
    intros [= <- <-].
    apply stripPrefix_iff in H1, H3, H5.
    apply segment_spec in H2 as (H2 & Hfa & _), H4 as (H4 & Hfs & _).
    repeat split; try assumption.
    exists r5. subst. rewrite !append_assoc3. reflexivity.
  - intros (Ha & Hfa & Hsv & Hfs & rest & ->).
    rewrite !append_assoc3.
    rewrite (proj2 (stripPrefix_iff "/user/" _ _) eq_refl).
    change ("/service/" +:+ (svc +:+ ("/spawn" +:+ rest)))
      with (String "/" ("service/" +:+ (svc +:+ ("/spawn" +:+ rest)))).
    rewrite (segment_slashFree acc _ Hfa), Ha.
    change (String "/" ("service/" +:+ (svc +:+ ("/spawn" +:+ rest))))
      with ("/service/" +:+ (svc +:+ ("/spawn" +:+ rest))).
    rewrite (proj2 (stripPrefix_iff "/service/" _ _) eq_refl).
    change ("/spawn" +:+ rest) with (String "/" ("spawn" +:+ rest)).
    rewrite (segment_slashFree svc _ Hfs), Hsv.
    change (String "/" ("spawn" +:+ rest)) with ("/spawn" +:+ rest).
    rewrite (proj2 (stripPrefix_iff "/spawn" _ _) eq_refl). reflexivity.
Qed.

Lemma responses_app es1 es2 : responses (es1 ++ es2) = responses es1 ++ responses es2.
Proof.
  induction es1 as [|e es1 IH]; [reflexivity|].
  destruct e; cbn; rewrite ?IH; reflexivity.
Qed.

Lemma spawnCalls_app es1 es2 : spawnCalls (es1 ++ es2) = spawnCalls es1 + spawnCalls es2.
Proof. unfold spawnCalls. rewrite List.filter_app, length_app. reflexivity. Qed.

(** X14: the routing of a request never throws and never calls the remote
    spawn.  It lets the request through, writing nothing, exactly when
    the request is a POST whose URL matches the pattern with the
    session's own account and service; otherwise it answers once, with
    404 or 401 and no body. *)
Theorem route_decision req s :
  exists accepted s',
    proxyHandler_route req s = Val accepted s'
    /\ (accepted = true <->
        isPost (method req) = true
        /\ routeMatch (orEmpty (url req)) = Some (account (opts s), service (opts s)))
    /\ (accepted = true -> s' = s)
    /\ (accepted = false ->
        exists code, (code = 404 \/ code = 401)
                     /\ responses (trace s') = responses (trace s) ++ [(code, NoBody)])
    /\ spawnCalls (trace s') = spawnCalls (trace s).
Proof.
  assert (Hrefused : forall code (ls : list Effect) s',
            (forall l, In l ls -> match l with ELog _ | EFooter => True | _ => False end) ->
            trace s' = trace s ++ ls ++ [ERespond code NoBody] ->
            code = 404 \/ code = 401 ->
            (false = true -> s' = s)
            /\ (false = false ->
                exists code, (code = 404 \/ code = 401)
                             /\ responses (trace s') = responses (trace s) ++ [(code, NoBody)])
            /\ spawnCalls (trace s') = spawnCalls (trace s)).
  { intros code ls s' Hls Htr Hcode. split; [discriminate|]. rewrite Htr.
    assert (Hr : responses ls = [] /\ spawnCalls ls = 0).
    { clear Htr. induction ls as [|l ls IH]; [split; reflexivity|].
      destruct IH as [IH1 IH2]; [intros l' Hl'; apply Hls; right; exact Hl'|].
      pose proof (Hls l (or_introl eq_refl)) as Hl.
      destruct l; try contradiction; cbn; auto. }
    destruct Hr as [Hr1 Hr2]. split.
    - intros _. exists code. split; [exact Hcode|].
      rewrite !responses_app, Hr1. reflexivity.
    - rewrite !spawnCalls_app, Hr2. cbn. lia. }
  unfold proxyHandler_route, bind, gets.
  destruct (isPost (method req)) eqn:Hpost; cbn [negb].
  - destruct (routeMatch (orEmpty (url req))) as [[a sv]|] eqn:Hmatch.
    + destruct (String.eqb (service (opts s)) sv) eqn:Hsvc; cbn [negb].
      * destruct (String.eqb (account (opts s)) a) eqn:Hacc; cbn [negb].
        -- apply String.eqb_eq in Hsvc, Hacc. subst.
           exists true, s. repeat split; auto; discriminate.
        -- rewrite updateFooterAndLog_logged. eexists false, _. split; [reflexivity|].
           apply String.eqb_neq in Hacc.
           split; [split; [discriminate|intros [_ [= H1 H2]]; congruence]|].
           eapply (Hrefused 401 [_; _]); [|cbn; rewrite <- app_assoc; reflexivity|auto].
           intros l [<-|[<-|[]]]; exact Logic.I.
      * rewrite updateFooterAndLog_logged. eexists false, _. split; [reflexivity|].
        apply String.eqb_neq in Hsvc.
        split; [split; [discriminate|intros [_ [= H1 H2]]; congruence]|].
        eapply (Hrefused 401 [_; _]); [|cbn; rewrite <- app_assoc; reflexivity|auto].
        intros l [<-|[<-|[]]]; exact Logic.I.
    + eexists false, _. split; [reflexivity|].
      split; [split; [discriminate|intros [_ H]; discriminate]|].
      apply (Hrefused 404 []); [intros l []|reflexivity|auto].
  - eexists false, _. split; [reflexivity|].
    split; [split; [discriminate|intros [H _]; discriminate]|].
    apply (Hrefused 404 []); [intros l []|reflexivity|auto].
Qed.

Lemma route_accepts req s :
  isPost (method req) = true ->
  routeMatch (orEmpty (url req)) = Some (account (opts s), service (opts s)) ->
  proxyHandler_route req s = Val true s.
Proof.
  intros Hpost Hmatch. unfold proxyHandler_route, bind, gets.
  rewrite Hpost, Hmatch. cbn [negb]. rewrite !String.eqb_refl. reflexivity.
Qed.

Lemma call_made body img s :
  currentImageId s = Some img -> isEmpty img = false ->
  spawnBackend_call body s = Val img (called body s).
Proof.
  intros Hcur Hne. unfold spawnBackend_call, bind, gets. rewrite Hcur, Hne. reflexivity.
Qed.

(** X15: when [spawnBackend] throws, the handler of the proxy throws with
    it and the request is left without any answer: so it is for a
    request that arrives before an image exists, and for a remote answer
    with [spawned = true] under a name the registry already has. *)
Theorem thrown_spawn_leaves_request_unanswered req parsed result now s :
  isPost (method req) = true ->
  routeMatch (orEmpty (url req)) = Some (account (opts s), service (opts s)) ->
  (currentImageId s = None -> proxyHandler req parsed result now s = Exn errNoImage s)
  /\ (forall img,
        currentImageId s = Some img -> isEmpty img = false ->
        JsMap.has (name result) (devBackends s) = true -> spawned result = true ->
        exists s',
          proxyHandler req parsed result now s = Exn (errAlreadyExists (name result)) s'
          /\ responses (trace s') = responses (trace s)
          /\ devBackends s' = devBackends s).
Proof.
  intros Hpost Hmatch. split.
  - intros Hcur. unfold proxyHandler, bind. rewrite route_accepts by assumption.
    unfold proxyHandler_spawn, spawnBackend_call, bind, gets. rewrite Hcur. reflexivity.
  - intros img Hcur Hne Hhas Hsp. unfold proxyHandler, bind.
    rewrite route_accepts by assumption. unfold proxyHandler_spawn.
    rewrite (call_made _ img) by assumption.
    rewrite resume_known_spawned by assumption.
    eexists. split; [reflexivity|]. cbn. rewrite responses_app. cbn.
    rewrite app_nil_r. auto.
Qed.

Lemma thrown_spawn_leaves_request_unanswered_witness :
  (currentImageId Demo.oneBackend = None ->
   proxyHandler Demo.spawnRequest None (Demo.fresh "b1") 9%Z Demo.oneBackend
     = Exn errNoImage Demo.oneBackend)
  /\ (forall img,
        currentImageId Demo.oneBackend = Some img -> isEmpty img = false ->
        JsMap.has (name (Demo.fresh "b1")) (devBackends Demo.oneBackend) = true ->
        spawned (Demo.fresh "b1") = true ->
        exists s',
          proxyHandler Demo.spawnRequest None (Demo.fresh "b1") 9%Z Demo.oneBackend
            = Exn (errAlreadyExists (name (Demo.fresh "b1"))) s'
          /\ responses (trace s') = responses (trace Demo.oneBackend)
          /\ devBackends s' = devBackends Demo.oneBackend).
Proof.
  apply (thrown_spawn_leaves_request_unanswered Demo.spawnRequest None (Demo.fresh "b1") 9%Z
           Demo.oneBackend); reflexivity.
Defined.

(** X16: when [spawnBackend] returns, the handler answers the request
    once, after everything the spawn did: 200 with the result as JSON
    for a success, 400 with the text of the error for a refusal. *)
Theorem returned_spawn_is_answered_once req parsed result now s img answer s1 :
  isPost (method req) = true ->
  routeMatch (orEmpty (url req)) = Some (account (opts s), service (opts s)) ->
  currentImageId s = Some img -> isEmpty img = false ->
  spawnBackend_resume img (bodyOr parsed) result now (called (bodyOr parsed) s) = Val answer s1 ->
  exists s',
    proxyHandler req parsed result now s = Val tt s'
    /\ trace s' = trace s1 ++
         [match answer with
          | inl r => ERespond 200 (Json r)
          | inr (MkError message) => ERespond 400 (Text ("Error: " ++ message))
          end]
    /\ devBackends s' = devBackends s1 /\ heap s' = heap s1.
Proof.
  intros Hpost Hmatch Hcur Hne Hrun. unfold proxyHandler, bind.
  rewrite route_accepts by assumption. unfold proxyHandler_spawn.
  fold (bodyOr parsed). rewrite (call_made _ img) by assumption. rewrite Hrun.
  destruct answer as [r|[message]]; (eexists; split; [reflexivity|]); cbn; auto.
Qed.

Lemma returned_spawn_is_answered_once_witness :
  exists s',
    proxyHandler Demo.spawnRequest None (Demo.reused "b9") 9%Z Demo.oneBackend = Val tt s'
    /\ trace s' = trace (logged [Red ("Warning: " ++ foreignText)]
                           (called (bodyOr None) Demo.oneBackend)) ++
         [match @inr SpawnResult Error errForeign with
          | inl r => ERespond 200 (Json r)
          | inr (MkError message) => ERespond 400 (Text ("Error: " ++ message))
          end]
    /\ devBackends s' = devBackends (logged [Red ("Warning: " ++ foreignText)]
                                       (called (bodyOr None) Demo.oneBackend))
    /\ heap s' = heap (logged [Red ("Warning: " ++ foreignText)]
                         (called (bodyOr None) Demo.oneBackend)).
Proof.
  apply (returned_spawn_is_answered_once Demo.spawnRequest None (Demo.reused "b9") 9%Z
           Demo.oneBackend "img1" (inr errForeign)); reflexivity.
Defined.

(** *** The body of a request and the listeners *)

Lemma append_empty_r x : x +:+ EmptyString = x.
Proof. induction x as [|c x IH]; [reflexivity|]. rewrite cons_append, IH. reflexivity. Qed.

Lemma fold_settled toString events rd outcome :
  settled rd = Some outcome ->
  settled (fold_left (onBodyEvent toString) events rd) = Some outcome.
Proof.
  revert rd. induction events as [|ev events IH]; intros rd H; [exact H|].
  cbn [fold_left]. apply IH. destruct ev; cbn; unfold settle; rewrite ?H; assumption || reflexivity.
Qed.

Lemma fold_data toString chunks rd :
  fold_left (onBodyEvent toString) (map BodyData chunks) rd
  = {| bodySoFar := bodySoFar rd +:+ String.concat EmptyString (map toString chunks);
       settled := settled rd |}.
Proof.
  revert rd. induction chunks as [|c chunks IH]; intros rd.
  - cbn. rewrite append_empty_r. destruct rd; reflexivity.
  - cbn [map fold_left]. rewrite IH. cbn. f_equal.
    destruct chunks as [|c' chunks].
    + cbn. rewrite append_empty_r. reflexivity.
    + change (String.concat EmptyString (toString c :: map toString (c' :: chunks)))
        with (toString c +:+ (EmptyString +:+ String.concat EmptyString (map toString (c' :: chunks)))).
      cbn. apply append_assoc3.
Qed.

(** X17: [readBody] resolves with the texts of the chunks received
    before the first [end], each chunk turned into text on its own and
    the texts joined in the order of arrival; an [error] that comes first
    rejects it; whatever the request emits afterwards changes nothing;
    and without [end] or [error] it stays pending. *)
Theorem readBody_joins_chunks toString chunks later :
  readBody toString (map BodyData chunks ++ BodyEnd :: later)
    = Some (inr (String.concat EmptyString (map toString chunks)))
  /\ (forall err,
        readBody toString (map BodyData chunks ++ BodyError err :: later) = Some (inl err))
  /\ readBody toString (map BodyData chunks) = None.
Proof.
  unfold readBody. split; [|split].
  - rewrite fold_left_app, fold_data. cbn [fold_left]. apply fold_settled. reflexivity.
  - intros err. rewrite fold_left_app, fold_data. cbn [fold_left]. apply fold_settled. reflexivity.
  - rewrite fold_data. reflexivity.
Qed.

(** X18: the listeners of the keyboard and of the file watcher never
    throw.  A key asks for the exit exactly when it is ctrl-c or when the
    rebuild or the terminations it started threw; a key other than
    ctrl-c, [b] and [t] changes nothing. *)
Theorem key_listener_catches key built pushRejected rejected s :
  exists resolved s',
    onKey key built pushRejected rejected s = Val resolved s'
    /\ (key = CTRL_C -> resolved = true /\ s' = s)
    /\ (key = "b" ->
        s' = stateOf (rebuild built pushRejected rejected s)
        /\ (resolved = true <-> exists e s1, rebuild built pushRejected rejected s = Exn e s1))
    /\ (key = "t" ->
        s' = stateOf (terminateAllDevbackends rejected s)
        /\ (resolved = true <-> exists e s1, terminateAllDevbackends rejected s = Exn e s1))
    /\ (key <> CTRL_C -> key <> "b" -> key <> "t" -> resolved = false /\ s' = s)
    /\ exists changed,
         onFileChange built pushRejected rejected s
           = Val changed (stateOf (rebuild built pushRejected rejected s))
         /\ (changed = true <-> exists e s1, rebuild built pushRejected rejected s = Exn e s1).
Proof.
  assert (Hfile : exists changed,
            onFileChange built pushRejected rejected s
              = Val changed (stateOf (rebuild built pushRejected rejected s))
            /\ (changed = true <-> exists e s1, rebuild built pushRejected rejected s = Exn e s1)).
  { unfold onFileChange, orResolve, bind.
    destruct (rebuild built pushRejected rejected s) as [[] s1|e s1].
    - exists false. split; [reflexivity|]. split; [discriminate|].
      intros (e & s2 & H). discriminate.
    - exists true. split; [reflexivity|]. split; eauto. }
  cut (exists resolved s',
    onKey key built pushRejected rejected s = Val resolved s'
    /\ (key = CTRL_C -> resolved = true /\ s' = s)
    /\ (key = "b" ->
        s' = stateOf (rebuild built pushRejected rejected s)
        /\ (resolved = true <-> exists e s1, rebuild built pushRejected rejected s = Exn e s1))
    /\ (key = "t" ->
        s' = stateOf (terminateAllDevbackends rejected s)
        /\ (resolved = true <-> exists e s1, terminateAllDevbackends rejected s = Exn e s1))
    /\ (key <> CTRL_C -> key <> "b" -> key <> "t" -> resolved = false /\ s' = s)).
  { intros (resolved & s' & H1 & H2 & H3 & H4 & H5). exists resolved, s'. auto 10. }
  clear Hfile.
  unfold onKey, orResolve, bind. cbv zeta.
  destruct (String.eqb key "b") eqn:Hb.
  - apply String.eqb_eq in Hb. subst key. cbn [String.eqb Ascii.eqb Bool.eqb].
    destruct (rebuild built pushRejected rejected s) as [[] s1|e s1] eqn:Hr.
    + exists false, s1. cbn. split; [reflexivity|].
      split; [discriminate|]. split.
      * intros _. split; [reflexivity|]. split; [discriminate|]. intros (e & s2 & H). discriminate.
      * split; [discriminate|]. intros _ H. contradiction.
    + exists true, s1. split; [reflexivity|].
      split; [discriminate|]. split.
      * intros _. split; [reflexivity|]. split; eauto.
      * split; [discriminate|]. intros _ H. contradiction.
  - apply String.eqb_neq in Hb. cbn [ret].
    destruct (String.eqb key "t") eqn:Ht.
    + apply String.eqb_eq in Ht. subst key. cbn [String.eqb Ascii.eqb Bool.eqb].
      destruct (terminateAllDevbackends rejected s) as [[] s1|e s1] eqn:Hr.
      * exists false, s1. split; [reflexivity|].
        split; [discriminate|]. split; [intros H; discriminate|]. split.
        -- intros _. split; [reflexivity|]. split; [discriminate|].
           intros (e & s2 & H). discriminate.
        -- intros _ _ H. contradiction.
      * exists true, s1. split; [reflexivity|].
        split; [discriminate|]. split; [intros H; discriminate|]. split.
        -- intros _. split; [reflexivity|]. split; eauto.
        -- intros _ _ H. contradiction.
    + apply String.eqb_neq in Ht. cbn [ret].
      exists (String.eqb key CTRL_C), s. split; [reflexivity|].
      split; [intros ->; auto|]. split; [intros H; contradiction|].
      split; [intros H; contradiction|].
      intros Hc _ _. apply String.eqb_neq in Hc. auto.
Qed.

(** *** The footer *)

Lemma characters_app x y : characters (x ++ y) = characters x + characters y.
Proof.
  unfold characters. induction x as [|sp x IH]; [reflexivity|]. cbn. rewrite IH. lia.
Qed.

Lemma characters_chalk t x : characters (chalk t x) = characters x.
Proof.
  unfold characters, chalk. induction x as [|sp x IH]; [reflexivity|].
  cbn in *. rewrite IH. reflexivity.
Qed.

Lemma codePoints_copies c n :
  codePoints (String c EmptyString) = 1 -> codePoints (copies (String c EmptyString) n) = n.
Proof.
  intros Hc. induction n as [|n IH]; [reflexivity|].
  cbn [copies]. rewrite cons_append. change (EmptyString +:+ ?x) with x.
  cbn [codePoints] in *. rewrite IH. lia.
Qed.

Lemma characters_repeated unit n :
  In unit [" "; "="] -> characters (plain (copies unit n)) = n.
Proof.
  intros [<-|[<-|[]]]; unfold characters, plain; cbn [fold_right chars];
    rewrite codePoints_copies by reflexivity; lia.
Qed.

Lemma characters_drawn c :
  In c [doubleBar; cornerTopLeft; cornerTopRight; cornerBottomLeft; cornerBottomRight] ->
  characters (plain c) = 1.
Proof. intros [<-|[<-|[<-|[<-|[<-|[]]]]]]; reflexivity. Qed.

Section FooterFacts.
Variable stringLength : Styled -> nat.

(** What is assumed of the package: the length of two texts in a row is
    the sum of theirs, a style adds nothing to it, [n] spaces or equals
    signs in a row have length [n], and a character the box is drawn
    with has length one. *)
Hypothesis stringLength_app :
  forall x y, stringLength (x ++ y) = stringLength x + stringLength y.
Hypothesis stringLength_chalk :
  forall t x, stringLength (chalk t x) = stringLength x.
Hypothesis stringLength_repeated :
  forall unit n, In unit [" "; "="] -> stringLength (plain (copies unit n)) = n.
Hypothesis stringLength_drawn :
  forall c, In c [doubleBar; cornerTopLeft; cornerTopRight; cornerBottomLeft; cornerBottomRight] ->
            stringLength (plain c) = 1.

Lemma widest_bound lines :
  forall start line, In line lines ->
    stringLength line
    <= fold_left (fun widest l => Nat.max widest (stringLength l)) lines start.
Proof.
  assert (Hmono : forall ls start,
            start <= fold_left (fun widest l => Nat.max widest (stringLength l)) ls start).
  { induction ls as [|l ls IH]; intros start; cbn; [lia|].
    etransitivity; [|apply IH]. lia. }
  induction lines as [|l lines IH]; intros start line Hin; [destruct Hin|].
  cbn [fold_left]. destruct Hin as [->|Hin].
  - etransitivity; [|apply Hmono]. lia.
  - apply IH. exact Hin.
Qed.

Lemma boxed_width width line :
  stringLength line + 6 <= width ->
  exists out, boxed stringLength width line = inr out /\ stringLength out = width.
Proof.
  intros Hle. unfold boxed.
  change (repeatString " " (Z.of_nat padding)) with (@inr Error Styled (plain (copies " " 2))).
  cbv zeta.
  assert (Hlen : stringLength (plain doubleBar ++ plain (copies " " 2) ++ line)
                 = 3 + stringLength line).
  { rewrite !stringLength_app, stringLength_repeated, stringLength_drawn; cbn; tauto. }
  cbv beta iota. rewrite Hlen. unfold repeatString.
  destruct (Z.ltb_spec (Z.of_nat width - Z.of_nat (3 + stringLength line) - 1) 0) as [H|H];
    [lia|].
  eexists. split; [reflexivity|].
  rewrite stringLength_app, Hlen, stringLength_app.
  rewrite stringLength_repeated, stringLength_drawn by (cbn; tauto). lia.
Qed.

Lemma mapThrowing_boxed width lines :
  (forall line, In line lines -> stringLength line + 6 <= width) ->
  exists out,
    mapThrowing (boxed stringLength width) lines = inr out
    /\ length out = length lines
    /\ Forall (fun l => stringLength l = width) out.
Proof.
  induction lines as [|l lines IH]; intros Hle.
  - exists []. repeat split. constructor.
  - destruct (boxed_width width l) as (o & Ho & Hw); [apply Hle; left; reflexivity|].
    destruct IH as (out & Hout & Hlen & Hall); [intros x Hx; apply Hle; right; exact Hx|].
    exists (o :: out). cbn. rewrite Ho, Hout. repeat split; [lia|].
    constructor; assumption.
Qed.

Lemma rule_width left right width :
  stringLength (plain left) = 1 -> stringLength (plain right) = 1 -> 2 <= width ->
  exists out, rule left right width = inr out /\ stringLength out = width.
Proof.
  intros Hl Hr Hw. unfold rule, repeatString.
  destruct (Z.ltb_spec (Z.of_nat width - 2) 0) as [H|H]; [lia|].
  eexists. split; [reflexivity|].
  rewrite stringLength_chalk, !stringLength_app, Hl, Hr.
  rewrite stringLength_repeated by (cbn; tauto). lia.
Qed.

Lemma getFooter_box size printed :
  exists footer,
    getFooter stringLength size printed = inr footer
    /\ Forall (fun line => stringLength line
                           = boxWidth stringLength (footerLines size printed)) footer
    /\ length footer = length (footerLines size printed) + 2.
Proof.
  unfold getFooter. cbv zeta.
  set (lines := footerLines size printed). set (width := boxWidth stringLength lines).
  destruct (mapThrowing_boxed width lines) as (out & Hout & Hlen & Hall).
  { intros line Hin. unfold width, boxWidth, padding.
    pose proof (widest_bound lines 0 line Hin). lia. }
  destruct (rule_width cornerTopLeft cornerTopRight width) as (top & Htop & Wtop);
    [apply stringLength_drawn; cbn; tauto|apply stringLength_drawn; cbn; tauto
    |unfold width, boxWidth, padding; lia|].
  destruct (rule_width cornerBottomLeft cornerBottomRight width) as (bot & Hbot & Wbot);
    [apply stringLength_drawn; cbn; tauto|apply stringLength_drawn; cbn; tauto
    |unfold width, boxWidth, padding; lia|].
  rewrite Hout, Htop, Hbot. eexists. split; [reflexivity|]. split.
  - constructor; [exact Wtop|]. apply Forall_app. split; [exact Hall|].
    constructor; [exact Wbot|constructor].
  - cbn. rewrite length_app, Hlen. cbn. lia.
Qed.

(** X19: [getFooter] never throws, for no registry and no table: the
    count given to [repeat] is never negative.  Its lines form a box:
    all have the width of the widest line inside plus six, and there are
    two more of them than lines inside, which is seven when the registry
    is empty and six more than the table has otherwise. *)
Theorem footer_is_a_box size printed :
  exists footer,
    getFooter stringLength size printed = inr footer
    /\ Forall (fun line => stringLength line
                           = boxWidth stringLength (footerLines size printed)) footer
    /\ length footer = (if Nat.ltb 0 size then length printed else 1) + 6.
Proof.
  destruct (getFooter_box size printed) as (footer & Hrun & Hall & Hlen).
  exists footer. split; [exact Hrun|]. split; [exact Hall|].
  rewrite Hlen. unfold footerLines. rewrite !length_app.
  destruct (Nat.ltb 0 size); cbn; lia.
Qed.

(** X20: a redraw first erases as many lines as the footer before it had,
    then prints the log lines, then the new footer, and keeps the number
    of lines of that footer: the redraw after it, or a [clearFooter],
    erases exactly those, and a second [clearFooter] writes nothing. *)
Theorem redraw_erases_the_footer_before logLines size printed sc :
  exists footer sc',
    getFooter stringLength size printed = inr footer
    /\ updateFooterAndLogOn stringLength logLines size printed sc = inr sc'
    /\ written sc' = written sc ++ erasures (curFooterLength sc)
                     ++ map ConsoleLog logLines ++ map ConsoleLog footer
    /\ curFooterLength sc' = length footer
    /\ written (clearFooterOn sc') = written sc' ++ erasures (length footer)
    /\ clearFooterOn (clearFooterOn sc') = clearFooterOn sc'.
Proof.
  destruct (getFooter_box size printed) as (footer & Hrun & _ & _).
  unfold updateFooterAndLogOn. cbv zeta. rewrite Hrun.
  eexists. eexists. split; [reflexivity|]. split; [reflexivity|].
  split; [cbn; rewrite <- !app_assoc; reflexivity|].
  split; [reflexivity|]. split; [reflexivity|].
  unfold clearFooterOn. cbn. rewrite app_nil_r. reflexivity.
Qed.

End FooterFacts.

Lemma footer_is_a_box_witness :
  exists footer,
    getFooter characters 0 [] = inr footer
    /\ Forall (fun line => characters line = boxWidth characters (footerLines 0 [])) footer
    /\ length footer = (if Nat.ltb 0 0 then length (@nil Styled) else 1) + 6.
Proof.
  apply (footer_is_a_box characters characters_app characters_chalk
           characters_repeated characters_drawn 0 []).
Defined.

Lemma redraw_erases_the_footer_before_witness :
  exists footer sc',
    getFooter characters 0 [] = inr footer
    /\ updateFooterAndLogOn characters [plain "Building image..."] 0 []
         {| curFooterLength := 7; written := [] |} = inr sc'
    /\ written sc' = written {| curFooterLength := 7; written := [] |}
                     ++ erasures (curFooterLength {| curFooterLength := 7; written := [] |})
                     ++ map ConsoleLog [plain "Building image..."] ++ map ConsoleLog footer
    /\ curFooterLength sc' = length footer
    /\ written (clearFooterOn sc') = written sc' ++ erasures (length footer)
    /\ clearFooterOn (clearFooterOn sc') = clearFooterOn sc'.
Proof.
  apply (redraw_erases_the_footer_before characters characters_app characters_chalk
           characters_repeated characters_drawn [plain "Building image..."] 0 []
           {| curFooterLength := 7; written := [] |}).
Defined.

(** *** The login *)

Lemma logIn_config i w out w' :
  Login.logIn i w = (out, w') ->
  Login.config w' = Login.config w
  \/ exists acc tok,
       out = Login.Returned
       /\ Login.config w' = Some {| Login.account := acc; Login.token := tok |}
       /\ Login.newCheck i = Login.Authenticated acc
       /\ isEmpty tok = false
       /\ Login.includesPeriod tok = true
       /\ (tok = Login.trim i (Login.typed i)
           \/ exists a, Login.argToken i = Some a /\ tok = Login.trim i a).
Proof.
  unfold Login.logIn.
  assert (Hsrc : exists tok w1,
            (match Login.argToken i with
             | Some a => if isEmpty (Login.trim i a) then Login.prompt i w
                         else (Login.trim i a, w)
             | None => Login.prompt i w
             end) = (tok, w1)
            /\ Login.config w1 = Login.config w
            /\ (tok = Login.trim i (Login.typed i)
                \/ exists a, Login.argToken i = Some a /\ tok = Login.trim i a)).
  { destruct (Login.argToken i) as [a|].
    - destruct (isEmpty (Login.trim i a)).
      + eexists. eexists. split; [reflexivity|]. split; [reflexivity|]. left. reflexivity.
      + eexists. eexists. split; [reflexivity|]. split; [reflexivity|]. right. eauto.
    - eexists. eexists. split; [reflexivity|]. split; [reflexivity|]. left. reflexivity. }
  destruct Hsrc as (tok & w1 & -> & Hcfg & Htok).
  destruct (isEmpty tok) eqn:He; [intros [= <- <-]; left; exact Hcfg|].
  destruct (Login.includesPeriod tok) eqn:Hp; cbn [negb];
    [|intros [= <- <-]; left; exact Hcfg].
  destruct (Login.newCheck i) as [acc|e|e] eqn:Hc;
    intros [= <- <-]; [|left; exact Hcfg|left; exact Hcfg].
  right. exists acc, tok. auto 10.
Qed.

(** X21: the login leaves the stored configuration as it was, or deletes
    it, or replaces it by an account and a token of which the token is
    the trimmed argument or the trimmed answer to the prompt, is not
    empty, contains a period, and was accepted by the API for that
    account.  It is replaced only when the run returns. *)
Theorem login_stores_only_accepted_tokens i w out w' :
  Login.run i w = (out, w') ->
  Login.config w' = Login.config w
  \/ Login.config w' = None
  \/ exists acc tok,
       out = Login.Returned
       /\ Login.config w' = Some {| Login.account := acc; Login.token := tok |}
       /\ Login.newCheck i = Login.Authenticated acc
       /\ isEmpty tok = false
       /\ Login.includesPeriod tok = true
       /\ (tok = Login.trim i (Login.typed i)
           \/ exists a, Login.argToken i = Some a /\ tok = Login.trim i a).
Proof.
  unfold Login.run. destruct (Login.config w) as [c|] eqn:Hcfg.
  - destruct (Login.storedCheck i) as [acc|e|e].
    + intros [= <- <-]. left. cbn. exact Hcfg.
    + intros Hrun. destruct (logIn_config i _ out w' Hrun) as [H|H]; [|auto].
      right. left. exact H.
    + intros [= <- <-]. left. exact Hcfg.
  - intros Hrun. destruct (logIn_config i w out w' Hrun) as [H|H]; [|auto].
    right. left. rewrite H. exact Hcfg.
Qed.

Lemma login_stores_only_accepted_tokens_witness :
  Login.config (snd (Login.run Login.demoInputs Login.demoWorld)) = Login.config Login.demoWorld
  \/ Login.config (snd (Login.run Login.demoInputs Login.demoWorld)) = None
  \/ exists acc tok,
       fst (Login.run Login.demoInputs Login.demoWorld) = Login.Returned
       /\ Login.config (snd (Login.run Login.demoInputs Login.demoWorld))
          = Some {| Login.account := acc; Login.token := tok |}
       /\ Login.newCheck Login.demoInputs = Login.Authenticated acc
       /\ isEmpty tok = false
       /\ Login.includesPeriod tok = true
       /\ (tok = Login.trim Login.demoInputs (Login.typed Login.demoInputs)
           \/ exists a, Login.argToken Login.demoInputs = Some a /\ tok = Login.trim Login.demoInputs a).
Proof.
  apply (login_stores_only_accepted_tokens Login.demoInputs Login.demoWorld
           (fst (Login.run Login.demoInputs Login.demoWorld)) (snd (Login.run Login.demoInputs Login.demoWorld))).
  reflexivity.
Defined.

(** X22: what becomes of a stored configuration.  If the API accepts its
    token, the run returns at once: nothing is stored, deleted or asked,
    whatever the argument.  If the check fails with another error than
    an [AuthenticationError], that error is thrown and the configuration
    stays.  If it fails with an [AuthenticationError], the configuration
    is deleted before the login, so that a login that then throws leaves
    no configuration at all. *)
Theorem login_fate_of_stored_config i w c :
  Login.config w = Some c ->
  (forall acc, Login.storedCheck i = Login.Authenticated acc ->
     exists w', Login.run i w = (Login.Returned, w')
                /\ Login.config w' = Some c /\ Login.prompts w' = Login.prompts w
                /\ length (Login.output w') = S (length (Login.output w)))
  /\ (forall e, Login.storedCheck i = Login.OtherError e -> Login.run i w = (Login.Threw e, w))
  /\ (forall e0 e w', Login.storedCheck i = Login.AuthenticationError e0 ->
        Login.run i w = (Login.Threw e, w') -> Login.config w' = None).
Proof.
  intros Hcfg. unfold Login.run. rewrite Hcfg. split; [|split].
  - intros acc ->. eexists. split; [reflexivity|]. cbn.
    rewrite length_app. cbn. repeat split; [exact Hcfg|lia].
  - intros e ->. reflexivity.
  - intros e0 e w' -> Hrun.
    destruct (logIn_config i _ _ w' Hrun) as [H|(acc & tok & Hout & _)]; [exact H|discriminate].
Qed.

Lemma login_fate_of_stored_config_witness :
  (exists w', Login.run Login.demoAccepted Login.demoWorld = (Login.Returned, w')
              /\ Login.config w' = Some {| Login.account := "old"; Login.token := "old.token" |}
              /\ Login.prompts w' = Login.prompts Login.demoWorld
              /\ length (Login.output w') = S (length (Login.output Login.demoWorld)))
  /\ Login.run Login.demoUnreachable Login.demoWorld
     = (Login.Threw (MkError "network"), Login.demoWorld)
  /\ Login.config (snd (Login.run Login.demoInvalid Login.demoWorld)) = None.
Proof.
  split; [|split].
  - exact (proj1 (login_fate_of_stored_config Login.demoAccepted Login.demoWorld
                    {| Login.account := "old"; Login.token := "old.token" |} eq_refl)
                 "old" eq_refl).
  - exact (proj1 (proj2 (login_fate_of_stored_config Login.demoUnreachable Login.demoWorld
                           {| Login.account := "old"; Login.token := "old.token" |} eq_refl))
                 (MkError "network") eq_refl).
  - exact (proj2 (proj2 (login_fate_of_stored_config Login.demoInvalid Login.demoWorld
                           {| Login.account := "old"; Login.token := "old.token" |} eq_refl))
                 (MkError "expired") (MkError "Invalid token. Token must contain a period.")
                 (snd (Login.run Login.demoInvalid Login.demoWorld)) eq_refl eq_refl).
Defined.
